(** * MCCLI: the connection-lifecycle controller and its command dispatcher

    A shallow embedding of [src/index.js] (MCCLI v1.1.1_rc1): the
    [BotController] class, the command registry, [handleCommand], the
    process-wide fault handlers, and the events the agent client delivers.

    Conventions of the embedding.
    - A JavaScript string is a sequence of code units; the development
      works with the 8-bit code units of [string], read as U+0000..U+00FF.
    - A JavaScript number that the controller handles is NaN, an integer
      of magnitude up to 2^53 (every one of which a double holds
      exactly), or the double that a larger integer is rounded to
      ([Num]); the sign of zero is not represented.
    - The decorative glyphs and the colouring of log messages are left out
      of the message texts.
    - Calls into the agent client are recorded in a trace, and an oracle
      tape held by the world decides which of them fault. *)

From stdpp Require Import gmap strings list pretty.
From Stdlib Require Import ZArith Ascii String Lia.

Open Scope string_scope.

(** ** JavaScript values and string primitives *)

Module JS.

(** A value that may be [undefined] or [null]. *)
Inductive jsval (A : Type) : Type :=
| Undefined
| Null
| Val (a : A).
Arguments Undefined {A}.
Arguments Null {A}.
Arguments Val {A} a.

(** The numbers the controller sees: the result of [parseInt] or the
    default port.  [Int z] is the integer [z], used for magnitudes up to
    2^53; [Rounded z] is the double that the built-in gives for a larger
    integer [z] (the nearest double, an infinity when [z] is out of
    range), whose value and text are not computed here. *)
Inductive Num : Type :=
| NaN
| Int (z : Z)
| Rounded (z : Z).

#[global] Instance jsval_eq_dec `{EqDecision A} : EqDecision (jsval A).
Proof. solve_decision. Defined.
#[global] Instance Num_eq_dec : EqDecision Num.
Proof. solve_decision. Defined.

(** [!!v] for a string-or-missing value: only a non-empty string is
    truthy. *)
Definition truthy (v : jsval string) : bool :=
  match v with
  | Val s => negb (String.eqb s "")
  | _ => false
  end.

(** [args[i]] *)
Definition arg (args : list string) (i : nat) : jsval string :=
  match args !! i with
  | Some s => Val s
  | None => Undefined
  end.

Definition code (c : ascii) : nat := nat_of_ascii c.

(** White space as [trim] and [parseInt] see it, within U+0000..U+00FF:
    TAB, LF, VT, FF, CR, SP and NBSP. *)
Definition is_ws (c : ascii) : bool :=
  (((9 <=? code c) && (code c <=? 13)) || (code c =? 32) || (code c =? 160))%nat.

Fixpoint trimStart (s : string) : string :=
  match s with
  | EmptyString => EmptyString
  | String c s' => if is_ws c then trimStart s' else s
  end.

Fixpoint trimEnd (s : string) : string :=
  match s with
  | EmptyString => EmptyString
  | String c s' =>
      let r := trimEnd s' in
      if is_ws c && String.eqb r "" then "" else String c r
  end.

Definition trim (s : string) : string := trimEnd (trimStart s).

(** [s.split(sep)] for a one-unit separator: every occurrence of the
    separator ends a piece, so two separators in a row enclose an empty
    piece, and the empty string splits into one empty piece. *)
Fixpoint split (sep : ascii) (s : string) : list string :=
  match s with
  | EmptyString => [""]
  | String c s' =>
      let r := split sep s' in
      if Ascii.eqb c sep then "" :: r
      else match r with
           | hd :: tl => String c hd :: tl
           | [] => [String c ""]
           end
  end.

(** [l.join(sep)] *)
Definition join (sep : string) (l : list string) : string :=
  String.concat sep l.

(** [c.toLowerCase()] on U+0000..U+00FF: A-Z and the Latin-1 capitals
    (U+00C0..U+00DE without the multiplication sign) move up by 32. *)
Definition lower (c : ascii) : ascii :=
  let n := code c in
  if (((65 <=? n) && (n <=? 90))
      || ((192 <=? n) && (n <=? 222) && negb (n =? 215)))%nat
  then ascii_of_nat (n + 32) else c.

Fixpoint toLowerCase (s : string) : string :=
  match s with
  | EmptyString => EmptyString
  | String c s' => String (lower c) (toLowerCase s')
  end.

(** [s.includes(c)] for a one-unit needle. *)
Fixpoint includes (c : ascii) (s : string) : bool :=
  match s with
  | EmptyString => false
  | String d s' => Ascii.eqb d c || includes c s'
  end.

Definition is_digit (c : ascii) : bool :=
  ((48 <=? code c) && (code c <=? 57))%nat.

(** [s.slice(0, n)] *)
Definition slice0 (n : nat) (s : string) : string := String.substring 0 n s.

(** The value of a digit in the given radix, if it is one. *)
Definition digit_val (radix : Z) (c : ascii) : option Z :=
  let n := Z.of_nat (code c) in
  let d :=
    if ((48 <=? n) && (n <=? 57))%Z then Some (n - 48)%Z
    else if ((97 <=? n) && (n <=? 122))%Z then Some (n - 87)%Z
    else if ((65 <=? n) && (n <=? 90))%Z then Some (n - 55)%Z
    else None in
  match d with
  | Some v => if (v <? radix)%Z then Some v else None
  | None => None
  end.

(** The longest prefix of digits, as a number; [acc] is [None] until a
    digit has been read. *)
Fixpoint digits (radix : Z) (s : string) (acc : option Z) : option Z :=
  match s with
  | EmptyString => acc
  | String c s' =>
      match digit_val radix c with
      | Some d => digits radix s' (Some (radix * default 0%Z acc + d)%Z)
      | None => acc
      end
  end.

(** [parseInt(s)] with no radix argument: leading white space is
    skipped, one sign is read, a [0x]/[0X] prefix selects radix 16, and
    the longest run of digits is the value; no digit gives NaN, and a
    value beyond 2^53 is rounded to a double. *)
Definition parseInt (s : string) : Num :=
  let s := trimStart s in
  let '(sign, s) :=
    match s with
    | String "-" r => ((-1)%Z, r)
    | String "+" r => (1%Z, r)
    | _ => (1%Z, s)
    end in
  let '(radix, s) :=
    match s with
    | String "0" (String x r) =>
        if Ascii.eqb x "x" || Ascii.eqb x "X" then (16%Z, r) else (10%Z, s)
    | _ => (10%Z, s)
    end in
  match digits radix s None with
  | Some v =>
      if (v <=? 9007199254740992)%Z then Int (sign * v) else Rounded (sign * v)
  | None => NaN
  end.

(** [String(n)]: an integer of magnitude up to 2^53 is written out in
    full.  The text of a rounded double is not computed: the digits of
    the integer it was rounded from stand in for it. *)
Definition show (n : Num) : string :=
  match n with
  | NaN => "NaN"
  | Int z => pretty z
  | Rounded z => pretty z
  end.

(** [s.replace(/\s+/g, ' ')]: every run of white space becomes one
    space. *)
Fixpoint collapse_ws (s : string) : string :=
  match s with
  | EmptyString => EmptyString
  | String c s' =>
      if is_ws c then
        match s' with
        | String d _ => if is_ws d then collapse_ws s' else String " " (collapse_ws s')
        | EmptyString => " "
        end
      else String c (collapse_ws s')
  end.

(** [s.includes(needle)] for a string needle. *)
Fixpoint includes_str (needle s : string) : bool :=
  String.prefix needle s ||
  match s with
  | EmptyString => false
  | String _ s' => includes_str needle s'
  end.

End JS.
Export JS.


(** ** The world: controller, emitters, promises, timers, console *)

(** Severity tags of the logger. *)
Inductive Level : Type :=
| LInfo | LWarn | LError | LSuccess | LChat | LEvent.

(** What reaches the console: a logger line, a bare [console.log] line,
    or [console.clear()]. *)
Inductive Output : Type :=
| Logged (l : Level) (msg : string)
| Printed (line : string)
| Cleared.

(** The events [connect] subscribes to. *)
Inductive EventName : Type :=
| EvSpawn | EvChat | EvMessage | EvKicked | EvError | EvEnd.

(** An event as the agent client delivers it.  [ChatEv] carries the value
    of [bot.username] at delivery; [Kicked] carries the rendering of
    [reason?.text || JSON.stringify(reason)]; [ErrorEv] carries
    [err.message]. *)
Inductive Event : Type :=
| Spawn
| ChatEv (user : jsval string) (msg : string) (username : string)
| Message (text : string)
| Kicked (reason : string)
| ErrorEv (message : string)
| End.

Definition event_name (ev : Event) : EventName :=
  match ev with
  | Spawn => EvSpawn
  | ChatEv _ _ _ => EvChat
  | Message _ => EvMessage
  | Kicked _ => EvKicked
  | ErrorEv _ => EvError
  | End => EvEnd
  end.

(** Calls into the agent client and its movement planner. *)
Inductive AgentCall : Type :=
| CreateBot (host : string) (port : jsval Num) (version : jsval string)
| LoadPlugin (h : nat)
| RemoveAllListeners (h : nat)
| QuitCall (h : nat) (reason : string)
| ChatCall (h : nat) (text : string)
| Vec3Call (h : nat) (x y z : string)
| LookAtCall (h : nat) (x y z : string)
| MinecraftData (h : nat)
| SetMovements (h : nat)
| SetGoal (h : nat) (x y z : string).

(** The state of a promise made by [connect]. *)
Inductive PState : Type :=
| Pending
| Resolved
| Failed (e : string).

(** What [setTimeout] holds: the only callback of the program calls
    [connect] with the last target, read when the timer fires. *)
Inductive Task : Type :=
| Reconnect.

#[global] Instance Level_eq_dec : EqDecision Level.
Proof. solve_decision. Defined.
#[global] Instance Output_eq_dec : EqDecision Output.
Proof. solve_decision. Defined.
#[global] Instance EventName_eq_dec : EqDecision EventName.
Proof. solve_decision. Defined.
#[global] Instance AgentCall_eq_dec : EqDecision AgentCall.
Proof. solve_decision. Defined.
#[global] Instance PState_eq_dec : EqDecision PState.
Proof. solve_decision. Defined.
#[global] Instance Task_eq_dec : EqDecision Task.
Proof. solve_decision. Defined.

(** The fields of [BotController]. *)
Record Controller : Type := mkController {
  bot : option nat;
  connected : bool;
  autoReconnect : bool;
  lastHost : jsval string;
  lastPort : jsval Num;
  lastVersion : jsval string
}.

(** [new BotController()] *)
Definition new_controller : Controller :=
  {| bot := None; connected := false; autoReconnect := false;
     lastHost := Null; lastPort := Null; lastVersion := Null |}.

(** The process and its surroundings.  [subs] gives the events each
    handle still has a listener for; [faults] is the oracle tape, one
    entry per call into the agent client; [position] and [players] are
    what the client reports ([position] already rendered by
    [toFixed(1)], absent while [bot.entity] is undefined). *)
Record World : Type := mkWorld {
  ctl : Controller;
  subs : gmap nat (list EventName);
  promises : gmap nat PState;
  next_id : nat;
  timers : list (Z * Task);
  out : list Output;
  calls : list AgentCall;
  exit_code : option Z;
  faults : list (option string);
  position : option (string * string * string);
  players : list string
}.

Definition set_ctl (f : Controller -> Controller) (w : World) : World :=
  {| ctl := f (ctl w); subs := subs w; promises := promises w;
     next_id := next_id w; timers := timers w; out := out w;
     calls := calls w; exit_code := exit_code w; faults := faults w;
     position := position w; players := players w |}.

Definition set_subs (f : gmap nat (list EventName) -> gmap nat (list EventName))
  (w : World) : World :=
  {| ctl := ctl w; subs := f (subs w); promises := promises w;
     next_id := next_id w; timers := timers w; out := out w;
     calls := calls w; exit_code := exit_code w; faults := faults w;
     position := position w; players := players w |}.

Definition set_promises (f : gmap nat PState -> gmap nat PState) (w : World) : World :=
  {| ctl := ctl w; subs := subs w; promises := f (promises w);
     next_id := next_id w; timers := timers w; out := out w;
     calls := calls w; exit_code := exit_code w; faults := faults w;
     position := position w; players := players w |}.

Definition set_next_id (n : nat) (w : World) : World :=
  {| ctl := ctl w; subs := subs w; promises := promises w;
     next_id := n; timers := timers w; out := out w;
     calls := calls w; exit_code := exit_code w; faults := faults w;
     position := position w; players := players w |}.

Definition set_timers (f : list (Z * Task) -> list (Z * Task)) (w : World) : World :=
  {| ctl := ctl w; subs := subs w; promises := promises w;
     next_id := next_id w; timers := f (timers w); out := out w;
     calls := calls w; exit_code := exit_code w; faults := faults w;
     position := position w; players := players w |}.

Definition add_out (o : Output) (w : World) : World :=
  {| ctl := ctl w; subs := subs w; promises := promises w;
     next_id := next_id w; timers := timers w; out := out w ++ [o];
     calls := calls w; exit_code := exit_code w; faults := faults w;
     position := position w; players := players w |}.

Definition add_call (c : AgentCall) (w : World) : World :=
  {| ctl := ctl w; subs := subs w; promises := promises w;
     next_id := next_id w; timers := timers w; out := out w;
     calls := calls w ++ [c]; exit_code := exit_code w; faults := faults w;
     position := position w; players := players w |}.

Definition set_exit_code (c : option Z) (w : World) : World :=
  {| ctl := ctl w; subs := subs w; promises := promises w;
     next_id := next_id w; timers := timers w; out := out w;
     calls := calls w; exit_code := c; faults := faults w;
     position := position w; players := players w |}.

Definition set_faults (f : list (option string)) (w : World) : World :=
  {| ctl := ctl w; subs := subs w; promises := promises w;
     next_id := next_id w; timers := timers w; out := out w;
     calls := calls w; exit_code := exit_code w; faults := f;
     position := position w; players := players w |}.

Definition set_bot (b : option nat) (c : Controller) : Controller :=
  {| bot := b; connected := connected c; autoReconnect := autoReconnect c;
     lastHost := lastHost c; lastPort := lastPort c; lastVersion := lastVersion c |}.

Definition set_connected (b : bool) (c : Controller) : Controller :=
  {| bot := bot c; connected := b; autoReconnect := autoReconnect c;
     lastHost := lastHost c; lastPort := lastPort c; lastVersion := lastVersion c |}.

Definition set_autoReconnect (b : bool) (c : Controller) : Controller :=
  {| bot := bot c; connected := connected c; autoReconnect := b;
     lastHost := lastHost c; lastPort := lastPort c; lastVersion := lastVersion c |}.

Definition set_last (host : jsval string) (port : jsval Num)
  (version : jsval string) (c : Controller) : Controller :=
  {| bot := bot c; connected := connected c; autoReconnect := autoReconnect c;
     lastHost := host; lastPort := port; lastVersion := version |}.

(** The world when the program starts, for a given oracle tape. *)
Definition init (tape : list (option string)) : World :=
  {| ctl := new_controller; subs := ∅; promises := ∅; next_id := 0;
     timers := []; out := []; calls := []; exit_code := None;
     faults := tape; position := None; players := [] |}.

(** ** Computations that may throw *)

Inductive completion (A : Type) : Type :=
| Normal (a : A)
| Thrown (e : string).
Arguments Normal {A} a.
Arguments Thrown {A} e.

(** A piece of synchronous code: it runs on the world and either
    completes or throws; what it did before throwing stays done. *)
Definition M (A : Type) : Type := World -> completion A * World.

#[global] Instance M_ret : MRet M := fun A a w => (Normal a, w).
#[global] Instance M_bind : MBind M := fun A B f m w =>
  match m w with
  | (Normal a, w') => f a w'
  | (Thrown e, w') => (Thrown e, w')
  end.

Definition throw {A : Type} (e : string) : M A := fun w => (Thrown e, w).

(** [try { body } catch (e) { handler e }] *)
Definition try_catch {A : Type} (body : M A) (handler : string -> M A) : M A :=
  fun w =>
    match body w with
    | (Thrown e, w') => handler e w'
    | r => r
    end.

Definition gets {A : Type} (f : World -> A) : M A := fun w => (Normal (f w), w).
Definition modify (f : World -> World) : M unit := fun w => (Normal tt, f w).

(** A call into the agent client: it is recorded, and the head of the
    oracle tape says whether it faults; an exhausted tape means no
    fault. *)
Definition agent_call (c : AgentCall) : M unit := fun w =>
  let w := add_call c w in
  match faults w with
  | Some e :: rest => (Thrown e, set_faults rest w)
  | _ => (Normal tt, set_faults (tail (faults w)) w)
  end.

(** The next [n] calls into the agent client do not fault. *)
Fixpoint quiet (n : nat) (tape : list (option string)) : bool :=
  match n, tape with
  | 0, _ => true
  | S _, [] => true
  | S _, Some _ :: _ => false
  | S n', None :: rest => quiet n' rest
  end.

(** What an [async] function or a promise-returning call hands back:
    settled one way or the other, or waiting on the promise of a connect
    attempt.  Such a promise is never rejected after its creation (only
    its [resolve] is ever kept), so a function whose last act is to await
    it settles when, and only when, the attempt is resolved. *)
Inductive settle : Type :=
| Fulfilled
| Rejected (e : string)
| Waiting (p : nat).

#[global] Instance settle_eq_dec : EqDecision settle.
Proof. solve_decision. Defined.

Definition Async : Type := World -> settle * World.

(** The body of an [async] function: a throw becomes a rejection. *)
Definition async (body : M settle) : Async := fun w =>
  match body w with
  | (Normal r, w') => (r, w')
  | (Thrown e, w') => (Rejected e, w')
  end.

(** [await a], as the last act of its function: a rejection is thrown at
    the await. *)
Definition await (a : Async) : M settle := fun w =>
  match a w with
  | (Rejected e, w') => (Thrown e, w')
  | (r, w') => (Normal r, w')
  end.

(** A promise-returning call made from synchronous code: the promise is
    the value. *)
Definition lift (a : Async) : M settle := fun w =>
  let '(r, w') := a w in (Normal r, w').

(** ** The logger *)

(** [log(level, msg)]: the message is trimmed and printed under its tag. *)
Definition log (level : Level) (msg : string) : M unit :=
  modify (add_out (Logged level (trim msg))).

(** ** BotController *)

Definition this_bot : M (option nat) := gets (fun w => bot (ctl w)).
Definition this_connected : M bool := gets (fun w => connected (ctl w)).

(** [cleanup()] *)
Definition cleanup : M unit :=
  b ← this_bot;
  match b with
  | Some h =>
      try_catch (agent_call (RemoveAllListeners h);;
                 modify (set_subs (insert h [])))
                (fun _ => mret tt)
  | None => mret tt
  end;;
  modify (set_ctl (set_connected false));;
  modify (set_ctl (set_bot None)).

(** [tryReconnect()] *)
Definition tryReconnect : M unit :=
  c ← gets ctl;
  if autoReconnect c && truthy (lastHost c) then
    log LInfo "Attempting to reconnect...";;
    modify (set_timers (fun ts => (ts ++ [(3000%Z, Reconnect)])%list))
  else mret tt.

(** [disconnect()] *)
Definition disconnect : M unit :=
  c ← gets ctl;
  match connected c, bot c with
  | true, Some h =>
      agent_call (QuitCall h "User requested disconnect");;
      cleanup;;
      log LWarn "Bot disconnected manually."
  | _, _ => log LWarn "No bot connected."
  end.

(** [setAutoReconnect(flag)] *)
Definition setAutoReconnect (flag : bool) : M unit :=
  modify (set_ctl (set_autoReconnect flag));;
  log LInfo ("Auto-reconnect is now " +:+ (if flag then "ENABLED" else "DISABLED")).

(** [say(message)] *)
Definition say (message : string) : M unit :=
  c ← gets ctl;
  match connected c, bot c with
  | true, Some h =>
      if String.eqb message "" then log LWarn "Usage: say <message>"
      else
        try_catch (agent_call (ChatCall h (slice0 256 message)))
          (fun e =>
             if includes_str "signature" e
             then log LWarn "Chat failed due to signature, ignored."
             else log LError ("Chat failed: " +:+ e))
  | _, _ => log LWarn "Bot not connected."
  end.

(** [exit()]: [process.exit(0)] *)
Definition exit : M unit := modify (set_exit_code (Some 0%Z)).

(** Reading [bot.entity.position] throws while the entity is missing. *)
Definition read_position : M (string * string * string) :=
  p ← gets position;
  match p with
  | Some xyz => mret xyz
  | None => throw "Cannot read properties of undefined (reading 'position')"
  end.

Definition show_position (p : string * string * string) : string :=
  p.1.1 +:+ ", " +:+ p.1.2 +:+ ", " +:+ p.2.

(** [query(type)] *)
Definition query (type : jsval string) : M unit :=
  c ← gets ctl;
  match connected c, bot c with
  | true, Some h =>
      match type with
      | Val "position" =>
          p ← read_position;
          log LInfo ("Position: " +:+ show_position p)
      | Val "players" =>
          log LInfo "Players online:";;
          ps ← gets players;
          modify (fun w => foldl (fun w p => add_out (Printed ("   - " +:+ p)) w) w ps)
      | _ => log LWarn "Usage: query position | players"
      end
  | _, _ => log LWarn "Not connected."
  end.

(** [lookAt(x, y, z)].  A coordinate is [Some] rendering of the number
    when [Number.isFinite] accepts it and [None] otherwise.  The vector
    is built by [this.bot.vec3] first, then the client's [lookAt] is
    called with it; a fault of that second call stands for its throwing
    or for the rejection of its promise, both of which the [catch]
    receives.  The promise is taken to settle before anything else
    happens; a promise that never settles, which would leave [lookAt]
    waiting without a log line, is not represented. *)
Definition lookAt (x y z : option string) : Async :=
  async (
    c ← gets ctl;
    match connected c, bot c with
    | true, Some h =>
        match x, y, z with
        | Some x, Some y, Some z =>
            try_catch
              (agent_call (Vec3Call h x y z);;
               agent_call (LookAtCall h x y z);;
               log LSuccess ("Looking at " +:+ x +:+ "," +:+ y +:+ "," +:+ z))
              (fun e => log LError ("Look failed: " +:+ e));;
            mret Fulfilled
        | _, _, _ => log LWarn "Usage: lookat <x> <y> <z>";; mret Fulfilled
        end
    | _, _ => log LWarn "Not connected.";; mret Fulfilled
    end).

(** [goto(x, y, z)] *)
Definition goto (x y z : option string) : M unit :=
  c ← gets ctl;
  match connected c, bot c with
  | true, Some h =>
      match x, y, z with
      | Some x, Some y, Some z =>
          agent_call (MinecraftData h);;
          agent_call (SetMovements h);;
          agent_call (SetGoal h x y z);;
          log LInfo ("Moving to " +:+ x +:+ "," +:+ y +:+ "," +:+ z)
      | _, _, _ => log LWarn "Usage: goto <x> <y> <z>"
      end
  | _, _ => log LWarn "Not connected."
  end.

(** *** Promises of connect attempts *)

(** [resolve()] of the promise [p]: only a pending promise changes. *)
Definition resolve (p : nat) : M unit :=
  modify (set_promises (fun m =>
    match m !! p with
    | Some Pending => <[p := Resolved]> m
    | _ => m
    end)).

Definition promise_result (p : nat) (w : World) : settle :=
  match promises w !! p with
  | Some Resolved => Fulfilled
  | Some (Failed e) => Rejected e
  | _ => Waiting p
  end.

(** [new Promise((resolve) => executor)]: the executor runs at once; if it
    throws, the promise is rejected with what it threw. *)
Definition new_promise (executor : nat -> M unit) : M settle := fun w =>
  let p := next_id w in
  let w := set_next_id (S p) (set_promises (insert p Pending) w) in
  match executor p w with
  | (Normal _, w') => (Normal (promise_result p w'), w')
  | (Thrown e, w') =>
      let w'' := set_promises (fun m =>
                   match m !! p with
                   | Some Pending => <[p := Failed e]> m
                   | _ => m
                   end) w' in
      (Normal (promise_result p w''), w'')
  end.

(** The subscriptions [connect] makes on a new handle. *)
Definition listeners : list EventName :=
  [EvSpawn; EvChat; EvMessage; EvKicked; EvError; EvEnd].

Definition show_port (port : jsval Num) : string :=
  match port with
  | Val n => show n
  | Null => "null"
  | Undefined => "undefined"
  end.

Definition text_of (v : jsval string) : string :=
  match v with
  | Val s => s
  | _ => ""
  end.

(** The default of [connect]'s parameter [port]. *)
Definition port_or_default (port : jsval Num) : jsval Num :=
  match port with
  | Undefined => Val (Int 25565)
  | _ => port
  end.

(** [connect(host, port = 25565, version)].  The handle of an attempt
    carries the number of the attempt's promise. *)
Definition connect (host : jsval string) (port : jsval Num)
  (version : jsval string) : Async :=
  let port := port_or_default port in
  async (
    c ← this_connected;
    if (c : bool) then log LError "Bot already connected.";; mret Fulfilled
    else if negb (truthy host)
    then log LWarn "Usage: join <ip> [port|version] [version]";; mret Fulfilled
    else
      modify (set_ctl (set_last host port version));;
      log LInfo ("Connecting to " +:+ text_of host +:+ ":" +:+ show_port port +:+ " "
                 +:+ (if truthy version then "(v" +:+ text_of version +:+ ")" else ""));;
      new_promise (fun p =>
        agent_call (CreateBot (text_of host) port version);;
        modify (set_subs (insert p []));;
        modify (set_ctl (set_bot (Some p)));;
        modify (set_ctl (set_connected false));;
        agent_call (LoadPlugin p);;
        modify (set_subs (insert p listeners)))).

(** *** The listeners of a handle *)

(** [bot.once('spawn', ...)] of attempt [h] *)
Definition on_spawn (h : nat) : M unit :=
  modify (set_ctl (set_connected true));;
  pos ← read_position;
  log LSuccess ("Spawned at " +:+ show_position pos);;
  resolve h.

(** [bot.on('chat', ...)] *)
Definition on_chat (user : jsval string) (msg username : string) : M unit :=
  if truthy user && negb (String.eqb (text_of user) username)
  then log LChat (text_of user +:+ ": " +:+ msg)
  else mret tt.

(** [bot.on('message', ...)] *)
Definition on_message (text : string) : M unit :=
  log LEvent ("[srv msg] " +:+ collapse_ws (trim text)).

(** [bot.on('kicked', ...)] *)
Definition on_kicked (reason : string) : M unit :=
  log LError ("Kicked: " +:+ reason);;
  cleanup;;
  tryReconnect.

(** [handleError], the listener of ['error'] of attempt [h] *)
Definition handleError (h : nat) (message : string) : M unit :=
  c ← this_connected;
  (if (c : bool) then mret tt else log LError message);;
  cleanup;;
  resolve h.

(** [bot.on('end', ...)] *)
Definition on_end : M unit :=
  c ← this_connected;
  (if (c : bool) then log LWarn "Disconnected." else mret tt);;
  cleanup;;
  tryReconnect.

(** The agent client emits [ev] on handle [h]: the listener runs if it is
    still subscribed (a [once] listener is dropped before it runs), and an
    ['error'] nobody listens to is thrown by the emitter. *)
Definition emit (h : nat) (ev : Event) : M unit :=
  ls ← gets (fun w => default [] (subs w !! h));
  if bool_decide (event_name ev ∈ ls) then
    match ev with
    | Spawn =>
        modify (set_subs (insert h (filter (fun n => n ≠ EvSpawn) ls)));;
        on_spawn h
    | ChatEv user msg username => on_chat user msg username
    | Message text => on_message text
    | Kicked reason => on_kicked reason
    | ErrorEv message => handleError h message
    | End => on_end
    end
  else
    match ev with
    | ErrorEv message => throw message
    | _ => mret tt
    end.

(** ** The command registry and the dispatcher *)

(** The own properties of the object [commands]. *)
Inductive Command : Type :=
| Cjoin | Cleave | Cexit | Cclear | Csay | Cquery | Clookat | Cgoto
| Cautoreconnect | Chelp.

(** What [commands[name]] yields for a lower-cased name.  [commands] is
    an object literal, so a name it does not own is looked up on
    [Object.prototype]; of the names found there only [constructor] and
    [__proto__] are written without a capital. *)
Inductive Property : Type :=
| Own (c : Command)
| Inherited_constructor
| Inherited_proto
| Absent.

#[global] Instance Command_eq_dec : EqDecision Command.
Proof. solve_decision. Defined.
#[global] Instance Property_eq_dec : EqDecision Property.
Proof. solve_decision. Defined.

Definition command_names : list (string * Command) :=
  [("join", Cjoin); ("leave", Cleave); ("exit", Cexit); ("clear", Cclear);
   ("say", Csay); ("query", Cquery); ("lookat", Clookat); ("goto", Cgoto);
   ("autoreconnect", Cautoreconnect); ("help", Chelp)].

Fixpoint assoc (name : string) (l : list (string * Command)) : option Command :=
  match l with
  | [] => None
  | (n, c) :: l' => if String.eqb name n then Some c else assoc name l'
  end.

Definition commands_get (name : string) : Property :=
  match assoc name command_names with
  | Some c => Own c
  | None =>
      if String.eqb name "constructor" then Inherited_constructor
      else if String.eqb name "__proto__" then Inherited_proto
      else Absent
  end.

(** The port and the version [join] works out from its second and third
    tokens (the two conditionals between [let port = 25565, version] and
    the call of [connect]). *)
Definition join_port_version (args : list string) : Num * jsval string :=
  let pv :=
    if truthy (arg args 1) then
      if includes "." (text_of (arg args 1))
      then (Int 25565, arg args 1)
      else (parseInt (text_of (arg args 1)), Undefined)
    else (Int 25565, Undefined) in
  if truthy (arg args 2) then (pv.1, arg args 2) else pv.

(** [commands.join] *)
Definition cmd_join (args : list string) : Async :=
  async (
    let ip := arg args 0 in
    if negb (truthy ip)
    then log LWarn "Usage: join <ip> [port|version] [version]";; mret Fulfilled
    else
      let pv := join_port_version args in
      await (connect ip (Val pv.1) pv.2)).

(** [commands.autoreconnect] *)
Definition cmd_autoreconnect (args : list string) : M unit :=
  if negb (truthy (arg args 0))
  then log LWarn "Usage: autoreconnect true|false"
  else setAutoReconnect (String.eqb (toLowerCase (text_of (arg args 0))) "true").

(** [commands.help] *)
Definition help_lines : list string :=
  ["Available Commands:";
   "  join <ip> [port|version] [version] -> connect to a server";
   "  leave                       -> disconnect";
   "  say <message>               -> send chat message";
   "  query position | players    -> show info";
   "  lookat <x> <y> <z>          -> face a coordinate";
   "  goto <x> <y> <z>            -> walk to coords";
   "  autoreconnect true|false    -> toggle auto-reconnect";
   "  exit                        -> close this program";
   "  clear                       -> clear your console";
   "  help                        -> show this help"].

Definition cmd_help : M unit :=
  modify (fun w => foldl (fun w l => add_out (Printed l) w) w help_lines).

Section Dispatcher.

(** [Number(token)] as far as the controller looks at it: the rendering
    of the number when it is finite, nothing when it is NaN or infinite. *)
Variable Number_ : string -> option string.

(** One element of [args.map(Number)], or [undefined] past the end. *)
Definition coord (args : list string) (i : nat) : option string :=
  match args !! i with
  | Some t => Number_ t
  | None => None
  end.

(** [fn(args)] for the value found under the command name. *)
Definition call (fn : Property) (args : list string) : M settle :=
  match fn with
  | Own Cjoin => lift (cmd_join args)
  | Own Cleave => disconnect;; mret Fulfilled
  | Own Cexit => exit;; mret Fulfilled
  | Own Cclear => modify (add_out Cleared);; mret Fulfilled
  | Own Csay => say (JS.join " " args);; mret Fulfilled
  | Own Cquery => query (arg args 0);; mret Fulfilled
  | Own Clookat => lift (lookAt (coord args 0) (coord args 1) (coord args 2))
  | Own Cgoto => goto (coord args 0) (coord args 1) (coord args 2);; mret Fulfilled
  | Own Cautoreconnect => cmd_autoreconnect args;; mret Fulfilled
  | Own Chelp => cmd_help;; mret Fulfilled
  | Inherited_constructor => mret Fulfilled
  | Inherited_proto => throw "fn is not a function"
  | Absent => throw "fn is not a function"
  end.

(** [handleCommand(input)] *)
Definition handleCommand (input : string) : Async :=
  async (
    match split " " (trim input) with
    | cmd :: args =>
        if String.eqb cmd "" then mret Fulfilled
        else
          match commands_get (toLowerCase cmd) with
          | Absent => log LWarn ("Unknown command: " +:+ cmd);; mret Fulfilled
          | fn =>
              try_catch
                (r ← call fn args; await (fun w => (r, w)))
                (fun e => log LError ("Command failed: " +:+ e);; mret Fulfilled)
          end
    | [] => mret Fulfilled
    end).

(** ** The process: fault handlers and the event loop *)

(** [process.on('unhandledRejection', ...)] *)
Definition on_unhandledRejection (message : string) : M unit :=
  log LError ("Unhandled rejection: " +:+ message).

(** [process.on('uncaughtException', ...)] *)
Definition on_uncaughtException (message : string) : M unit :=
  log LError ("Uncaught exception: " +:+ message).

(** [handleGlobalError(err, origin)] of the v1.1.1 listing
    (src/unnamed/part_000), where both process-wide handlers call it; it
    is not part of [src/index.js] and is kept here for comparison. *)
Definition handleGlobalError (message origin : string) : M unit :=
  log LError ("Global error (" +:+ origin +:+ "): " +:+ message);;
  c ← this_connected;
  if (c : bool) then
    try_catch
      (log LWarn "Attempting to safely recover the bot...";;
       cleanup;;
       tryReconnect)
      (fun e => log LError ("Failed to recover bot: " +:+ e))
  else log LWarn "No bot connected, nothing to recover.".

(** What the event loop can deliver to the program. *)
Inductive Input : Type :=
| Line (line : string)
| Agent (h : nat) (ev : Event)
| TimerFires (i : nat)
| Sigint.

(** A callback run by the event loop: what it throws is an uncaught
    exception. *)
Definition run_callback (m : M unit) (w : World) : World :=
  match m w with
  | (Thrown e, w') => (on_uncaughtException e w').2
  | (Normal _, w') => w'
  end.

(** A promise nobody awaits: its rejection is an unhandled rejection. *)
Definition detached (a : Async) (w : World) : World :=
  match a w with
  | (Rejected e, w') => (on_unhandledRejection e w').2
  | (_, w') => w'
  end.

(** The callback of [setTimeout] in [tryReconnect]. *)
Definition reconnect_task : Async := fun w =>
  connect (lastHost (ctl w)) (lastPort (ctl w)) (lastVersion (ctl w)) w.

(** One turn of the event loop.  Nothing runs once the process has
    exited. *)
Definition step (i : Input) (w : World) : World :=
  match exit_code w with
  | Some _ => w
  | None =>
      match i with
      | Line line => detached (handleCommand line) w
      | Agent h ev => run_callback (emit h ev) w
      | TimerFires n =>
          match timers w !! n with
          | Some (_, Reconnect) =>
              detached reconnect_task (set_timers (delete n) w)
          | None => w
          end
      | Sigint => run_callback (disconnect;; exit) w
      end
  end.

Definition run (inputs : list Input) (w : World) : World :=
  foldl (fun w i => step i w) w inputs.

End Dispatcher.

(** ** The controller as the specification reads it *)

(** The connection state is not a field of the controller: it is read
    off the [connected] flag and the handle. *)
Inductive ConnectionState : Type :=
| Disconnected
| Connecting
| Connected.

#[global] Instance ConnectionState_eq_dec : EqDecision ConnectionState.
Proof. solve_decision. Defined.

Definition state_of (c : Controller) : ConnectionState :=
  if connected c then Connected
  else match bot c with
       | Some _ => Connecting
       | None => Disconnected
       end.

(** The last target: [lastHost], [lastPort], [lastVersion]. *)
Definition lastTarget (c : Controller) : jsval string * jsval Num * jsval string :=
  (lastHost c, lastPort c, lastVersion c).

(** The subscriptions on the handle the controller owns; there are none
    when it owns no handle.  What is left on a handle it has let go is
    read from [subs]. *)
Definition owned_subs (w : World) : list EventName :=
  match bot (ctl w) with
  | Some h => default [] (subs w !! h)
  | None => []
  end.

(** What an observer of the controller sees of the connection. *)
Definition observable (w : World) : ConnectionState * option nat * list EventName :=
  (state_of (ctl w), bot (ctl w), owned_subs w).

(** The log lines of a given level in a piece of console output. *)
Definition logged (l : Level) (o : list Output) : list string :=
  omap (fun x => match x with
                 | Logged l' m => if decide (l' = l) then Some m else None
                 | _ => None
                 end) o.

(** The texts handed to [bot.chat] in a trace of calls. *)
Definition transmitted (cs : list AgentCall) : list string :=
  omap (fun c => match c with ChatCall _ t => Some t | _ => None end) cs.

(** The line [connect] logs when it starts an attempt. *)
Definition connecting_line (host : string) (port : jsval Num)
  (version : jsval string) : Output :=
  Logged LInfo
    (trim ("Connecting to " +:+ host +:+ ":" +:+ show_port port +:+ " "
           +:+ (if truthy version then "(v" +:+ text_of version +:+ ")" else ""))).

(** The names under which [commands[name]] finds something: the ten
    commands and the two names inherited from [Object.prototype]. *)
Definition found_names : list string :=
  (map fst command_names ++ ["constructor"; "__proto__"])%list.

(** A [Number] under which no token is a finite number, for examples
    whose commands never consult it. *)
Definition Number_none : string -> option string := fun _ => None.

(** The inputs that can settle the promise of attempt [p]: the spawn and
    the error event of its handle. *)
Definition settles (p : nat) (i : Input) : bool :=
  match i with
  | Agent h Spawn => bool_decide (h = p)
  | Agent h (ErrorEv _) => bool_decide (h = p)
  | _ => false
  end.

(** The promise of attempt [p] has been made and is still pending. *)
Definition pending (p : nat) (w : World) : Prop :=
  p < next_id w /\ promises w !! p = Some Pending.

(** A piece of code that leaves it so. *)
Definition keeps_pending (p : nat) {R : Type} (m : World -> R * World) : Prop :=
  forall w : World, pending p w -> pending p (m w).2.

Definition step_keeps_pending (p : nat) (f : World -> World) : Prop :=
  forall w : World, pending p w -> pending p (f w).

(** The promise of attempt [p] is pending and neither the spawn nor the
    error listener is attached to its handle: the attempt can no longer
    be heard. *)
Definition unheard (p : nat) (w : World) : Prop :=
  pending p w
  /\ (EvSpawn ∉ default [] (subs w !! p))
  /\ (EvError ∉ default [] (subs w !! p)).

(** ** The update advisory *)

Definition currentVersion : string := "1.1.1_rc1".

(** What the fetch of the remote version gives: a response whose
    [data] is a string, is [null] or [undefined], or is some other value
    (the response decoder turns a body that reads as JSON, such as a bare
    number, into that value); or a failure with a message. *)
Inductive Body : Type :=
| TextBody (data : string)
| NullBody
| UndefinedBody
| OtherBody.

Inductive Fetch : Type :=
| Fetched (body : Body)
| FetchFailed (message : string).

(** [res.data.trim()]: only a string has the method. *)
Definition body_trim (b : Body) : M string :=
  match b with
  | TextBody data => mret (trim data)
  | NullBody => throw "Cannot read properties of null (reading 'trim')"
  | UndefinedBody => throw "Cannot read properties of undefined (reading 'trim')"
  | OtherBody => throw "res.data.trim is not a function"
  end.

(** [checkForUpdate()] for a build whose version tag is [current]. *)
Definition checkForUpdate_for (current : string) (res : Fetch) : M unit :=
  try_catch
    (match res with
     | FetchFailed e => throw e
     | Fetched body =>
         latest ← body_trim body;
         if includes_str "pr" current
         then log LWarn "You are running a pre-release build of MCCLI; bugs may occur."
         else if includes_str "_rc" current
         then log LInfo "This is a release-candidate build (_rc). Some minor issues may exist."
         else if negb (String.eqb latest current)
         then log LError ("Outdated MCCLI! Latest is v" +:+ latest
                          +:+ ". Get it from github.com/giantpreston/MCCLI")
         else log LSuccess ("Running latest version: v" +:+ current)
     end)
    (fun e => log LWarn ("Failed to check for updates: " +:+ e)).

Definition checkForUpdate (res : Fetch) : M unit :=
  checkForUpdate_for currentVersion res.

(** ** Notions used by the properties of strings *)

(** White space occurs only as single spaces. *)
Fixpoint normal_ws (s : string) : bool :=
  match s with
  | EmptyString => true
  | String c s' =>
      (if is_ws c
       then Ascii.eqb c " "
            && match s' with
               | String d _ => negb (is_ws d)
               | EmptyString => true
               end
       else true)
      && normal_ws s'
  end.

(** The units of a string that are not white space, in order. *)
Fixpoint visible (s : string) : list ascii :=
  match s with
  | EmptyString => []
  | String c s' => if is_ws c then visible s' else c :: visible s'
  end.

(** The first unit is white space. *)
Definition starts_ws (s : string) : bool :=
  match s with
  | String c _ => is_ws c
  | EmptyString => false
  end.

(** ** Invariants of the event loop *)

(** A piece of code keeps the property [I] of the world. *)
Definition preserves (I : World -> Prop) {R : Type} (m : World -> R * World) : Prop :=
  forall w : World, I w -> I (m w).2.

Definition step_preserves (I : World -> Prop) (f : World -> World) : Prop :=
  forall w : World, I w -> I (f w).

(** The value an input line gives the auto-reconnect flag, if the line is
    an [autoreconnect] command with an argument. *)
Definition sets_flag (i : Input) : option bool :=
  match i with
  | Line line =>
      match split " " (trim line) with
      | cmd :: args =>
          if String.eqb cmd "" then None
          else match commands_get (toLowerCase cmd) with
               | Own Cautoreconnect =>
                   if truthy (arg args 0)
                   then Some (String.eqb (toLowerCase (text_of (arg args 0))) "true")
                   else None
               | _ => None
               end
      | [] => None
      end
  | _ => None
  end.

(** Auto-reconnect is off and no timer is pending. *)
Definition no_reconnect_pending (w : World) : Prop :=
  autoReconnect (ctl w) = false /\ timers w = [].

(** The promise of attempt [p] has been settled as [st]. *)
Definition settled (p : nat) (st : PState) (w : World) : Prop :=
  p < next_id w /\ promises w !! p = Some st /\ st ≠ Pending.

(** ** Sample worlds *)

Definition set_position (p : option (string * string * string)) (w : World) : World :=
  {| ctl := ctl w; subs := subs w; promises := promises w;
     next_id := next_id w; timers := timers w; out := out w;
     calls := calls w; exit_code := exit_code w; faults := faults w;
     position := p; players := players w |}.

(** The program at start, with an agent whose position is known. *)
Definition world0 : World :=
  set_position (Some ("0.5", "64.0", "0.5")) (init []).

(** A first attempt is in flight. *)
Definition connecting_world : World :=
  (connect (Val "host") Undefined Undefined world0).2.

(** The first attempt has spawned. *)
Definition spawned_world : World := (emit 0 Spawn connecting_world).2.

(** The same, with auto-reconnect switched on beforehand. *)
Definition spawned_auto_world : World :=
  (emit 0 Spawn
     (connect (Val "host") Undefined Undefined
        (setAutoReconnect true world0).2).2).2.

(** * Properties *)

(** Unfolding of the monadic plumbing. *)
Ltac run_m :=
  cbv [mbind M_bind mret M_ret gets modify throw try_catch async await log
       this_connected this_bot].

Lemma bind_run {A B : Type} (m : M A) (f : A -> M B) (w : World) :
  (m ≫= f) w
  = match m w with
    | (Normal a, w') => f a w'
    | (Thrown e, w') => (Thrown e, w')
    end.
Proof. reflexivity. Qed.

Lemma bind_normal {A B : Type} (m : M A) (f : A -> M B) (w w' : World) (a : A) :
  m w = (Normal a, w') -> (m ≫= f) w = f a w'.
Proof. intros H. rewrite bind_run, H. reflexivity. Qed.

Lemma bind_thrown {A B : Type} (m : M A) (f : A -> M B) (w w' : World) (e : string) :
  m w = (Thrown e, w') -> (m ≫= f) w = (Thrown e, w').
Proof. intros H. rewrite bind_run, H. reflexivity. Qed.

(** ** Strings *)

Lemma substring0_length (n : nat) (s : string) :
  String.length (String.substring 0 n s) = Nat.min n (String.length s).
Proof.
  revert s; induction n as [|n IH]; intros [|c s]; simpl; auto.
Qed.

Lemma slice0_length (n : nat) (s : string) : String.length (slice0 n s) <= n.
Proof. unfold slice0. rewrite substring0_length. lia. Qed.

Lemma eqb_empty_false (s : string) : s ≠ "" -> String.eqb s "" = false.
Proof. intros H. apply String.eqb_neq. exact H. Qed.

Lemma truthy_Val (s : string) : s ≠ "" -> truthy (Val s) = true.
Proof. intros H. unfold truthy. rewrite eqb_empty_false; auto. Qed.

(** ** connect on a connected controller *)

(** C1 (amended). On a controller whose [connected] flag is set, [connect]
    resolves at once, leaves the whole world as it was (the last target,
    the flag and the handle included) and logs exactly one error. *)
Theorem connect_when_connected (w : World) (host : jsval string)
  (port : jsval Num) (version : jsval string) :
  connected (ctl w) = true ->
  connect host port version w
  = (Fulfilled, add_out (Logged LError "Bot already connected.") w).
Proof.
  intros Hc. unfold connect. run_m. rewrite Hc. reflexivity.
Qed.

Lemma connect_when_connected_witness :
  connected (ctl spawned_world) = true /\
  connect (Val "other") Undefined Undefined spawned_world
  = (Fulfilled, add_out (Logged LError "Bot already connected.") spawned_world).
Proof.
  split; [reflexivity | apply connect_when_connected; reflexivity].
Defined.

(** C1 (as stated, refuted). While an attempt is in flight (a handle is
    held, the flag is not yet set) a second [connect] is not turned away:
    it overwrites the last target, replaces the handle and logs no
    error. *)
Lemma connect_while_connecting_restarts :
  let w := (connect (Val "a") Undefined Undefined (init [])).2 in
  let w' := (connect (Val "b") Undefined Undefined w).2 in
  state_of (ctl w) = Connecting /\
  lastTarget (ctl w') ≠ lastTarget (ctl w) /\
  bot (ctl w') ≠ bot (ctl w) /\
  logged LError (out w') = [].
Proof.
  vm_compute. repeat split; congruence.
Qed.

(** ** The process-wide fault handlers *)

(** C3 (amended). A fault that reaches either process-wide handler is
    logged once, as an error carrying the tag of its origin, and nothing
    else happens: the controller, the calls into the agent client, the
    timers and the exit status of the process are as the faulting code
    left them. *)
Theorem fault_guard_only_logs (w : World) (e : string) :
  on_uncaughtException e w
  = (Normal tt, add_out (Logged LError (trim ("Uncaught exception: " +:+ e))) w)
  /\ on_unhandledRejection e w
     = (Normal tt, add_out (Logged LError (trim ("Unhandled rejection: " +:+ e))) w)
  /\ (forall (m : M unit) (w0 : World),
        m w0 = (Thrown e, w) ->
        run_callback m w0
        = add_out (Logged LError (trim ("Uncaught exception: " +:+ e))) w)
  /\ (forall (a : Async) (w0 : World),
        a w0 = (Rejected e, w) ->
        detached a w0
        = add_out (Logged LError (trim ("Unhandled rejection: " +:+ e))) w)
  /\ (let w' := (on_uncaughtException e w).2 in
      ctl w' = ctl w /\ calls w' = calls w /\ timers w' = timers w
      /\ exit_code w' = exit_code w).
Proof.
  repeat split.
  - intros m w0 Hm. unfold run_callback. rewrite Hm. reflexivity.
  - intros a w0 Ha. unfold detached. rewrite Ha. reflexivity.
Qed.

Lemma fault_guard_only_logs_witness :
  let w := (emit 0 (ErrorEv "late") (cleanup spawned_world).2).2 in
  run_callback (emit 0 (ErrorEv "late")) (cleanup spawned_world).2
  = add_out (Logged LError (trim ("Uncaught exception: " +:+ "late"))) w.
Proof.
  intros w.
  apply (proj1 (proj2 (proj2 (fault_guard_only_logs w "late")))).
  reflexivity.
Defined.

(** C3 (as stated, refuted). With the controller connected and
    auto-reconnect on, a fault reaching the handler leaves the controller
    connected with its handle, detaches nothing and schedules nothing;
    with the controller not connected, the handler prints its one error
    line and no warning. *)
Lemma guard_does_not_recover :
  let w := (on_uncaughtException "boom" spawned_auto_world).2 in
  state_of (ctl spawned_auto_world) = Connected /\
  autoReconnect (ctl spawned_auto_world) = true /\
  observable w = (Connected, Some 0, [EvChat; EvMessage; EvKicked; EvError; EvEnd]) /\
  calls w = calls spawned_auto_world /\
  timers w = [] /\
  logged LWarn (out (on_uncaughtException "boom" world0).2) = [].
Proof.
  vm_compute. repeat split.
Qed.

(** ** say *)

(** C5. On a connected controller (flag set, handle held) a non-empty
    message makes exactly one call of [chat], with the first 256 code
    units of the message, so with a text of length at most 256; when the
    controller is not connected or the message is empty, one warning is
    logged and the world is otherwise untouched, so nothing is
    transmitted. *)
Theorem say_transmits_at_most_256 (w : World) (message : string) :
  (forall h : nat,
     connected (ctl w) = true -> bot (ctl w) = Some h -> message ≠ "" ->
     calls (say message w).2 = (calls w ++ [ChatCall h (slice0 256 message)])%list
     /\ transmitted (calls (say message w).2)
        = (transmitted (calls w) ++ [slice0 256 message])%list
     /\ String.length (slice0 256 message) <= 256)
  /\ (connected (ctl w) = false \/ bot (ctl w) = None \/ message = "" ->
      exists m : string,
        say message w = (Normal tt, add_out (Logged LWarn m) w)
        /\ transmitted (calls (say message w).2) = transmitted (calls w)).
Proof.
  split.
  - intros h Hc Hb Hm.
    assert (Hcalls : calls (say message w).2
                     = (calls w ++ [ChatCall h (slice0 256 message)])%list).
    { unfold say. run_m. rewrite Hc, Hb, (eqb_empty_false _ Hm).
      unfold agent_call.
      destruct (faults w) as [|[e|] rest] eqn:Hf; simpl; rewrite Hf; simpl;
        try reflexivity.
      destruct (includes_str "signature" e); reflexivity. }
    split; [exact Hcalls|]. split; [|apply slice0_length].
    rewrite Hcalls. unfold transmitted. rewrite omap_app. reflexivity.
  - intros H. unfold say. run_m.
    destruct (connected (ctl w)) eqn:Hc.
    + destruct (bot (ctl w)) as [h|] eqn:Hb.
      * destruct H as [H|[H|H]]; try discriminate. subst message. simpl.
        eexists; split; reflexivity.
      * eexists; split; reflexivity.
    + destruct (bot (ctl w)); eexists; split; reflexivity.
Qed.

Lemma say_transmits_at_most_256_witness :
  calls (say "hello" spawned_world).2
  = (calls spawned_world ++ [ChatCall 0 (slice0 256 "hello")])%list
  /\ exists m : string,
       say "hello" world0 = (Normal tt, add_out (Logged LWarn m) world0).
Proof.
  split.
  - apply (proj1 (say_transmits_at_most_256 spawned_world "hello") 0);
      [reflexivity | reflexivity | discriminate].
  - destruct (proj2 (say_transmits_at_most_256 world0 "hello")) as [m [Hm _]];
      [left; reflexivity | exists m; exact Hm].
Defined.

(** ** cleanup *)

(** What [cleanup] does to the world, case by case. *)
Lemma cleanup_result (w : World) :
  exists w1 : World,
    cleanup w = (Normal tt, w1)
    /\ ctl w1 = set_bot None (set_connected false (ctl w))
    /\ promises w1 = promises w /\ next_id w1 = next_id w
    /\ timers w1 = timers w /\ out w1 = out w
    /\ exit_code w1 = exit_code w /\ position w1 = position w.
Proof.
  unfold cleanup. run_m.
  destruct (bot (ctl w)) as [h|] eqn:Hb; simpl.
  - unfold agent_call.
    destruct (faults (add_call (RemoveAllListeners h) w)) as [|[e|] rest];
      simpl; eexists; (split; [reflexivity|]); simpl; repeat split.
  - eexists; (split; [reflexivity|]); simpl; repeat split.
Qed.

(** C7 (amended). [cleanup] never throws, whatever the detaching of the
    listeners does; it leaves the controller disconnected and without a
    handle; and a second [cleanup] changes nothing at all.  When the
    detaching does not fault, the handle that was owned has no listener
    left; when it faults, the fault is swallowed and the listeners of
    every handle are as they were. *)
Theorem cleanup_idempotent (w : World) :
  exists w1 : World,
    cleanup w = (Normal tt, w1)
    /\ cleanup w1 = (Normal tt, w1)
    /\ state_of (ctl w1) = Disconnected
    /\ bot (ctl w1) = None
    /\ (forall h : nat,
          bot (ctl w) = Some h ->
          (forall e rest, faults w ≠ Some e :: rest) ->
          subs w1 = <[h := []]> (subs w))
    /\ (forall e rest, faults w = Some e :: rest -> subs w1 = subs w)
    /\ (bot (ctl w) = None -> subs w1 = subs w).
Proof.
  unfold cleanup. run_m.
  destruct w as [c sb pr ni tm o cs ex fl pos pl].
  destruct c as [b cn ar lh lp lv]. simpl.
  destruct b as [h|]; simpl.
  - unfold agent_call; simpl.
    destruct fl as [|[e|] rest]; simpl; eexists;
      (split; [reflexivity|]); simpl; (split; [reflexivity|]);
      (split; [reflexivity|]); (split; [reflexivity|]);
      (split; [|split]); try discriminate; try reflexivity.
    + intros h' [= <-] _. reflexivity.
    + intros h' _ Hf. exfalso. exact (Hf e rest eq_refl).
    + intros h' [= <-] _. reflexivity.
  - eexists. repeat split; try discriminate.
Qed.

Lemma cleanup_idempotent_witness :
  exists w1 : World,
    cleanup spawned_world = (Normal tt, w1)
    /\ cleanup w1 = (Normal tt, w1)
    /\ state_of (ctl w1) = Disconnected
    /\ bot (ctl w1) = None
    /\ subs w1 = <[0 := []]> (subs spawned_world).
Proof.
  destruct (cleanup_idempotent spawned_world) as [w1 (H1 & H2 & H3 & H4 & H5 & _)].
  exists w1. repeat split; try assumption.
  apply H5; [reflexivity | intros e rest; discriminate].
Defined.

(** C7 (as stated, refuted). When the detaching faults, [cleanup] does
    not throw and the controller is disconnected without a handle, but
    event subscriptions remain: the handle that was owned keeps its five
    listeners, and its next ['end'] is still heard and schedules a
    reconnect. *)
Lemma cleanup_fault_leaves_listeners :
  let w := set_faults [Some "detach failed"] spawned_auto_world in
  let w1 := (cleanup w).2 in
  (cleanup w).1 = Normal tt
  /\ state_of (ctl w1) = Disconnected
  /\ bot (ctl w1) = None
  /\ subs w1 !! 0 = Some [EvChat; EvMessage; EvKicked; EvError; EvEnd]
  /\ timers w1 = []
  /\ timers (emit 0 End w1).2 = [(3000%Z, Reconnect)].
Proof.
  vm_compute. repeat split.
Qed.

(** ** autoreconnect *)

(** C9. With a non-empty first argument, [autoreconnect] sets the flag,
    and sets it to true exactly when the argument lower-cases to "true";
    it logs the new setting as information and no warning.  The usage
    warning is given, and the flag left alone, exactly when the first
    argument is missing (absent, or an empty token). *)
Theorem autoreconnect_true_only (w : World) (a : string) (rest : list string) :
  (a ≠ "" ->
   let flag := String.eqb (toLowerCase a) "true" in
   cmd_autoreconnect (a :: rest) w
   = (Normal tt,
      add_out (Logged LInfo (trim ("Auto-reconnect is now "
                                   +:+ (if flag then "ENABLED" else "DISABLED"))))
        (set_ctl (set_autoReconnect flag) w))
   /\ (autoReconnect (ctl (cmd_autoreconnect (a :: rest) w).2) = true
       <-> toLowerCase a = "true"))
  /\ cmd_autoreconnect [] w
     = (Normal tt, add_out (Logged LWarn "Usage: autoreconnect true|false") w)
  /\ cmd_autoreconnect ("" :: rest) w
     = (Normal tt, add_out (Logged LWarn "Usage: autoreconnect true|false") w).
Proof.
  split; [|split; reflexivity].
  intros Ha flag.
  assert (E : cmd_autoreconnect (a :: rest) w
              = (Normal tt,
                 add_out (Logged LInfo (trim ("Auto-reconnect is now "
                            +:+ (if flag then "ENABLED" else "DISABLED"))))
                   (set_ctl (set_autoReconnect flag) w))).
  { unfold cmd_autoreconnect, arg. simpl. rewrite (eqb_empty_false _ Ha). simpl.
    unfold setAutoReconnect. run_m. reflexivity. }
  split; [exact E|]. rewrite E. simpl. unfold flag. apply String.eqb_eq.
Qed.

Lemma autoreconnect_true_only_witness :
  autoReconnect (ctl (cmd_autoreconnect ["TRUE"] world0).2) = true
  /\ autoReconnect (ctl (cmd_autoreconnect ["yes"] spawned_auto_world).2) = false.
Proof.
  split.
  - apply (proj2 (proj1 (autoreconnect_true_only world0 "TRUE" []) ltac:(discriminate))).
    reflexivity.
  - pose proof (proj1 (proj1 (autoreconnect_true_only spawned_auto_world "yes" [])
                         ltac:(discriminate))) as E.
    rewrite E. reflexivity.
Defined.

(** Arguments other than "true" in any capitalisation switch the flag
    off, without a warning. *)
Example autoreconnect_other_words :
  Forall (fun a =>
            autoReconnect (ctl (cmd_autoreconnect [a] spawned_auto_world).2) = false
            /\ logged LWarn (out (cmd_autoreconnect [a] world0).2) = [])
         ["yes"; "1"; "on"; "false"; "truee"; " true"].
Proof. repeat constructor. Qed.

(** ** What a connect attempt does *)

(** Whatever the agent client does, an attempt on a controller that is
    not connected records the target, logs one line of information,
    calls [createBot] with the target and sets no timer. *)
Lemma connect_records_target (w : World) (host : string) (port : jsval Num)
  (version : jsval string) :
  connected (ctl w) = false -> host ≠ "" ->
  let w' := (connect (Val host) port version w).2 in
  lastTarget (ctl w') = (Val host, port_or_default port, version)
  /\ out w' = (out w ++ [connecting_line host (port_or_default port) version])%list
  /\ (exists tl, calls w'
                 = (calls w ++ CreateBot host (port_or_default port) version :: tl)%list)
  /\ timers w' = timers w.
Proof.
  intros Hc Hh. unfold connect. run_m. rewrite Hc. simpl.
  rewrite (eqb_empty_false _ Hh). simpl.
  unfold new_promise, agent_call. simpl.
  destruct (faults w) as [|[e|] [|[e'|] tape]]; simpl;
    (split; [reflexivity|]); (split; [reflexivity|]);
    (split; [|reflexivity]); eexists; rewrite <- ?app_assoc; reflexivity.
Qed.

(** When neither [createBot] nor [loadPlugin] faults, the attempt is left
    waiting on a fresh promise, with a fresh handle subscribed to the six
    events. *)
Lemma connect_ok (w : World) (host : string) (port : jsval Num)
  (version : jsval string) :
  connected (ctl w) = false -> host ≠ "" -> quiet 2 (faults w) = true ->
  let p := next_id w in
  let w' := (connect (Val host) port version w).2 in
  (connect (Val host) port version w).1 = Waiting p
  /\ ctl w' = set_connected false (set_bot (Some p)
                (set_last (Val host) (port_or_default port) version (ctl w)))
  /\ subs w' = <[p := listeners]> (<[p := []]> (subs w))
  /\ promises w' = <[p := Pending]> (promises w)
  /\ next_id w' = S p
  /\ timers w' = timers w
  /\ position w' = position w
  /\ exit_code w' = exit_code w.
Proof.
  intros Hc Hh Hq. unfold connect. run_m. rewrite Hc. simpl.
  rewrite (eqb_empty_false _ Hh). simpl.
  unfold new_promise, agent_call. simpl.
  destruct (faults w) as [|[e|] [|[e'|] tape]]; simpl in *; try discriminate;
    unfold promise_result; simpl; rewrite lookup_insert_eq; repeat split.
Qed.

(** ** join: port or version *)

(** C6. [join host 1.20.1] gives version "1.20.1" and the default port;
    [join host 25566 1.20.1] gives port 25566 and version "1.20.1"; a
    second token with a "." is the version and leaves the port at 25565,
    one without is handed to [parseInt] for the port; a third token
    overrides the version whatever the second was; and [join] calls
    [connect] with the host, that port and that version, which a
    controller that is not connected records as its last target. *)
Theorem join_port_or_version (host t2 t3 : string) (rest : list string) :
  join_port_version [host; "1.20.1"] = (Int 25565, Val "1.20.1")
  /\ join_port_version [host; "25566"; "1.20.1"] = (Int 25566, Val "1.20.1")
  /\ (t2 ≠ "" -> includes "." t2 = true ->
      join_port_version [host; t2] = (Int 25565, Val t2))
  /\ (t2 ≠ "" -> includes "." t2 = false ->
      join_port_version [host; t2] = (parseInt t2, Undefined))
  /\ (t3 ≠ "" ->
      join_port_version (host :: t2 :: t3 :: rest)
      = ((join_port_version [host; t2]).1, Val t3))
  /\ (host ≠ "" ->
      forall (args : list string) (w : World),
        let pv := join_port_version (host :: args) in
        cmd_join (host :: args) w
        = async (await (connect (Val host) (Val pv.1) pv.2)) w
        /\ (connected (ctl w) = false ->
            lastTarget (ctl (cmd_join (host :: args) w).2)
            = (Val host, Val pv.1, pv.2))).
Proof.
  repeat split.
  - intros H2 Hd. unfold join_port_version, arg. simpl.
    rewrite (eqb_empty_false _ H2). simpl. rewrite Hd. reflexivity.
  - intros H2 Hd. unfold join_port_version, arg. simpl.
    rewrite (eqb_empty_false _ H2). simpl. rewrite Hd. reflexivity.
  - intros H3. unfold join_port_version, arg. simpl.
    rewrite (eqb_empty_false _ H3). simpl.
    destruct (String.eqb t2 ""); simpl; [reflexivity|].
    destruct (includes "." t2); reflexivity.
  - unfold cmd_join, arg. simpl. rewrite (eqb_empty_false _ H). reflexivity.
  - intros Hc.
    pose proof (connect_records_target w host
                  (Val (join_port_version (host :: args)).1)
                  (join_port_version (host :: args)).2 Hc H) as (HT & _).
    unfold cmd_join, arg. simpl. rewrite (eqb_empty_false _ H). simpl.
    unfold async, await.
    destruct (connect _ _ _ w) as [[|e|q] w1]; exact HT.
Qed.

Lemma join_port_or_version_witness :
  join_port_version ["host"; "1.8"] = (Int 25565, Val "1.8")
  /\ join_port_version ["host"; "2556"] = (parseInt "2556", Undefined)
  /\ join_port_version ["host"; "abc"; "1.8"; "x"]
     = ((join_port_version ["host"; "abc"]).1, Val "1.8")
  /\ lastTarget (ctl (cmd_join ["host"; "25566"; "1.20.1"] world0).2)
     = (Val "host", Val (join_port_version ["host"; "25566"; "1.20.1"]).1,
        (join_port_version ["host"; "25566"; "1.20.1"]).2).
Proof.
  pose proof (join_port_or_version "host" "1.8" "" []) as (_ & _ & H3 & _).
  pose proof (join_port_or_version "host" "2556" "" []) as (_ & _ & _ & H4 & _).
  pose proof (join_port_or_version "host" "abc" "1.8" ["x"]) as (_ & _ & _ & _ & H5 & H6).
  split; [apply H3; [discriminate | reflexivity]|].
  split; [apply H4; [discriminate | reflexivity]|].
  split; [apply H5; discriminate|].
  apply (H6 ltac:(discriminate) ["25566"; "1.20.1"] world0). reflexivity.
Defined.

(** ** join: a port that does not parse *)

(** [parseInt] finds no number in a token whose first unit is neither a
    digit, nor a sign, nor white space. *)
Lemma parseInt_NaN (c : ascii) (t : string) :
  is_digit c = false -> is_ws c = false -> c ≠ "-"%char -> c ≠ "+"%char ->
  parseInt (String c t) = NaN.
Proof.
  intros Hd Hw Hm Hp.
  destruct c as [[] [] [] [] [] [] [] []];
    try discriminate Hd; try discriminate Hw;
    try (exfalso; apply Hm; reflexivity);
    try (exfalso; apply Hp; reflexivity);
    reflexivity.
Qed.

(** C10 (amended). When the second token of [join] has no "." and begins
    with a unit that is neither a digit, nor a sign, nor white space,
    [parseInt] yields NaN; [connect] is called with that port, and a
    controller that is not connected records NaN as its last port, hands
    it to [createBot] and logs no warning. *)
Theorem join_unparsable_port_is_NaN (w : World) (host : string) (c : ascii)
  (t : string) (rest : list string) :
  connected (ctl w) = false -> host ≠ "" ->
  is_digit c = false -> is_ws c = false -> c ≠ "-"%char -> c ≠ "+"%char ->
  includes "." (String c t) = false ->
  let w' := (cmd_join (host :: String c t :: rest) w).2 in
  parseInt (String c t) = NaN
  /\ (join_port_version (host :: String c t :: rest)).1 = NaN
  /\ lastPort (ctl w') = Val NaN
  /\ (exists v tl, calls w' = (calls w ++ CreateBot host (Val NaN) v :: tl)%list)
  /\ logged LWarn (out w') = logged LWarn (out w).
Proof.
  intros Hc Hh Hd Hw Hm Hp Hdot w'.
  pose proof (parseInt_NaN c t Hd Hw Hm Hp) as HN.
  assert (Hpv : (join_port_version (host :: String c t :: rest)).1 = NaN).
  { unfold join_port_version, arg. simpl. simpl in Hdot. rewrite Hdot.
    destruct (truthy _); simpl; exact HN. }
  split; [exact HN|]. split; [exact Hpv|].
  assert (E : w' = (connect (Val host)
                      (Val (join_port_version (host :: String c t :: rest)).1)
                      (join_port_version (host :: String c t :: rest)).2 w).2).
  { unfold w', cmd_join, arg. simpl. rewrite (eqb_empty_false _ Hh). simpl.
    unfold async, await. destruct (connect _ _ _ w) as [[|e|q] w1]; reflexivity. }
  rewrite E, Hpv. clear E w'.
  destruct (connect_records_target w host (Val NaN)
              (join_port_version (host :: String c t :: rest)).2 Hc Hh)
    as (HT & Ho & (tl & Hcs) & _).
  split; [injection HT; auto|].
  split; [eexists; eexists; exact Hcs|].
  rewrite Ho. unfold logged. rewrite omap_app. simpl. apply app_nil_r.
Qed.

Lemma join_unparsable_port_is_NaN_witness :
  lastPort (ctl (cmd_join ["host"; "abc"] world0).2) = Val NaN.
Proof.
  apply (join_unparsable_port_is_NaN world0 "host" "a" "bc" []);
    (reflexivity || discriminate).
Defined.

(** C10 (as stated, refuted). The token "-5" has no "." and does not begin
    with a digit, yet it parses: the port is -5, not NaN. *)
Lemma join_signed_port_parses :
  includes "." "-5" = false /\
  (exists c t, "-5" = String c t /\ is_digit c = false) /\
  parseInt "-5" = Int (-5) /\
  lastPort (ctl (cmd_join ["host"; "-5"] world0).2) = Val (Int (-5)).
Proof.
  split; [reflexivity|]. split; [eexists; eexists; split; reflexivity|].
  split; reflexivity.
Qed.

(** ** Tokens and dispatch *)

Lemma split_not_nil (sep : ascii) (s : string) : split sep s ≠ [].
Proof.
  destruct s as [|c s]; simpl; [discriminate|].
  destruct (Ascii.eqb c sep); [discriminate|].
  destruct (split sep s); discriminate.
Qed.

(** Joining the pieces with the separator gives the string back. *)
Lemma join_split (s : string) : JS.join " " (split " " s) = s.
Proof.
  unfold JS.join. induction s as [|c s IH]; [reflexivity|].
  simpl. destruct (Ascii.eqb_spec c " ") as [->|Hc].
  - simpl. pose proof (split_not_nil " " s) as Hn.
    destruct (split " " s) as [|hd tl]; [congruence|].
    change (String " " (String.concat " " (hd :: tl)) = String " " s).
    rewrite IH. reflexivity.
  - pose proof (split_not_nil " " s) as Hn.
    destruct (split " " s) as [|hd tl]; [congruence|].
    simpl in *. destruct tl; simpl in *; rewrite <- IH; reflexivity.
Qed.

(** No piece contains the separator. *)
Lemma split_pieces (s : string) :
  Forall (fun t => includes " " t = false) (split " " s).
Proof.
  induction s as [|c s IH]; simpl; [repeat constructor|].
  destruct (Ascii.eqb c " ") eqn:Hc.
  - constructor; [reflexivity | exact IH].
  - destruct (split " " s) as [|hd tl]; [repeat constructor; simpl; now rewrite Hc|].
    inversion IH; subst. constructor; [|assumption].
    simpl. rewrite Hc. assumption.
Qed.

Lemma assoc_None (name : string) (l : list (string * Command)) :
  name ∉ map fst l -> assoc name l = None.
Proof.
  induction l as [|[n c] l IH]; simpl; [reflexivity|].
  intros Hn. destruct (String.eqb_spec name n) as [->|Hne].
  - exfalso. apply Hn. left.
  - apply IH. intros Hin. apply Hn. right. exact Hin.
Qed.

Lemma commands_get_Absent (name : string) :
  name ∉ found_names -> commands_get name = Absent.
Proof.
  intros Hn. unfold commands_get, found_names in *.
  rewrite assoc_None by (intros Hin; apply Hn, elem_of_app; left; exact Hin).
  destruct (String.eqb_spec name "constructor") as [->|H1].
  { exfalso. apply Hn, elem_of_app. right. left. }
  destruct (String.eqb_spec name "__proto__") as [->|H2].
  { exfalso. apply Hn, elem_of_app. right. right. left. }
  reflexivity.
Qed.

Section DispatchFacts.

Variable Number_ : string -> option string.

(** No input makes [handleCommand] reject. *)
Lemma handleCommand_never_rejects (input : string) (w : World) (e : string) :
  (handleCommand Number_ input w).1 ≠ Rejected e.
Proof.
  unfold handleCommand, async.
  destruct (split " " (trim input)) as [|cmd args]; [simpl; discriminate|].
  destruct (String.eqb cmd ""); [simpl; discriminate|].
  destruct (commands_get (toLowerCase cmd)) as [c| | |] eqn:Hg;
    try (run_m; simpl; discriminate);
    run_m;
    match goal with
    | |- context [call ?N ?f ?a ?w] =>
        destruct (call N f a w) as [[[|e'|q]|e'] w']; simpl; discriminate
    end.
Qed.

(** C8 (amended). The trimmed line is cut at each single space: joining
    the tokens with one space gives the trimmed line back and no token
    contains a space.  A line that trims to nothing does nothing.  The
    lower-cased first token selects the handler, which runs inside the
    dispatcher's [try]; a first token that lower-cases to none of the
    names found in the registry yields exactly one warning and nothing
    else.  No input makes the dispatcher reject.  Each of the ten
    command names finds its own handler. *)
Theorem handleCommand_dispatch (w : World) (input : string) :
  JS.join " " (split " " (trim input)) = trim input
  /\ Forall (fun t => includes " " t = false) (split " " (trim input))
  /\ (trim input = "" -> handleCommand Number_ input w = (Fulfilled, w))
  /\ (forall (cmd : string) (args : list string),
        split " " (trim input) = cmd :: args -> cmd ≠ "" ->
        (forall c : Command,
           commands_get (toLowerCase cmd) = Own c ->
           handleCommand Number_ input w
           = async (try_catch
                      (r ← call Number_ (Own c) args; await (fun w => (r, w)))
                      (fun e => log LError ("Command failed: " +:+ e);;
                                mret Fulfilled)) w)
        /\ (toLowerCase cmd ∉ found_names ->
            handleCommand Number_ input w
            = (Fulfilled,
               add_out (Logged LWarn (trim ("Unknown command: " +:+ cmd))) w)))
  /\ (forall e : string, (handleCommand Number_ input w).1 ≠ Rejected e)
  /\ Forall (fun nc => commands_get nc.1 = Own nc.2) command_names.
Proof.
  split; [apply join_split|]. split; [apply split_pieces|].
  split; [|split; [|split; [|repeat constructor]]].
  - intros Ht. unfold handleCommand. rewrite Ht. reflexivity.
  - intros cmd args Hs Hc. split.
    + intros c Hg. unfold handleCommand. rewrite Hs, (eqb_empty_false _ Hc), Hg.
      reflexivity.
    + intros Hn. unfold handleCommand.
      rewrite Hs, (eqb_empty_false _ Hc), (commands_get_Absent _ Hn).
      reflexivity.
  - intros e. apply handleCommand_never_rejects.
Qed.

End DispatchFacts.

Lemma handleCommand_dispatch_witness :
  handleCommand Number_none "   " world0 = (Fulfilled, world0)
  /\ handleCommand Number_none "Frobnicate now" world0
     = (Fulfilled,
        add_out (Logged LWarn (trim ("Unknown command: " +:+ "Frobnicate"))) world0)
  /\ handleCommand Number_none "SAY hi" spawned_world
     = async (try_catch
                (r ← call Number_none (Own Csay) ["hi"]; await (fun w => (r, w)))
                (fun e => log LError ("Command failed: " +:+ e);; mret Fulfilled))
         spawned_world.
Proof.
  split; [|split].
  - apply (handleCommand_dispatch Number_none world0 "   "). reflexivity.
  - apply (proj2 (proj1 (proj2 (proj2 (proj2
             (handleCommand_dispatch Number_none world0 "Frobnicate now"))))
             "Frobnicate" ["now"] eq_refl ltac:(discriminate))).
    vm_compute. intros H. repeat (inversion H as [|? ? ? H']; clear H; rename H' into H).
  - apply (proj1 (proj1 (proj2 (proj2 (proj2
             (handleCommand_dispatch Number_none spawned_world "SAY hi"))))
             "SAY" ["hi"] eq_refl ltac:(discriminate))).
    reflexivity.
Defined.

(** C8 (as stated, refuted). A run of two spaces is two separators with
    an empty token between them, so [join  host] finds no host and only
    warns of the usage; and a TAB separates nothing, so the whole of
    [join<TAB>host] is taken for the command name. *)
Lemma run_of_spaces_is_not_one_separator :
  split " " (trim "join  host") = ["join"; ""; "host"]
  /\ handleCommand Number_none "join  host" world0
     = (Fulfilled,
        add_out (Logged LWarn "Usage: join <ip> [port|version] [version]") world0)
  /\ handleCommand Number_none "join host" world0
     ≠ handleCommand Number_none "join  host" world0
  /\ split " " (trim (String "j" (String "o" (String "i" (String "n"
       (String (ascii_of_nat 9) "host"))))))
     = [String "j" (String "o" (String "i" (String "n"
         (String (ascii_of_nat 9) "host"))))].
Proof.
  split; [reflexivity|]. split; [reflexivity|]. split; [|reflexivity].
  intros H. apply (f_equal (fun r => calls r.2)) in H.
  vm_compute in H. discriminate H.
Qed.

(** The two names the registry inherits are not unknown to it: under
    [constructor] the dispatcher calls [Object] and prints nothing, under
    [__proto__] it fails to call an object and reports a failed
    command. *)
Example inherited_names_are_found :
  out (handleCommand Number_none "constructor" world0).2 = []
  /\ out (handleCommand Number_none "__proto__" world0).2
     = [Logged LError "Command failed: fn is not a function"].
Proof. split; reflexivity. Qed.

(** ** Events and reconnection *)

(** An event with a listener runs that listener. *)
Lemma emit_listened (h : nat) (ev : Event) (w : World) (ls : list EventName) :
  subs w !! h = Some ls -> event_name ev ∈ ls ->
  emit h ev w
  = match ev with
    | Spawn =>
        (modify (set_subs (insert h (filter (fun n => n ≠ EvSpawn) ls)));;
         on_spawn h) w
    | ChatEv user msg username => on_chat user msg username w
    | Message text => on_message text w
    | Kicked reason => on_kicked reason w
    | ErrorEv message => handleError h message w
    | End => on_end w
    end.
Proof.
  intros Hs Hin. unfold emit. run_m. rewrite Hs. simpl.
  rewrite (bool_decide_eq_true_2 _ Hin). destruct ev; reflexivity.
Qed.

(** The spawn listener sets the flag before anything can go wrong. *)
Lemma on_spawn_result (h : nat) (w : World) :
  let w' := (on_spawn h w).2 in
  ctl w' = set_connected true (ctl w)
  /\ timers w' = timers w /\ subs w' = subs w /\ next_id w' = next_id w
  /\ (position w ≠ None ->
      (on_spawn h w).1 = Normal tt
      /\ promises w' = match promises w !! h with
                       | Some Pending => <[h := Resolved]> (promises w)
                       | _ => promises w
                       end).
Proof.
  unfold on_spawn, read_position, resolve. run_m. simpl.
  destruct (position w) as [xyz|]; simpl; repeat split; congruence.
Qed.

(** [tryReconnect] sets one timer of 3000 ms, or none. *)
Lemma tryReconnect_result (w : World) :
  (tryReconnect w).1 = Normal tt
  /\ ctl (tryReconnect w).2 = ctl w
  /\ promises (tryReconnect w).2 = promises w
  /\ next_id (tryReconnect w).2 = next_id w
  /\ timers (tryReconnect w).2
     = if autoReconnect (ctl w) && truthy (lastHost (ctl w))
       then (timers w ++ [(3000%Z, Reconnect)])%list
       else timers w.
Proof.
  unfold tryReconnect. run_m.
  destruct (autoReconnect (ctl w) && truthy (lastHost (ctl w))); repeat split.
Qed.

(** The listener of ['end']: the controller is cleaned up, then
    [tryReconnect] runs on the cleaned controller. *)
Lemma on_end_result (w : World) :
  let w' := (on_end w).2 in
  (on_end w).1 = Normal tt
  /\ ctl w' = set_bot None (set_connected false (ctl w))
  /\ promises w' = promises w
  /\ next_id w' = next_id w
  /\ timers w'
     = if autoReconnect (ctl w) && truthy (lastHost (ctl w))
       then (timers w ++ [(3000%Z, Reconnect)])%list
       else timers w.
Proof.
  set (w0 := if connected (ctl w)
             then add_out (Logged LWarn (trim "Disconnected.")) w else w).
  assert (Hw0 : ctl w0 = ctl w /\ timers w0 = timers w
                /\ promises w0 = promises w /\ next_id w0 = next_id w).
  { unfold w0. destruct (connected (ctl w)); repeat split. }
  destruct Hw0 as (Hc0 & Ht0 & Hp0 & Hn0).
  destruct (cleanup_result w0) as (w1 & Hcl & Hc1 & Hp1 & Hn1 & Ht1 & _).
  assert (E : on_end w = tryReconnect w1).
  { unfold on_end.
    rewrite (bind_normal _ _ w w (connected (ctl w))) by reflexivity.
    rewrite (bind_normal _ _ w w0 tt)
      by (unfold w0; destruct (connected (ctl w)); reflexivity).
    rewrite (bind_normal _ _ w0 w1 tt) by exact Hcl.
    reflexivity. }
  pose proof (tryReconnect_result w1) as (Hr1 & Hr2 & Hr3 & Hr4 & Hr5).
  simpl. rewrite E.
  split; [exact Hr1|]. split; [congruence|]. split; [congruence|].
  split; [congruence|].
  rewrite Hr5, Hc1, Ht1, Ht0, Hc0. reflexivity.
Qed.

(** C4. Switch auto-reconnect on or off, connect successfully (neither
    [createBot] nor [loadPlugin] faults, and the spawn event arrives),
    then let the handle emit ['end'].  The controller ends disconnected
    with the target it was given; if the flag is on, exactly one timer
    has been added, of 3000 ms, and what it runs, firing in that world,
    is [connect] with that target; if the flag is off, no timer has been
    added. *)
Theorem end_schedules_one_reconnect (w : World) (host : string)
  (port : jsval Num) (version : jsval string) (flag : bool) :
  connected (ctl w) = false -> host ≠ "" -> quiet 2 (faults w) = true ->
  let p := next_id w in
  let w1 := (setAutoReconnect flag w).2 in
  let w2 := (connect (Val host) port version w1).2 in
  let w3 := (emit p Spawn w2).2 in
  let w4 := (emit p End w3).2 in
  state_of (ctl w3) = Connected
  /\ timers w3 = timers w
  /\ state_of (ctl w4) = Disconnected
  /\ lastTarget (ctl w4) = (Val host, port_or_default port, version)
  /\ timers w4 = (if flag then (timers w ++ [(3000%Z, Reconnect)])%list
                  else timers w)
  /\ reconnect_task w4 = connect (Val host) (port_or_default port) version w4.
Proof.
  intros Hc Hh Hq p w1 w2 w3 w4.
  assert (H1 : ctl w1 = set_autoReconnect flag (ctl w) /\ faults w1 = faults w
               /\ next_id w1 = next_id w /\ timers w1 = timers w).
  { unfold w1, setAutoReconnect. run_m. simpl. repeat split. }
  destruct H1 as (Hc1 & Hf1 & Hn1 & Ht1).
  assert (Hcw1 : connected (ctl w1) = false) by (rewrite Hc1; exact Hc).
  assert (Hq1 : quiet 2 (faults w1) = true) by (rewrite Hf1; exact Hq).
  destruct (connect_ok w1 host port version Hcw1 Hh Hq1)
    as (_ & Hc2 & Hs2 & _ & _ & Ht2 & _).
  rewrite Hn1 in Hs2. fold p in Hs2. fold w2 in Hc2, Hs2, Ht2.
  assert (Hl2 : subs w2 !! p = Some listeners)
    by (rewrite Hs2; apply lookup_insert_eq).
  assert (E3 : emit p Spawn w2
               = (modify (set_subs
                    (insert p (filter (fun n => n ≠ EvSpawn) listeners)));;
                  on_spawn p) w2).
  { apply (emit_listened p Spawn w2 listeners Hl2). simpl.
    unfold listeners. left. }
  rewrite (bind_normal _ _ w2 _ tt) in E3 by reflexivity.
  destruct (on_spawn_result p
              (set_subs (insert p (filter (fun n => n ≠ EvSpawn) listeners)) w2))
    as (Hc3 & Ht3 & Hs3 & _).
  rewrite <- E3 in Hc3, Ht3, Hs3. fold w3 in Hc3, Ht3, Hs3. simpl in Hc3, Ht3, Hs3.
  assert (Hl3 : subs w3 !! p = Some (filter (fun n => n ≠ EvSpawn) listeners))
    by (rewrite Hs3; apply lookup_insert_eq).
  assert (E4 : emit p End w3 = on_end w3).
  { apply (emit_listened p End w3 _ Hl3). vm_compute.
    do 4 right. left. }
  destruct (on_end_result w3) as (_ & Hc4 & _ & _ & Ht4).
  rewrite <- E4 in Hc4, Ht4. fold w4 in Hc4, Ht4.
  assert (Hctl4 : ctl w4 = set_bot None (set_connected false
                    (set_last (Val host) (port_or_default port) version
                       (set_autoReconnect flag (ctl w))))).
  { rewrite Hc4, Hc3, Hc2, Hc1. reflexivity. }
  split; [rewrite Hc3; reflexivity|].
  split; [rewrite Ht3, Ht2, Ht1; reflexivity|].
  split; [rewrite Hctl4; reflexivity|].
  split; [rewrite Hctl4; reflexivity|].
  split.
  - rewrite Ht4, Ht3, Ht2, Ht1, Hc3, Hc2, Hc1. simpl.
    rewrite (eqb_empty_false _ Hh). simpl.
    destruct flag; reflexivity.
  - unfold reconnect_task. rewrite Hctl4. reflexivity.
Qed.

Lemma end_schedules_one_reconnect_witness :
  timers (emit 0 End spawned_auto_world).2 = [(3000%Z, Reconnect)]
  /\ timers (emit 0 End
               (emit 0 Spawn
                  (connect (Val "host") Undefined Undefined
                     (setAutoReconnect false world0).2).2).2).2 = [].
Proof.
  split.
  - apply (end_schedules_one_reconnect world0 "host" Undefined Undefined true);
      (reflexivity || discriminate).
  - apply (end_schedules_one_reconnect world0 "host" Undefined Undefined false);
      (reflexivity || discriminate).
Defined.

(** ** A pending attempt stays pending *)

Section Pending.

(** The attempt under watch. *)
Variable p : nat.

Local Abbreviation Pend := (pending p).
Local Abbreviation keeps := (keeps_pending p).
Local Abbreviation keepsW := (step_keeps_pending p).

Lemma Pend_frame (w w' : World) :
  promises w' = promises w -> next_id w' = next_id w -> Pend w -> Pend w'.
Proof. unfold pending. intros -> ->. auto. Qed.

Lemma keeps_mret {A : Type} (a : A) : keeps (mret a : M A).
Proof. intros w H. exact H. Qed.

Lemma keeps_throw {A : Type} (e : string) : keeps (throw e : M A).
Proof. intros w H. exact H. Qed.

Lemma keeps_gets {A : Type} (f : World -> A) : keeps (gets f).
Proof. intros w H. exact H. Qed.

Lemma keeps_modify (f : World -> World) :
  (forall w, promises (f w) = promises w /\ next_id (f w) = next_id w) ->
  keeps (modify f).
Proof.
  intros Hf w H. simpl. destruct (Hf w) as [H1 H2].
  exact (Pend_frame w (f w) H1 H2 H).
Qed.

Lemma keeps_bind {A B : Type} (m : M A) (f : A -> M B) :
  keeps m -> (forall a, keeps (f a)) -> keeps (m ≫= f).
Proof.
  intros Hm Hf w H. rewrite bind_run. specialize (Hm w H).
  destruct (m w) as [[a|e] w']; simpl in *; [apply Hf; exact Hm | exact Hm].
Qed.

Lemma keeps_try_catch {A : Type} (body : M A) (handler : string -> M A) :
  keeps body -> (forall e, keeps (handler e)) -> keeps (try_catch body handler).
Proof.
  intros Hb Hh w H. unfold try_catch. specialize (Hb w H).
  destruct (body w) as [[a|e] w']; simpl in *; [exact Hb | apply Hh; exact Hb].
Qed.

Lemma keeps_async (body : M settle) : keeps body -> keeps (async body).
Proof.
  intros Hb w H. unfold async. specialize (Hb w H).
  destruct (body w) as [[a|e] w']; exact Hb.
Qed.

Lemma keeps_await (a : Async) : keeps a -> keeps (await a).
Proof.
  intros Ha w H. unfold await. specialize (Ha w H).
  destruct (a w) as [[|e|q] w']; exact Ha.
Qed.

Lemma keeps_lift (a : Async) : keeps a -> keeps (lift a).
Proof.
  intros Ha w H. unfold lift. specialize (Ha w H).
  destruct (a w) as [r w']; exact Ha.
Qed.

Lemma keeps_log (l : Level) (msg : string) : keeps (log l msg).
Proof. apply keeps_modify. intros w; split; reflexivity. Qed.

Lemma keeps_agent_call (c : AgentCall) : keeps (agent_call c).
Proof.
  intros w H. unfold agent_call.
  destruct (faults (add_call c w)) as [|[e|] rest]; exact H.
Qed.

Lemma keeps_resolve (q : nat) : q ≠ p -> keeps (resolve q).
Proof.
  intros Hq w [H1 H2]. unfold resolve, modify, pending. simpl. split; [exact H1|].
  destruct (promises w !! q) as [[| |e]|]; try exact H2.
  rewrite lookup_insert_ne by exact Hq. exact H2.
Qed.

Lemma keeps_new_promise (executor : nat -> M unit) :
  (forall q, keeps (executor q)) -> keeps (new_promise executor).
Proof.
  intros He w [H1 H2]. unfold new_promise.
  assert (Hne : next_id w ≠ p) by lia.
  assert (H0 : Pend (set_next_id (S (next_id w))
                       (set_promises (insert (next_id w) Pending) w))).
  { split; simpl; [lia|]. rewrite lookup_insert_ne by exact Hne. exact H2. }
  specialize (He (next_id w) _ H0).
  destruct (executor (next_id w) _) as [[a|e] w']; simpl in *; [exact He|].
  destruct He as [He1 He2]. split; simpl; [exact He1|].
  destruct (promises w' !! next_id w) as [[| |e']|]; try exact He2.
  rewrite lookup_insert_ne by exact Hne. exact He2.
Qed.

Lemma keeps_foldl_out {A : Type} (f : A -> Output) (l : list A) :
  keeps (modify (fun w => foldl (fun w x => add_out (f x) w) w l)).
Proof.
  apply keeps_modify. induction l as [|x l IH]; intros w; simpl; [auto|].
  destruct (IH (add_out (f x) w)) as [H1 H2]. rewrite H1, H2. auto.
Qed.

(** The routine part of such a proof: follow the structure of the code. *)
Ltac keeps_tac :=
  repeat first
    [ apply keeps_mret | apply keeps_throw | apply keeps_gets
    | apply keeps_log | apply keeps_agent_call
    | apply keeps_bind; [|intros ?]
    | apply keeps_try_catch; [|intros ?]
    | apply keeps_async | apply keeps_await | apply keeps_lift
    | apply keeps_new_promise; intros ?
    | apply keeps_foldl_out
    | apply keeps_modify; intros ?; split; reflexivity
    | match goal with
      | |- keeps (match ?x with _ => _ end) => destruct x
      | |- keeps (if ?x then _ else _) => destruct x
      end ].

Lemma keeps_cleanup : keeps cleanup.
Proof. unfold cleanup, this_bot. keeps_tac. Qed.

Lemma keeps_tryReconnect : keeps tryReconnect.
Proof. unfold tryReconnect. keeps_tac. Qed.

Lemma keeps_disconnect : keeps disconnect.
Proof. unfold disconnect. keeps_tac. all: try apply keeps_cleanup. Qed.

Lemma keeps_setAutoReconnect (flag : bool) : keeps (setAutoReconnect flag).
Proof. unfold setAutoReconnect. keeps_tac. Qed.

Lemma keeps_say (message : string) : keeps (say message).
Proof. unfold say. keeps_tac. Qed.

Lemma keeps_exit : keeps exit.
Proof. unfold exit. keeps_tac. Qed.

Lemma keeps_query (type : jsval string) : keeps (query type).
Proof.
  unfold query, read_position. keeps_tac.
  all: try (apply (keeps_foldl_out (fun p0 => Printed ("   - " +:+ p0)))).
Qed.

Lemma keeps_lookAt (x y z : option string) : keeps (lookAt x y z).
Proof. unfold lookAt. keeps_tac. Qed.

Lemma keeps_goto (x y z : option string) : keeps (goto x y z).
Proof. unfold goto. keeps_tac. Qed.

Lemma keeps_connect (host : jsval string) (port : jsval Num)
  (version : jsval string) : keeps (connect host port version).
Proof. unfold connect, this_connected. keeps_tac. Qed.

Lemma keeps_on_spawn (h : nat) : h ≠ p -> keeps (on_spawn h).
Proof.
  intros Hh. unfold on_spawn, read_position. keeps_tac.
  all: try (apply keeps_resolve; exact Hh).
Qed.

Lemma keeps_on_chat (user : jsval string) (msg username : string) :
  keeps (on_chat user msg username).
Proof. unfold on_chat. keeps_tac. Qed.

Lemma keeps_on_message (text : string) : keeps (on_message text).
Proof. unfold on_message. keeps_tac. Qed.

Lemma keeps_on_kicked (reason : string) : keeps (on_kicked reason).
Proof.
  unfold on_kicked. keeps_tac.
  all: try first [apply keeps_cleanup | apply keeps_tryReconnect].
Qed.

Lemma keeps_handleError (h : nat) (message : string) :
  h ≠ p -> keeps (handleError h message).
Proof.
  intros Hh. unfold handleError, this_connected. keeps_tac.
  all: try first [apply keeps_cleanup | apply keeps_resolve; exact Hh].
Qed.

Lemma keeps_on_end : keeps on_end.
Proof.
  unfold on_end, this_connected. keeps_tac.
  all: try first [apply keeps_cleanup | apply keeps_tryReconnect].
Qed.

(** An event that is not the spawn or the error of the watched handle
    leaves the promise pending. *)
Lemma keeps_emit (h : nat) (ev : Event) :
  settles p (Agent h ev) = false -> keeps (emit h ev).
Proof.
  intros Hs. unfold emit.
  apply keeps_bind; [apply keeps_gets | intros ls].
  destruct (bool_decide (event_name ev ∈ ls)).
  - destruct ev; simpl in Hs.
    + apply bool_decide_eq_false in Hs.
      apply keeps_bind; [keeps_tac | intros _; apply keeps_on_spawn; exact Hs].
    + apply keeps_on_chat.
    + apply keeps_on_message.
    + apply keeps_on_kicked.
    + apply bool_decide_eq_false in Hs. apply keeps_handleError; exact Hs.
    + apply keeps_on_end.
  - destruct ev; keeps_tac.
Qed.

Lemma keeps_cmd_join (args : list string) : keeps (cmd_join args).
Proof. unfold cmd_join. keeps_tac. all: try apply keeps_connect. Qed.

Lemma keeps_cmd_autoreconnect (args : list string) : keeps (cmd_autoreconnect args).
Proof. unfold cmd_autoreconnect. keeps_tac. all: try apply keeps_setAutoReconnect. Qed.

Lemma keeps_cmd_help : keeps cmd_help.
Proof. unfold cmd_help. apply (keeps_foldl_out Printed). Qed.

Variable Number_ : string -> option string.

Lemma keeps_call (fn : Property) (args : list string) :
  keeps (call Number_ fn args).
Proof.
  destruct fn as [[] | | |]; simpl;
    first
      [ apply keeps_lift; first [apply keeps_cmd_join | apply keeps_lookAt]
      | apply keeps_bind;
        [ first [ apply keeps_disconnect | apply keeps_exit | apply keeps_say
                | apply keeps_query | apply keeps_goto
                | apply keeps_cmd_autoreconnect | apply keeps_cmd_help
                | apply keeps_modify; intros ?; split; reflexivity ]
        | intros ?; apply keeps_mret ]
      | apply keeps_mret
      | apply keeps_throw ].
Qed.

Lemma keeps_handleCommand (input : string) : keeps (handleCommand Number_ input).
Proof.
  unfold handleCommand. apply keeps_async.
  destruct (split " " (trim input)) as [|cmd args]; [keeps_tac|].
  destruct (String.eqb cmd ""); [keeps_tac|].
  destruct (commands_get (toLowerCase cmd)) as [c| | |]; keeps_tac.
  all: try first [ apply keeps_call
                 | intros w H; exact H ].
Qed.

Lemma keepsW_run_callback (m : M unit) : keeps m -> keepsW (run_callback m).
Proof.
  intros Hm w H. unfold run_callback. specialize (Hm w H).
  destruct (m w) as [[a|e] w']; exact Hm.
Qed.

Lemma keepsW_detached (a : Async) : keeps a -> keepsW (detached a).
Proof.
  intros Ha w H. unfold detached. specialize (Ha w H).
  destruct (a w) as [[|e|q] w']; exact Ha.
Qed.

Lemma keepsW_step (i : Input) : settles p i = false -> keepsW (step Number_ i).
Proof.
  intros Hs w H. unfold step. destruct (exit_code w); [exact H|].
  destruct i as [line|h ev|n|].
  - apply keepsW_detached; [apply keeps_handleCommand | exact H].
  - apply keepsW_run_callback; [apply keeps_emit; exact Hs | exact H].
  - destruct (timers w !! n) as [[d []]|]; [|exact H].
    apply keepsW_detached.
    + intros w0 H0. unfold reconnect_task. apply keeps_connect. exact H0.
    + exact H.
  - apply keepsW_run_callback; [|exact H].
    apply keeps_bind; [apply keeps_disconnect | intros _; apply keeps_exit].
Qed.

Lemma keepsW_run (inputs : list Input) :
  forallb (fun i => negb (settles p i)) inputs = true ->
  keepsW (run Number_ inputs).
Proof.
  unfold run. induction inputs as [|i inputs IH]; intros Hall w H; [exact H|].
  simpl in *. apply andb_true_iff in Hall as [Hi Hall].
  apply IH; [exact Hall|].
  apply keepsW_step; [|exact H]. destruct (settles p i); [discriminate|reflexivity].
Qed.

End Pending.

(** The error listener of an attempt resolves its promise. *)
Lemma handleError_result (h : nat) (message : string) (w : World) :
  promises w !! h = Some Pending ->
  (handleError h message w).1 = Normal tt
  /\ promises (handleError h message w).2 !! h = Some Resolved.
Proof.
  intros Hp.
  set (w0 := if connected (ctl w) then w
             else add_out (Logged LError (trim message)) w).
  assert (Hp0 : promises w0 = promises w)
    by (unfold w0; destruct (connected (ctl w)); reflexivity).
  destruct (cleanup_result w0) as (w1 & Hcl & _ & Hp1 & _).
  assert (E : handleError h message w = resolve h w1).
  { unfold handleError.
    rewrite (bind_normal _ _ w w (connected (ctl w))) by reflexivity.
    rewrite (bind_normal _ _ w w0 tt)
      by (unfold w0; destruct (connected (ctl w)); reflexivity).
    rewrite (bind_normal _ _ w0 w1 tt) by exact Hcl.
    reflexivity. }
  rewrite E. unfold resolve, modify. simpl.
  rewrite Hp1, Hp0, Hp. split; [reflexivity | apply lookup_insert_eq].
Qed.

(** ** The fault handler of the later listing *)

(** For comparison with C3: [handleGlobalError] of v1.1.1 does recover.
    On a connected controller it cleans up and runs [tryReconnect]; on
    one that is not connected it logs that there is nothing to recover. *)
Lemma handleGlobalError_recovers (w : World) (message origin : string) :
  (connected (ctl w) = true ->
   (handleGlobalError message origin w).1 = Normal tt
   /\ ctl (handleGlobalError message origin w).2
      = set_bot None (set_connected false (ctl w))
   /\ timers (handleGlobalError message origin w).2
      = if autoReconnect (ctl w) && truthy (lastHost (ctl w))
        then (timers w ++ [(3000%Z, Reconnect)])%list
        else timers w)
  /\ (connected (ctl w) = false ->
      handleGlobalError message origin w
      = (Normal tt,
         add_out (Logged LWarn "No bot connected, nothing to recover.")
           (add_out (Logged LError
                       (trim ("Global error (" +:+ origin +:+ "): " +:+ message)))
              w))).
Proof.
  split; intros Hc.
  - set (w0 := add_out (Logged LWarn (trim "Attempting to safely recover the bot..."))
                 (add_out (Logged LError
                    (trim ("Global error (" +:+ origin +:+ "): " +:+ message))) w)).
    destruct (cleanup_result w0) as (w1 & Hcl & Hc1 & _ & _ & Ht1 & _).
    pose proof (tryReconnect_result w1) as (Hr1 & Hr2 & _ & _ & Hr5).
    assert (E : handleGlobalError message origin w = tryReconnect w1).
    { unfold handleGlobalError.
      rewrite (bind_normal _ _ w _ tt) by reflexivity.
      rewrite (bind_normal _ _ _ _ true) by (unfold this_connected, gets; simpl; rewrite Hc; reflexivity).
      unfold try_catch.
      rewrite (bind_normal _ _ _ w0 tt) by reflexivity.
      rewrite (bind_normal _ _ w0 w1 tt) by exact Hcl.
      destruct (tryReconnect w1) as [[[]|e] w2]; simpl in *; [reflexivity|discriminate]. }
    rewrite E. split; [exact Hr1|]. split; [rewrite Hr2, Hc1; reflexivity|].
    rewrite Hr5, Hc1, Ht1. reflexivity.
  - unfold handleGlobalError. run_m. simpl. rewrite Hc. reflexivity.
Qed.

(** * Further properties of the program *)

(** ** White space *)

Lemma trimStart_shape (s : string) :
  trimStart s = "" \/ exists c t, trimStart s = String c t /\ is_ws c = false.
Proof.
  induction s as [|c s IH]; simpl; [left; reflexivity|].
  destruct (is_ws c) eqn:Hc; [exact IH|]. right. eauto.
Qed.

Lemma trimEnd_idem (s : string) : trimEnd (trimEnd s) = trimEnd s.
Proof.
  induction s as [|c s IH]; simpl; [reflexivity|].
  destruct (is_ws c && String.eqb (trimEnd s) "") eqn:E; [reflexivity|].
  simpl. rewrite IH, E. reflexivity.
Qed.

(** A trimmed string is empty or begins with a unit that is not white
    space. *)
Lemma trim_shape (s : string) :
  trim s = "" \/ exists c t, trim s = String c t /\ is_ws c = false.
Proof.
  unfold trim. destruct (trimStart_shape s) as [->|(c & t & -> & Hc)].
  - left. reflexivity.
  - right. simpl. rewrite Hc. simpl. eauto.
Qed.

Lemma trimStart_trim (s : string) : trimStart (trim s) = trim s.
Proof.
  destruct (trim_shape s) as [->|(c & t & -> & Hc)]; simpl; [reflexivity|].
  rewrite Hc. reflexivity.
Qed.

(** [trim] is idempotent. *)
Lemma trim_idem (s : string) : trim (trim s) = trim s.
Proof.
  unfold trim at 1. rewrite trimStart_trim. unfold trim. apply trimEnd_idem.
Qed.

Lemma collapse_starts (s : string) : starts_ws (collapse_ws s) = starts_ws s.
Proof.
  induction s as [|c s IH]; [reflexivity|].
  simpl. destruct (is_ws c) eqn:Hc; [|simpl; exact Hc].
  destruct s as [|d s']; [reflexivity|].
  destruct (is_ws d) eqn:Hd.
  - rewrite IH. simpl. exact Hd.
  - reflexivity.
Qed.

Lemma normal_ws_space (t : string) :
  starts_ws t = false -> normal_ws t = true -> normal_ws (String " " t) = true.
Proof.
  intros Hs Hn. destruct t as [|d t]; [reflexivity|].
  simpl in Hs. change (normal_ws (String " " (String d t)))
    with (true && negb (is_ws d) && normal_ws (String d t)).
  rewrite Hs, Hn. reflexivity.
Qed.

(** X2. Replacing every run of white space by one space, as the listener
    of ['message'] does, leaves white space only as single spaces,
    keeps every other unit in its place, and changes nothing in a text
    that is already so. *)
Theorem collapse_ws_normalises (s : string) :
  normal_ws (collapse_ws s) = true
  /\ visible (collapse_ws s) = visible s
  /\ (normal_ws s = true -> collapse_ws s = s).
Proof.
  split; [|split].
  - induction s as [|c s IH]; [reflexivity|].
    simpl. destruct (is_ws c) eqn:Hc.
    + destruct s as [|d s']; [reflexivity|].
      destruct (is_ws d) eqn:Hd; [exact IH|].
      change (normal_ws (String " " (collapse_ws (String d s'))) = true).
      apply normal_ws_space; [|exact IH].
      rewrite collapse_starts. exact Hd.
    + simpl. rewrite Hc. simpl. exact IH.
  - induction s as [|c s IH]; [reflexivity|].
    simpl. destruct (is_ws c) eqn:Hc.
    + destruct s as [|d s']; [reflexivity|].
      destruct (is_ws d) eqn:Hd; [exact IH|].
      simpl. simpl in IH. rewrite Hd in IH |- *. exact IH.
    + simpl. rewrite Hc, IH. reflexivity.
  - induction s as [|c s IH]; [reflexivity|].
    simpl. destruct (is_ws c) eqn:Hc.
    + intros H. apply andb_prop in H as [H1 H2]. apply andb_prop in H1 as [Hsp Hn].
      apply Ascii.eqb_eq in Hsp. subst c.
      destruct s as [|d s']; [reflexivity|].
      apply negb_true_iff in Hn. rewrite Hn. rewrite (IH H2). reflexivity.
    + intros H. rewrite (IH H). reflexivity.
Qed.

Lemma collapse_ws_normalises_witness :
  collapse_ws "a b" = "a b".
Proof.
  apply (proj2 (proj2 (collapse_ws_normalises "a b"))). reflexivity.
Defined.

(** ** More on tokens *)

Lemma split_head_nonempty (c : ascii) (t : string) :
  is_ws c = false ->
  exists hd tl, split " " (String c t) = String c hd :: tl.
Proof.
  intros Hc. simpl.
  destruct (Ascii.eqb_spec c " ") as [->|Hne]; [discriminate Hc|].
  destruct (split " " t) as [|hd tl]; eauto.
Qed.

Section TokenFacts.

Variable Number_ : string -> option string.

(** X3. The dispatcher's silent return is taken for blank lines and for
    no others: the first token is empty exactly when the line trims to
    nothing, and then nothing at all happens. *)
Theorem blank_lines_only (input : string) (w : World) :
  (forall cmd args,
     split " " (trim input) = cmd :: args -> (cmd = "" <-> trim input = ""))
  /\ (trim input = "" -> handleCommand Number_ input w = (Fulfilled, w))
  /\ (trim input ≠ "" ->
      exists cmd args, split " " (trim input) = cmd :: args /\ cmd ≠ "").
Proof.
  assert (Hne : trim input ≠ "" ->
                exists cmd args, split " " (trim input) = cmd :: args /\ cmd ≠ "").
  { intros Ht. destruct (trim_shape input) as [E|(c & t & E & Hc)]; [congruence|].
    rewrite E. destruct (split_head_nonempty c t Hc) as (hd & tl & Hs).
    exists (String c hd), tl. split; [exact Hs | discriminate]. }
  split; [|split; [|exact Hne]].
  - intros cmd args Hs. split.
    + intros ->. destruct (string_dec (trim input) "") as [E|E]; [exact E|].
      destruct (Hne E) as (cmd & args' & Hs' & Hc). congruence.
    + intros E. rewrite E in Hs. simpl in Hs. congruence.
  - intros E. unfold handleCommand. rewrite E. reflexivity.
Qed.

End TokenFacts.

Lemma blank_lines_only_witness :
  handleCommand Number_none "  " world0 = (Fulfilled, world0)
  /\ exists cmd args, split " " (trim " help ") = cmd :: args /\ cmd ≠ "".
Proof.
  split.
  - apply (proj1 (proj2 (blank_lines_only Number_none "  " world0))). reflexivity.
  - apply (proj2 (proj2 (blank_lines_only Number_none " help " world0))). discriminate.
Defined.

(** What [say] does on a connected controller, fault or no fault. *)
Lemma say_connected (w : World) (h : nat) (message : string) :
  connected (ctl w) = true -> bot (ctl w) = Some h -> message ≠ "" ->
  (say message w).1 = Normal tt
  /\ calls (say message w).2 = (calls w ++ [ChatCall h (slice0 256 message)])%list
  /\ ctl (say message w).2 = ctl w
  /\ timers (say message w).2 = timers w
  /\ out (say message w).2
     = match faults w with
       | Some e :: _ =>
           (out w ++ [if includes_str "signature" e
                      then Logged LWarn "Chat failed due to signature, ignored."
                      else Logged LError (trim ("Chat failed: " +:+ e))])%list
       | _ => out w
       end.
Proof.
  intros Hc Hb Hm. unfold say. run_m. rewrite Hc, Hb, (eqb_empty_false _ Hm).
  unfold agent_call. simpl.
  destruct (faults w) as [|[e|] rest]; simpl; repeat split.
  all: destruct (includes_str "signature" e); repeat split.
Qed.

Lemma join_cons (x : string) (l : list string) :
  l ≠ [] -> JS.join " " (x :: l) = x +:+ " " +:+ JS.join " " l.
Proof. destruct l; [congruence | reflexivity]. Qed.

(** The first [n] units of a string, and what they leave. *)
Lemma slice0_split (n : nat) (s : string) :
  exists rest : string, s = slice0 n s +:+ rest.
Proof.
  unfold slice0. revert s. induction n as [|n IH]; intros [|c s]; simpl.
  - exists "". reflexivity.
  - exists (String c s). reflexivity.
  - exists "". reflexivity.
  - destruct (IH s) as [rest E]. exists rest.
    change (String c s = String c (substring 0 n s +:+ rest)).
    rewrite <- E. reflexivity.
Qed.

Lemma slice0_all (n : nat) (s : string) :
  String.length s <= n -> slice0 n s = s.
Proof.
  unfold slice0. revert s. induction n as [|n IH]; intros [|c s] H; simpl in *;
    try reflexivity; try lia.
  rewrite IH by lia. reflexivity.
Qed.

Section SayFacts.

Variable Number_ : string -> option string.

(** X4. What the [say] command sends is the trimmed line after the
    command name and one space, letter for letter (inner runs of spaces
    included): splitting at single spaces and joining with single spaces
    undo each other.  Exactly one text is handed to [chat]; it is the
    beginning of that message, of 256 units or of the whole length if
    that is less, so a message of at most 256 units is sent whole.  The
    command resolves whether or not the transmission faults. *)
Theorem say_sends_rest_of_line (input cmd : string) (args : list string)
  (w : World) (h : nat) :
  split " " (trim input) = cmd :: args ->
  toLowerCase cmd = "say" ->
  JS.join " " args ≠ "" ->
  connected (ctl w) = true -> bot (ctl w) = Some h ->
  trim input = cmd +:+ " " +:+ JS.join " " args
  /\ (handleCommand Number_ input w).1 = Fulfilled
  /\ (exists t rest : string,
        calls (handleCommand Number_ input w).2 = (calls w ++ [ChatCall h t])%list
        /\ JS.join " " args = t +:+ rest
        /\ String.length t = Nat.min 256 (String.length (JS.join " " args)))
  /\ (String.length (JS.join " " args) <= 256 ->
      calls (handleCommand Number_ input w).2
      = (calls w ++ [ChatCall h (JS.join " " args)])%list).
Proof.
  intros Hs Hl Hm Hc Hb.
  assert (Hargs : args ≠ []) by (intros ->; apply Hm; reflexivity).
  assert (Hcmd : cmd ≠ "") by (intros ->; discriminate Hl).
  split.
  { rewrite <- (join_split (trim input)), Hs. apply join_cons. exact Hargs. }
  destruct (say_connected w h (JS.join " " args) Hc Hb Hm) as (Hr & Hcs & _).
  assert (E : (handleCommand Number_ input w).1 = Fulfilled
              /\ calls (handleCommand Number_ input w).2
                 = (calls w ++ [ChatCall h (slice0 256 (JS.join " " args))])%list).
  { unfold handleCommand. rewrite Hs, (eqb_empty_false _ Hcmd), Hl.
    change (commands_get "say") with (Own Csay).
    unfold async, try_catch, call.
    rewrite (bind_run (say (JS.join " " args) ;; mret Fulfilled)).
    rewrite (bind_run (say (JS.join " " args))).
    destruct (say (JS.join " " args) w) as [[[]|e] w1]; simpl in *;
      [|discriminate Hr].
    split; [reflexivity | exact Hcs]. }
  destruct E as [E1 E2]. split; [exact E1|]. split.
  - destruct (slice0_split 256 (JS.join " " args)) as [rest Hrest].
    exists (slice0 256 (JS.join " " args)), rest.
    split; [exact E2|]. split; [exact Hrest|].
    unfold slice0. apply substring0_length.
  - intros Hlen. rewrite E2, (slice0_all _ _ Hlen). reflexivity.
Qed.

End SayFacts.

Lemma say_sends_rest_of_line_witness :
  calls (handleCommand Number_none "Say hello   there" spawned_world).2
  = (calls spawned_world ++ [ChatCall 0 "hello   there"])%list.
Proof.
  apply (say_sends_rest_of_line Number_none "Say hello   there" "Say"
           ["hello"; ""; ""; "there"] spawned_world 0 eq_refl eq_refl
           ltac:(discriminate) eq_refl eq_refl).
  simpl. lia.
Defined.

(** ** parseInt on tokens that begin with a digit *)

Lemma digit_val_range (c : ascii) (d : Z) :
  digit_val 10 c = Some d -> (0 <= d < 10)%Z.
Proof.
  unfold digit_val.
  repeat match goal with
         | |- context [if ?b then _ else _] => destruct b eqn:?
         end;
    intros [= <-];
    repeat match goal with
           | H : (_ && _) = true |- _ => apply andb_prop in H as [? ?]
           | H : (_ <=? _)%Z = true |- _ => apply Z.leb_le in H
           | H : (_ <? _)%Z = true |- _ => apply Z.ltb_lt in H
           end;
    lia.
Qed.

(** Once a digit has been read, reading on only makes the number larger. *)
Lemma digits_grow (t : string) (a : Z) :
  (0 <= a)%Z -> exists z, digits 10 t (Some a) = Some z /\ (a <= z)%Z.
Proof.
  revert a. induction t as [|c t IH]; intros a Ha; simpl; [eauto with lia|].
  destruct (digit_val 10 c) as [d|] eqn:Hd; [|eauto with lia].
  apply digit_val_range in Hd.
  destruct (IH (10 * a + d)%Z ltac:(lia)) as (z & Hz & Hle).
  exists z. split; [exact Hz | lia].
Qed.

(** What has been read bounds what is read in the end, by the length of
    what is left. *)
Lemma digits_bound (t : string) (a z : Z) :
  (0 <= a)%Z -> digits 10 t (Some a) = Some z ->
  (z < (a + 1) * 10 ^ Z.of_nat (String.length t))%Z.
Proof.
  revert a. induction t as [|c t IH]; intros a Ha; simpl String.length.
  - simpl. intros [= <-]. lia.
  - cbn [digits]. destruct (digit_val 10 c) as [d|] eqn:Hd.
    + apply digit_val_range in Hd. intros Hz.
      apply IH in Hz; [|simpl; lia]. simpl default in Hz.
      rewrite Nat2Z.inj_succ, Z.pow_succ_r by lia. nia.
    + intros [= <-].
      assert (0 < 10 ^ Z.of_nat (S (String.length t)))%Z by (apply Z.pow_pos_nonneg; lia).
      nia.
Qed.

(** After a first digit from 1 to 9 the radix is ten and the rest of the
    token is read on from that digit. *)
Lemma parseInt_leading_digit (c : ascii) :
  is_digit c = true -> c ≠ "0"%char ->
  exists a : Z,
    (1 <= a <= 9)%Z
    /\ forall t : string,
         parseInt (String c t)
         = match digits 10 t (Some a) with
           | Some v => if (v <=? 9007199254740992)%Z then Int v else Rounded v
           | None => NaN
           end.
Proof.
  intros Hd H0.
  destruct c as [[] [] [] [] [] [] [] []]; try discriminate Hd;
    try (exfalso; apply H0; reflexivity);
    match goal with
    | |- context [String ?ch _] =>
        let a := eval vm_compute in (Z.of_nat (code ch) - 48)%Z in
        exists a; split; [lia|]; intros t; unfold parseInt; simpl;
        change (10 * 0 + (Z.of_nat (code ch) - 48))%Z with a;
        destruct (digits 10 t (Some a)) as [v|]; [|reflexivity];
        destruct (v <=? 9007199254740992)%Z; f_equal; lia
    end.
Qed.

(** X5. A token that begins with a digit from 1 to 9 never fails to
    parse, whatever follows the digits: [parseInt] gives a positive
    number, the exact integer when that is at most 2^53 (as it is for
    every token of at most 15 units) and the double it rounds to beyond.
    [join] hands that number to [connect] as the port when the token has
    no ".", and a controller that is not connected records it, without
    any check of its range. *)
Theorem join_digit_port_parses (w : World) (host : string) (c : ascii)
  (t : string) (rest : list string) :
  is_digit c = true -> c ≠ "0"%char ->
  exists z : Z,
    (0 < z)%Z
    /\ parseInt (String c t)
       = (if (z <=? 9007199254740992)%Z then Int z else Rounded z)
    /\ (String.length t <= 14 ->
        (z < 10 ^ 15)%Z /\ parseInt (String c t) = Int z)
    /\ (includes "." (String c t) = false ->
        (join_port_version (host :: String c t :: rest)).1 = parseInt (String c t)
        /\ (host ≠ "" -> connected (ctl w) = false ->
            lastPort (ctl (cmd_join (host :: String c t :: rest) w).2)
            = Val (parseInt (String c t)))).
Proof.
  intros Hd H0.
  destruct (parseInt_leading_digit c Hd H0) as (a & Ha & Hp).
  destruct (digits_grow t a ltac:(lia)) as (z & Hz & Hle).
  assert (E : parseInt (String c t)
              = (if (z <=? 9007199254740992)%Z then Int z else Rounded z))
    by (rewrite Hp, Hz; reflexivity).
  exists z. split; [lia|]. split; [exact E|]. split.
  - intros Hlen.
    pose proof (digits_bound t a z ltac:(lia) Hz) as Hb.
    assert (Hpow : (10 ^ Z.of_nat (String.length t) <= 10 ^ 14)%Z)
      by (apply Z.pow_le_mono_r; lia).
    assert (Hz15 : (z < 10 ^ 15)%Z).
    { change (10 ^ 15)%Z with (10 * 10 ^ 14)%Z.
      assert (0 < 10 ^ Z.of_nat (String.length t))%Z
        by (apply Z.pow_pos_nonneg; lia).
      nia. }
    split; [exact Hz15|]. rewrite E.
    replace (z <=? 9007199254740992)%Z with true; [reflexivity|].
    symmetry. apply Z.leb_le. change (10 ^ 15)%Z with 1000000000000000%Z in Hz15. lia.
  - intros Hdot.
    assert (Hpv : (join_port_version (host :: String c t :: rest)).1
                  = parseInt (String c t)).
    { unfold join_port_version, arg. simpl. simpl in Hdot. rewrite Hdot.
      destruct (truthy _); reflexivity. }
    split; [exact Hpv|]. intros Hh Hc.
    assert (E2 : (cmd_join (host :: String c t :: rest) w).2
                 = (connect (Val host)
                      (Val (join_port_version (host :: String c t :: rest)).1)
                      (join_port_version (host :: String c t :: rest)).2 w).2).
    { unfold cmd_join, arg. simpl. rewrite (eqb_empty_false _ Hh). simpl.
      unfold async, await. destruct (connect _ _ _ w) as [[|e|q] w1]; reflexivity. }
    rewrite E2, Hpv.
    destruct (connect_records_target w host (Val (parseInt (String c t)))
                (join_port_version (host :: String c t :: rest)).2 Hc Hh)
      as (HT & _).
    injection HT; auto.
Qed.

Lemma join_digit_port_parses_witness :
  parseInt "25565abc" = Int 25565
  /\ lastPort (ctl (cmd_join ["host"; "25565abc"] world0).2) = Val (Int 25565)
  /\ parseInt "9007199254740993" = Rounded 9007199254740993.
Proof.
  destruct (join_digit_port_parses world0 "host" "2" "5565abc" []
              eq_refl ltac:(discriminate)) as (z & _ & _ & H3 & H4).
  destruct (H3 ltac:(simpl; lia)) as [_ E].
  destruct (H4 eq_refl) as [_ H5].
  split; [reflexivity|]. split; [|reflexivity].
  rewrite (H5 ltac:(discriminate) eq_refl). reflexivity.
Defined.

(** ** Leaving *)

(** A [cleanup] whose detaching does not fault, field by field. *)
Lemma cleanup_detaches (w : World) (h : nat) :
  bot (ctl w) = Some h -> quiet 1 (faults w) = true ->
  exists w1 : World,
    cleanup w = (Normal tt, w1)
    /\ ctl w1 = set_bot None (set_connected false (ctl w))
    /\ subs w1 = <[h := []]> (subs w)
    /\ calls w1 = (calls w ++ [RemoveAllListeners h])%list
    /\ faults w1 = tail (faults w)
    /\ timers w1 = timers w /\ out w1 = out w
    /\ promises w1 = promises w /\ next_id w1 = next_id w
    /\ exit_code w1 = exit_code w.
Proof.
  intros Hb Hq. unfold cleanup. run_m. rewrite Hb. unfold agent_call. simpl.
  destruct (faults w) as [|[e|] rest]; simpl in *; try discriminate;
    eexists; (split; [reflexivity|]); simpl; repeat split.
Qed.

(** X6. [disconnect] on a connected controller whose [quit] and detaching
    do not fault: the client is told to quit, then its listeners are
    detached; the controller ends disconnected without a handle; one
    warning confirms it.  Nothing is scheduled and nothing pending is
    cancelled (the timers are as they were), and the auto-reconnect flag
    and the last target are kept.  On a controller that is not connected
    it only warns. *)
Theorem disconnect_leaves (w : World) :
  (forall h : nat,
     connected (ctl w) = true -> bot (ctl w) = Some h ->
     quiet 2 (faults w) = true ->
     let w' := (disconnect w).2 in
     (disconnect w).1 = Normal tt
     /\ observable w' = (Disconnected, None, [])
     /\ subs w' !! h = Some []
     /\ calls w' = (calls w ++ [QuitCall h "User requested disconnect";
                                RemoveAllListeners h])%list
     /\ out w' = (out w ++ [Logged LWarn "Bot disconnected manually."])%list
     /\ timers w' = timers w
     /\ autoReconnect (ctl w') = autoReconnect (ctl w)
     /\ lastTarget (ctl w') = lastTarget (ctl w))
  /\ (connected (ctl w) = false \/ bot (ctl w) = None ->
      disconnect w = (Normal tt, add_out (Logged LWarn "No bot connected.") w)).
Proof.
  split.
  - intros h Hc Hb Hq.
    set (w0 := set_faults (tail (faults w))
                 (add_call (QuitCall h "User requested disconnect") w)).
    assert (Hquit : agent_call (QuitCall h "User requested disconnect") w
                    = (Normal tt, w0)).
    { unfold agent_call, w0. simpl.
      destruct (faults w) as [|[e|] rest]; simpl in *; try discriminate; reflexivity. }
    assert (Hq0 : quiet 1 (faults w0) = true).
    { unfold w0. simpl. destruct (faults w) as [|[e|] [|[e'|] rest]];
        simpl in *; try discriminate; reflexivity. }
    destruct (cleanup_detaches w0 h Hb Hq0)
      as (w1 & Hcl & Hc1 & Hs1 & Hcs1 & _ & Ht1 & Ho1 & _).
    assert (E : disconnect w
                = (Normal tt, add_out (Logged LWarn "Bot disconnected manually.") w1)).
    { unfold disconnect.
      rewrite (bind_normal _ _ w w (ctl w)) by reflexivity.
      rewrite Hc, Hb.
      rewrite (bind_normal _ _ w w0 tt) by exact Hquit.
      rewrite (bind_normal _ _ w0 w1 tt) by exact Hcl.
      reflexivity. }
    simpl. rewrite E. simpl.
    unfold observable, owned_subs, state_of, lastTarget. simpl.
    rewrite Hc1, Hs1, Hcs1, Ho1, Ht1. simpl.
    rewrite lookup_insert_eq, <- app_assoc. repeat split.
  - intros H. unfold disconnect. run_m.
    destruct (connected (ctl w)) eqn:Hc; [|destruct (bot (ctl w)); reflexivity].
    destruct H as [H|H]; [discriminate|]. rewrite H. reflexivity.
Qed.

Lemma disconnect_leaves_witness :
  observable (disconnect spawned_auto_world).2 = (Disconnected, None, [])
  /\ timers (disconnect spawned_auto_world).2 = timers spawned_auto_world
  /\ disconnect world0 = (Normal tt, add_out (Logged LWarn "No bot connected.") world0).
Proof.
  destruct (proj1 (disconnect_leaves spawned_auto_world) 0 eq_refl eq_refl eq_refl)
    as (_ & H2 & _ & _ & _ & H6 & _).
  split; [exact H2|]. split; [exact H6|].
  apply (proj2 (disconnect_leaves world0)). left. reflexivity.
Defined.

Section LeaveFacts.

Variable Number_ : string -> option string.

(** X7. When the client's [quit] throws, [disconnect] throws with it
    before any cleanup: the controller stays connected with its handle
    and its listeners.  Entered as [leave], the fault is caught by the
    dispatcher and reported as a failed command. *)
Theorem leave_with_failing_quit (w : World) (h : nat) (e : string)
  (rest : list (option string)) (input cmd : string) :
  connected (ctl w) = true -> bot (ctl w) = Some h ->
  faults w = Some e :: rest ->
  split " " (trim input) = [cmd] -> toLowerCase cmd = "leave" ->
  (disconnect w).1 = Thrown e
  /\ ctl (disconnect w).2 = ctl w
  /\ subs (disconnect w).2 = subs w
  /\ handleCommand Number_ input w
     = (Fulfilled,
        add_out (Logged LError (trim ("Command failed: " +:+ e)))
          (disconnect w).2)
  /\ state_of (ctl (handleCommand Number_ input w).2) = Connected.
Proof.
  intros Hc Hb Hf Hs Hl.
  assert (Hcmd : cmd ≠ "") by (intros ->; discriminate Hl).
  assert (E : disconnect w
              = (Thrown e, set_faults rest
                             (add_call (QuitCall h "User requested disconnect") w))).
  { unfold disconnect. run_m. rewrite Hc, Hb. unfold agent_call. simpl.
    rewrite Hf. reflexivity. }
  assert (H4 : handleCommand Number_ input w
               = (Fulfilled,
                  add_out (Logged LError (trim ("Command failed: " +:+ e)))
                    (disconnect w).2)).
  { unfold handleCommand. rewrite Hs, (eqb_empty_false _ Hcmd), Hl.
    change (commands_get "leave") with (Own Cleave).
    unfold async, try_catch, call.
    rewrite (bind_run (disconnect ;; mret Fulfilled)).
    rewrite (bind_run disconnect). rewrite E. reflexivity. }
  rewrite H4, E. simpl. unfold state_of. rewrite Hc. repeat split.
Qed.

End LeaveFacts.

Lemma leave_with_failing_quit_witness :
  state_of (ctl (handleCommand Number_none "leave"
                   (set_faults [Some "socket closed"] spawned_world)).2)
  = Connected.
Proof.
  apply (leave_with_failing_quit Number_none
           (set_faults [Some "socket closed"] spawned_world) 0
           "socket closed" [] "leave" "leave"); reflexivity.
Defined.

(** ** More on events *)

(** An event nobody listens to: nothing happens, unless it is ['error'],
    which the emitter throws. *)
Lemma emit_unlistened (h : nat) (ev : Event) (w : World) :
  event_name ev ∉ default [] (subs w !! h) ->
  emit h ev w
  = match ev with
    | ErrorEv message => (Thrown message, w)
    | _ => (Normal tt, w)
    end.
Proof.
  intros Hn. unfold emit. run_m. simpl.
  rewrite (bool_decide_eq_false_2 _ Hn). destruct ev; reflexivity.
Qed.

(** X8. The spawn listener is a [once] listener: the first spawn event of
    a handle sets the flag, and a second one on the same handle finds no
    listener and changes nothing. *)
Theorem spawn_fires_once (h : nat) (w : World) (ls : list EventName) :
  subs w !! h = Some ls -> EvSpawn ∈ ls ->
  let w1 := (emit h Spawn w).2 in
  connected (ctl w1) = true
  /\ subs w1 !! h = Some (filter (fun n => n ≠ EvSpawn) ls)
  /\ emit h Spawn w1 = (Normal tt, w1).
Proof.
  intros Hs Hin w1.
  assert (E : emit h Spawn w
              = on_spawn h (set_subs (insert h (filter (fun n => n ≠ EvSpawn) ls)) w)).
  { rewrite (emit_listened h Spawn w ls Hs Hin).
    rewrite (bind_normal _ _ w _ tt) by reflexivity. reflexivity. }
  destruct (on_spawn_result h
              (set_subs (insert h (filter (fun n => n ≠ EvSpawn) ls)) w))
    as (Hc & _ & Hsub & _).
  rewrite <- E in Hc, Hsub. fold w1 in Hc, Hsub. simpl in Hc, Hsub.
  assert (Hl : subs w1 !! h = Some (filter (fun n => n ≠ EvSpawn) ls))
    by (rewrite Hsub; apply lookup_insert_eq).
  split; [rewrite Hc; reflexivity|]. split; [exact Hl|].
  rewrite (emit_unlistened h Spawn w1); [reflexivity|].
  rewrite Hl. simpl. intros Hin'.
  apply list_elem_of_filter in Hin' as [Hne _]. apply Hne. reflexivity.
Qed.

Lemma spawn_fires_once_witness :
  emit 0 Spawn spawned_world = (Normal tt, spawned_world).
Proof.
  apply (spawn_fires_once 0 connecting_world listeners eq_refl).
  unfold listeners. left.
Defined.

(** What the listener of ['kicked'] does when the detaching does not
    fault. *)
Lemma on_kicked_result (w : World) (h : nat) (reason : string) :
  bot (ctl w) = Some h -> quiet 1 (faults w) = true ->
  let w' := (on_kicked reason w).2 in
  (on_kicked reason w).1 = Normal tt
  /\ ctl w' = set_bot None (set_connected false (ctl w))
  /\ subs w' = <[h := []]> (subs w)
  /\ timers w'
     = (if autoReconnect (ctl w) && truthy (lastHost (ctl w))
        then (timers w ++ [(3000%Z, Reconnect)])%list
        else timers w)
  /\ logged LError (out w') = (logged LError (out w) ++ [trim ("Kicked: " +:+ reason)])%list.
Proof.
  intros Hb Hq.
  set (w0 := add_out (Logged LError (trim ("Kicked: " +:+ reason))) w).
  destruct (cleanup_detaches w0 h Hb Hq)
    as (w1 & Hcl & Hc1 & Hs1 & _ & _ & Ht1 & Ho1 & _).
  assert (E : on_kicked reason w = tryReconnect w1).
  { unfold on_kicked.
    rewrite (bind_normal _ _ w w0 tt) by reflexivity.
    rewrite (bind_normal _ _ w0 w1 tt) by exact Hcl. reflexivity. }
  simpl. rewrite E. unfold tryReconnect. run_m. rewrite Hc1. simpl.
  destruct (autoReconnect (ctl w) && truthy (lastHost (ctl w))); simpl;
    rewrite ?Hc1, ?Hs1, ?Ht1, ?Ho1; unfold w0; simpl;
    unfold logged; rewrite !omap_app; simpl; rewrite ?app_nil_r; repeat split.
Qed.

(** X9. A kick on the owned handle, its detaching not faulting: the
    reason is logged as an error, the controller ends disconnected, and
    one reconnect timer is set if auto-reconnect is on and a last host is
    known, none otherwise.  The handle is left without listeners, so the
    ['end'] that follows a kick (like any later event of that handle
    other than ['error']) changes nothing: a kick schedules one
    reconnect, not two. *)
Theorem kick_then_end_reconnects_once (w : World) (h : nat)
  (ls : list EventName) (reason : string) (ev : Event) :
  subs w !! h = Some ls -> EvKicked ∈ ls ->
  bot (ctl w) = Some h -> quiet 1 (faults w) = true ->
  event_name ev ≠ EvError ->
  let w1 := (emit h (Kicked reason) w).2 in
  state_of (ctl w1) = Disconnected
  /\ timers w1
     = (if autoReconnect (ctl w) && truthy (lastHost (ctl w))
        then (timers w ++ [(3000%Z, Reconnect)])%list
        else timers w)
  /\ emit h ev w1 = (Normal tt, w1)
  /\ timers (emit h End w1).2 = timers w1.
Proof.
  intros Hs Hin Hb Hq Hev w1.
  destruct (on_kicked_result w h reason Hb Hq) as (_ & Hc1 & Hs1 & Ht1 & _).
  assert (E : emit h (Kicked reason) w = on_kicked reason w)
    by (apply (emit_listened h (Kicked reason) w ls Hs Hin)).
  rewrite <- E in Hc1, Hs1, Ht1. fold w1 in Hc1, Hs1, Ht1.
  assert (Hno : forall ev', emit h ev' w1
                            = match ev' with
                              | ErrorEv message => (Thrown message, w1)
                              | _ => (Normal tt, w1)
                              end).
  { intros ev'. apply emit_unlistened. rewrite Hs1, lookup_insert_eq. simpl.
    apply not_elem_of_nil. }
  split; [rewrite Hc1; reflexivity|]. split; [exact Ht1|]. split.
  - rewrite Hno. destruct ev; try reflexivity. exfalso. apply Hev. reflexivity.
  - rewrite Hno. reflexivity.
Qed.

Lemma kick_then_end_reconnects_once_witness :
  timers (emit 0 End (emit 0 (Kicked "banned") spawned_auto_world).2).2
  = timers (emit 0 (Kicked "banned") spawned_auto_world).2
  /\ timers (emit 0 (Kicked "banned") spawned_auto_world).2 = [(3000%Z, Reconnect)].
Proof.
  destruct (kick_then_end_reconnects_once spawned_auto_world 0
              [EvChat; EvMessage; EvKicked; EvError; EvEnd] "banned" End
              eq_refl ltac:(do 2 right; left) eq_refl eq_refl ltac:(discriminate))
    as (_ & H2 & _ & H4).
  split; [exact H4 | exact H2].
Defined.

(** X10. The listener of ['error'] never schedules a reconnect, whatever
    the auto-reconnect flag: it logs the error if the controller is not
    yet connected (and nothing if it is), cleans up, and resolves the
    promise of its attempt if that is still pending. *)
Theorem error_event_never_reconnects (w : World) (h : nat)
  (ls : list EventName) (message : string) :
  subs w !! h = Some ls -> EvError ∈ ls ->
  let w1 := (emit h (ErrorEv message) w).2 in
  (emit h (ErrorEv message) w).1 = Normal tt
  /\ timers w1 = timers w
  /\ ctl w1 = set_bot None (set_connected false (ctl w))
  /\ out w1 = (if connected (ctl w) then out w
               else (out w ++ [Logged LError (trim message)])%list)
  /\ promises w1 = match promises w !! h with
                   | Some Pending => <[h := Resolved]> (promises w)
                   | _ => promises w
                   end.
Proof.
  intros Hs Hin w1.
  set (w0 := if connected (ctl w) then w
             else add_out (Logged LError (trim message)) w).
  assert (H0 : ctl w0 = ctl w /\ promises w0 = promises w /\ timers w0 = timers w
               /\ out w0 = (if connected (ctl w) then out w
                            else (out w ++ [Logged LError (trim message)])%list)).
  { unfold w0. destruct (connected (ctl w)); repeat split. }
  destruct H0 as (Hc0 & Hp0 & Ht0 & Ho0).
  destruct (cleanup_result w0) as (wc & Hcl & Hcc & Hpc & _ & Htc & Hoc & _).
  assert (E : emit h (ErrorEv message) w = resolve h wc).
  { rewrite (emit_listened h (ErrorEv message) w ls Hs Hin).
    unfold handleError.
    rewrite (bind_normal _ _ w w (connected (ctl w))) by reflexivity.
    rewrite (bind_normal _ _ w w0 tt)
      by (unfold w0; destruct (connected (ctl w)); reflexivity).
    rewrite (bind_normal _ _ w0 wc tt) by exact Hcl.
    reflexivity. }
  unfold w1. rewrite E. unfold resolve, modify. simpl.
  rewrite Htc, Ht0, Hcc, Hc0, Hoc, Ho0, Hpc, Hp0. repeat split.
Qed.

Lemma error_event_never_reconnects_witness :
  timers (emit 0 (ErrorEv "ECONNRESET") spawned_auto_world).2
  = timers spawned_auto_world.
Proof.
  apply (error_event_never_reconnects spawned_auto_world 0
           [EvChat; EvMessage; EvKicked; EvError; EvEnd] "ECONNRESET" eq_refl).
  do 3 right. left.
Defined.

(** ** The event loop *)

Section LoopFacts.

Variable Number_ : string -> option string.

(** X11. [exit] is final.  The command sets the exit status to 0 and
    touches nothing else, connected or not (the client is not told to
    quit); and once the process has exited no input changes the world any
    more. *)
Theorem exit_is_final (w : World) (input cmd : string) (args : list string)
  (inputs : list Input) :
  (exit_code w = None ->
   split " " (trim input) = cmd :: args -> toLowerCase cmd = "exit" ->
   step Number_ (Line input) w = set_exit_code (Some 0%Z) w)
  /\ (exit_code w ≠ None -> run Number_ inputs w = w).
Proof.
  split.
  - intros He Hs Hl.
    assert (Hcmd : cmd ≠ "") by (intros ->; discriminate Hl).
    unfold step. rewrite He. unfold detached, handleCommand.
    rewrite Hs, (eqb_empty_false _ Hcmd), Hl. reflexivity.
  - intros He. unfold run. induction inputs as [|i inputs IH]; [reflexivity|].
    simpl. assert (E : step Number_ i w = w).
    { unfold step. destruct (exit_code w); [reflexivity|congruence]. }
    rewrite E. exact IH.
Qed.

(** X12. An interrupt from the keyboard.  With no bot connected it warns
    and exits with status 0; with a bot connected whose [quit] does not
    fault it disconnects and exits with status 0; but if [quit] throws,
    [process.exit] is never reached: the fault goes to the handler of
    uncaught exceptions and the process lives on, still connected. *)
Theorem sigint_exits_unless_quit_throws (w : World) :
  exit_code w = None ->
  (connected (ctl w) = false \/ bot (ctl w) = None ->
   step Number_ Sigint w
   = set_exit_code (Some 0%Z) (add_out (Logged LWarn "No bot connected.") w))
  /\ (forall h, connected (ctl w) = true -> bot (ctl w) = Some h ->
        quiet 1 (faults w) = true ->
        exit_code (step Number_ Sigint w) = Some 0%Z
        /\ state_of (ctl (step Number_ Sigint w)) = Disconnected)
  /\ (forall h e rest, connected (ctl w) = true -> bot (ctl w) = Some h ->
        faults w = Some e :: rest ->
        exit_code (step Number_ Sigint w) = None
        /\ state_of (ctl (step Number_ Sigint w)) = Connected
        /\ logged LError (out (step Number_ Sigint w))
           = (logged LError (out w) ++ [trim ("Uncaught exception: " +:+ e)])%list).
Proof.
  intros He. split; [|split].
  - intros H. unfold step. rewrite He. unfold run_callback.
    rewrite (bind_run disconnect).
    assert (E : disconnect w
                = (Normal tt, add_out (Logged LWarn "No bot connected.") w)).
    { unfold disconnect. run_m.
      destruct (connected (ctl w)) eqn:Hc; [|destruct (bot (ctl w)); reflexivity].
      destruct H as [H|H]; [discriminate|]. rewrite H. reflexivity. }
    rewrite E. reflexivity.
  - intros h Hc Hb Hq. unfold step. rewrite He. unfold run_callback.
    rewrite (bind_run disconnect).
    set (w0 := set_faults (tail (faults w))
                 (add_call (QuitCall h "User requested disconnect") w)).
    assert (Hquit : agent_call (QuitCall h "User requested disconnect") w
                    = (Normal tt, w0)).
    { unfold agent_call, w0. simpl.
      destruct (faults w) as [|[e|] rest]; simpl in *; try discriminate; reflexivity. }
    destruct (cleanup_result w0) as (w1 & Hcl & Hc1 & _).
    assert (E : disconnect w
                = (Normal tt, add_out (Logged LWarn "Bot disconnected manually.") w1)).
    { unfold disconnect.
      rewrite (bind_normal _ _ w w (ctl w)) by reflexivity.
      rewrite Hc, Hb.
      rewrite (bind_normal _ _ w w0 tt) by exact Hquit.
      rewrite (bind_normal _ _ w0 w1 tt) by exact Hcl.
      reflexivity. }
    rewrite E. simpl. rewrite Hc1. split; reflexivity.
  - intros h e rest Hc Hb Hf. unfold step. rewrite He. unfold run_callback.
    rewrite (bind_run disconnect).
    assert (E : disconnect w
                = (Thrown e, set_faults rest
                               (add_call (QuitCall h "User requested disconnect") w))).
    { unfold disconnect. run_m. rewrite Hc, Hb. unfold agent_call. simpl.
      rewrite Hf. reflexivity. }
    rewrite E. simpl. unfold state_of. rewrite Hc, He.
    unfold logged. rewrite omap_app. simpl. repeat split.
Qed.

(** X13. A reconnect timer that fires is taken off the list and calls
    [connect] with the last target as it is then.  If the controller has
    become connected in the meantime, the call only logs the error and
    no new handle is made; a timer that does not exist changes
    nothing. *)
Theorem reconnect_timer_fires (w : World) (n : nat) (t : Z * Task) :
  exit_code w = None ->
  (timers w !! n = Some t ->
   step Number_ (TimerFires n) w
   = detached (connect (lastHost (ctl w)) (lastPort (ctl w)) (lastVersion (ctl w)))
       (set_timers (delete n) w)
   /\ (connected (ctl w) = true ->
       step Number_ (TimerFires n) w
       = add_out (Logged LError "Bot already connected.")
           (set_timers (delete n) w)))
  /\ (timers w !! n = None -> step Number_ (TimerFires n) w = w).
Proof.
  intros He. split.
  - intros Ht. unfold step. rewrite He, Ht. destruct t as [d []].
    split; [reflexivity|].
    intros Hc. unfold detached, reconnect_task, connect. run_m. simpl.
    rewrite Hc. reflexivity.
  - intros Ht. unfold step. rewrite He, Ht. reflexivity.
Qed.

(** X14. A manual [disconnect] does not cancel a reconnect that is
    already scheduled: when its timer fires afterwards, [connect] is
    called with the last target and the client is asked for a new bot. *)
Theorem leave_does_not_cancel_reconnect (w : World) (h n : nat) (t : Z * Task)
  (host : string) :
  exit_code w = None ->
  connected (ctl w) = true -> bot (ctl w) = Some h ->
  quiet 2 (faults w) = true ->
  timers w !! n = Some t ->
  lastHost (ctl w) = Val host -> host ≠ "" ->
  let w1 := (disconnect w).2 in
  let w2 := step Number_ (TimerFires n) w1 in
  timers w1 !! n = Some t
  /\ timers w2 = delete n (timers w)
  /\ exists tl,
       calls w2
       = (calls w1 ++ CreateBot host (port_or_default (lastPort (ctl w)))
                        (lastVersion (ctl w)) :: tl)%list.
Proof.
  intros He Hc Hb Hq Ht Hh Hne w1 w2.
  set (w0 := set_faults (tail (faults w))
               (add_call (QuitCall h "User requested disconnect") w)).
  assert (Hquit : agent_call (QuitCall h "User requested disconnect") w
                  = (Normal tt, w0)).
  { unfold agent_call, w0. simpl.
    destruct (faults w) as [|[e|] rest]; simpl in *; try discriminate; reflexivity. }
  destruct (cleanup_result w0) as (wc & Hcl & Hcc & _ & _ & Htc & _ & Hec & _).
  assert (E : disconnect w
              = (Normal tt, add_out (Logged LWarn "Bot disconnected manually.") wc)).
  { unfold disconnect.
    rewrite (bind_normal _ _ w w (ctl w)) by reflexivity.
    rewrite Hc, Hb.
    rewrite (bind_normal _ _ w w0 tt) by exact Hquit.
    rewrite (bind_normal _ _ w0 wc tt) by exact Hcl.
    reflexivity. }
  assert (H1 : ctl w1 = set_bot None (set_connected false (ctl w))
               /\ timers w1 = timers w /\ exit_code w1 = None).
  { unfold w1. rewrite E. simpl. rewrite Hcc, Htc, Hec. repeat split. exact He. }
  destruct H1 as (Hc1 & Ht1 & He1). clearbody w1.
  split; [rewrite Ht1; exact Ht|].
  assert (E2 : w2 = detached (connect (Val host) (lastPort (ctl w)) (lastVersion (ctl w)))
                      (set_timers (delete n) w1)).
  { unfold w2, step. rewrite He1, Ht1, Ht. destruct t as [d []].
    unfold detached, reconnect_task.
    change (ctl (set_timers (delete n) w1)) with (ctl w1).
    rewrite Hc1. simpl. rewrite Hh. reflexivity. }
  assert (Hcn : connected (ctl (set_timers (delete n) w1)) = false)
    by (simpl; rewrite Hc1; reflexivity).
  destruct (connect_records_target (set_timers (delete n) w1) host
              (lastPort (ctl w)) (lastVersion (ctl w)) Hcn Hne)
    as (_ & _ & (tl & Hcalls) & Htm).
  simpl in Hcalls, Htm. rewrite E2. unfold detached.
  destruct (connect (Val host) (lastPort (ctl w)) (lastVersion (ctl w))
              (set_timers (delete n) w1)) as [[|e|q] w3]; simpl in *;
    rewrite Htm, Ht1; (split; [reflexivity|]);
    eexists; rewrite Hcalls; reflexivity.
Qed.

End LoopFacts.

Lemma exit_is_final_witness :
  step Number_none (Line "EXIT now") spawned_world
  = set_exit_code (Some 0%Z) spawned_world
  /\ run Number_none [Line "say hi"; Agent 0 End; Sigint]
       (set_exit_code (Some 0%Z) spawned_world)
     = set_exit_code (Some 0%Z) spawned_world.
Proof.
  split.
  - apply (proj1 (exit_is_final Number_none spawned_world "EXIT now" "EXIT" ["now"] []));
      reflexivity.
  - apply (proj2 (exit_is_final Number_none (set_exit_code (Some 0%Z) spawned_world)
                    "" "" [] [Line "say hi"; Agent 0 End; Sigint])).
    discriminate.
Defined.

Lemma sigint_exits_unless_quit_throws_witness :
  exit_code (step Number_none Sigint spawned_world) = Some 0%Z
  /\ exit_code (step Number_none Sigint
                  (set_faults [Some "socket closed"] spawned_world)) = None
  /\ exit_code (step Number_none Sigint world0) = Some 0%Z.
Proof.
  destruct (sigint_exits_unless_quit_throws Number_none spawned_world eq_refl)
    as (_ & H2 & _).
  destruct (sigint_exits_unless_quit_throws Number_none
              (set_faults [Some "socket closed"] spawned_world) eq_refl)
    as (_ & _ & H3).
  destruct (sigint_exits_unless_quit_throws Number_none world0 eq_refl)
    as (H1 & _).
  split; [apply (H2 0); reflexivity|].
  split; [apply (H3 0 "socket closed" []); reflexivity|].
  rewrite H1; [reflexivity | left; reflexivity].
Defined.

Lemma reconnect_timer_fires_witness :
  step Number_none (TimerFires 0)
    (set_timers (fun _ => [(3000%Z, Reconnect)]) spawned_world)
  = add_out (Logged LError "Bot already connected.")
      (set_timers (delete 0) (set_timers (fun _ => [(3000%Z, Reconnect)]) spawned_world))
  /\ step Number_none (TimerFires 3) spawned_world = spawned_world.
Proof.
  destruct (reconnect_timer_fires Number_none
              (set_timers (fun _ => [(3000%Z, Reconnect)]) spawned_world) 0
              (3000%Z, Reconnect) eq_refl) as (H1 & _).
  destruct (reconnect_timer_fires Number_none spawned_world 3
              (3000%Z, Reconnect) eq_refl) as (_ & H2).
  split; [apply (proj2 (H1 eq_refl)); reflexivity | apply H2; reflexivity].
Defined.

Lemma leave_does_not_cancel_reconnect_witness :
  let w := set_timers (fun _ => [(3000%Z, Reconnect)]) spawned_world in
  timers (step Number_none (TimerFires 0) (disconnect w).2) = []
  /\ exists tl,
       calls (step Number_none (TimerFires 0) (disconnect w).2)
       = (calls (disconnect w).2
          ++ CreateBot "host" (port_or_default (lastPort (ctl w)))
               (lastVersion (ctl w)) :: tl)%list.
Proof.
  intros w.
  destruct (leave_does_not_cancel_reconnect Number_none w 0 0 (3000%Z, Reconnect)
              "host" eq_refl eq_refl eq_refl eq_refl eq_refl eq_refl
              ltac:(discriminate)) as (_ & H2 & H3).
  split; [exact H2 | exact H3].
Defined.

(** ** The update advisory *)

(** X15. [checkForUpdate] never throws and logs exactly one line,
    whatever the fetch does: a warning if the fetch fails or if the body
    of the response is not a string (its [trim] is called before the tag
    is looked at); otherwise a warning for a tag with "pr" in it, else
    information for a tag with "_rc" in it, and only for a tag with
    neither a comparison with the fetched version (trimmed).  For the
    tag compiled into this build, "1.1.1_rc1", a string body is
    therefore never compared. *)
Theorem checkForUpdate_logs_once (current : string) (res : Fetch) (w : World) :
  (exists (l : Level) (m : string),
     checkForUpdate_for current res w = (Normal tt, add_out (Logged l m) w)
     /\ l = match res with
            | FetchFailed _ => LWarn
            | Fetched (TextBody data) =>
                if includes_str "pr" current then LWarn
                else if includes_str "_rc" current then LInfo
                else if String.eqb (trim data) current then LSuccess
                else LError
            | Fetched _ => LWarn
            end)
  /\ (forall data : string,
        checkForUpdate (Fetched (TextBody data)) w
        = (Normal tt,
           add_out (Logged LInfo
             "This is a release-candidate build (_rc). Some minor issues may exist.")
             w))
  /\ checkForUpdate (Fetched OtherBody) w
     = (Normal tt,
        add_out (Logged LWarn
          "Failed to check for updates: res.data.trim is not a function") w).
Proof.
  split; [|split; reflexivity].
  unfold checkForUpdate_for, body_trim. run_m. destruct res as [[data| | |]|e]; simpl;
    try (eexists; eexists; split; reflexivity).
  destruct (includes_str "pr" current); [eexists; eexists; split; reflexivity|].
  destruct (includes_str "_rc" current); [eexists; eexists; split; reflexivity|].
  destruct (String.eqb (trim data) current); eexists; eexists; split; reflexivity.
Qed.

(** ** Queries and movement *)

Lemma foldl_add_out {A : Type} (f : A -> Output) (l : list A) (w : World) :
  foldl (fun w x => add_out (f x) w) w l
  = {| ctl := ctl w; subs := subs w; promises := promises w;
       next_id := next_id w; timers := timers w;
       out := (out w ++ map f l)%list;
       calls := calls w; exit_code := exit_code w; faults := faults w;
       position := position w; players := players w |}.
Proof.
  revert w. induction l as [|x l IH]; intros w; simpl.
  - rewrite app_nil_r. destruct w; reflexivity.
  - rewrite IH. simpl. rewrite <- app_assoc. reflexivity.
Qed.

(** X16. [query] on a connected controller never calls into the agent
    client and never changes the controller.  [players] logs a header and
    then prints one line per known player, in order; [position] logs the
    position, or throws without logging while the agent's entity is
    missing; anything else, a missing argument included, is a usage
    warning. *)
Theorem query_reads_only (w : World) (h : nat) (type : jsval string) :
  connected (ctl w) = true -> bot (ctl w) = Some h ->
  calls (query type w).2 = calls w
  /\ ctl (query type w).2 = ctl w
  /\ (type = Val "players" ->
      (query type w).1 = Normal tt
      /\ out (query type w).2
         = (out w ++ Logged LInfo "Players online:"
                     :: map (fun p => Printed ("   - " +:+ p)) (players w))%list)
  /\ (type = Val "position" ->
      match position w with
      | Some xyz =>
          query type w
          = (Normal tt,
             add_out (Logged LInfo (trim ("Position: " +:+ show_position xyz))) w)
      | None => (query type w).1
                = Thrown "Cannot read properties of undefined (reading 'position')"
                /\ out (query type w).2 = out w
      end)
  /\ (type ≠ Val "players" -> type ≠ Val "position" ->
      query type w
      = (Normal tt, add_out (Logged LWarn "Usage: query position | players") w)).
Proof.
  intros Hc Hb.
  assert (Hpl : query (Val "players") w
                = (Normal tt,
                   foldl (fun w p => add_out (Printed ("   - " +:+ p)) w)
                     (add_out (Logged LInfo "Players online:") w) (players w))).
  { unfold query. run_m. rewrite Hc, Hb. reflexivity. }
  assert (Hpos : query (Val "position") w
                 = match position w with
                   | Some xyz =>
                       (Normal tt,
                        add_out (Logged LInfo
                                   (trim ("Position: " +:+ show_position xyz))) w)
                   | None =>
                       (Thrown "Cannot read properties of undefined (reading 'position')", w)
                   end).
  { unfold query, read_position. run_m. rewrite Hc, Hb. simpl.
    destruct (position w); reflexivity. }
  assert (Hother : type ≠ Val "players" -> type ≠ Val "position" ->
                   query type w
                   = (Normal tt,
                      add_out (Logged LWarn "Usage: query position | players") w)).
  { intros H1 H2. unfold query. run_m. rewrite Hc, Hb.
    destruct type as [| |t]; try reflexivity.
    destruct (string_dec t "players") as [->|Hn1]; [congruence|].
    destruct (string_dec t "position") as [->|Hn2]; [congruence|].
    repeat match goal with
           | |- context [match ?x with _ => _ end] =>
               match type of x with
               | string => destruct x
               | ascii => destruct x
               | bool => destruct x
               end
           end; try reflexivity; congruence. }
  assert (Hframe : calls (query type w).2 = calls w /\ ctl (query type w).2 = ctl w).
  { destruct (decide (type = Val "players")) as [->|H1].
    { rewrite Hpl, foldl_add_out. split; reflexivity. }
    destruct (decide (type = Val "position")) as [->|H2].
    { rewrite Hpos. destruct (position w); split; reflexivity. }
    rewrite (Hother H1 H2). split; reflexivity. }
  destruct Hframe as [Hf1 Hf2].
  split; [exact Hf1|]. split; [exact Hf2|]. split; [|split].
  - intros ->. rewrite Hpl, foldl_add_out. simpl. rewrite <- app_assoc.
    split; reflexivity.
  - intros ->. rewrite Hpos. destruct (position w); [reflexivity|split; reflexivity].
  - exact Hother.
Qed.

Lemma query_reads_only_witness :
  calls (query (Val "players") spawned_world).2 = calls spawned_world
  /\ query (Val "frobs") spawned_world
     = (Normal tt,
        add_out (Logged LWarn "Usage: query position | players") spawned_world).
Proof.
  destruct (query_reads_only spawned_world 0 (Val "players") eq_refl eq_refl)
    as (H1 & _).
  destruct (query_reads_only spawned_world 0 (Val "frobs") eq_refl eq_refl)
    as (_ & _ & _ & _ & H5).
  split; [exact H1 | apply H5; discriminate].
Defined.

Section MovementFacts.

Variable Number_ : string -> option string.

(** X17. [goto] with three finite coordinates on a connected controller
    asks for the world data, installs the movements and sets the goal, in
    that order, and logs the move; it has no [try] of its own, so a fault
    of the first call stops it before any goal is set, and the
    dispatcher reports the failed command and resolves. *)
Theorem goto_sets_goal_or_fails_cleanly (w : World) (h : nat)
  (input cmd a b c x y z : string) :
  connected (ctl w) = true -> bot (ctl w) = Some h ->
  split " " (trim input) = [cmd; a; b; c] -> toLowerCase cmd = "goto" ->
  Number_ a = Some x -> Number_ b = Some y -> Number_ c = Some z ->
  (quiet 3 (faults w) = true ->
   (handleCommand Number_ input w).1 = Fulfilled
   /\ calls (handleCommand Number_ input w).2
      = (calls w ++ [MinecraftData h; SetMovements h; SetGoal h x y z])%list
   /\ out (handleCommand Number_ input w).2
      = (out w ++ [Logged LInfo
                     (trim ("Moving to " +:+ x +:+ "," +:+ y +:+ "," +:+ z))])%list)
  /\ (forall e rest, faults w = Some e :: rest ->
        (handleCommand Number_ input w).1 = Fulfilled
        /\ calls (handleCommand Number_ input w).2 = (calls w ++ [MinecraftData h])%list
        /\ out (handleCommand Number_ input w).2
           = (out w ++ [Logged LError (trim ("Command failed: " +:+ e))])%list).
Proof.
  intros Hc Hb Hs Hl Ha Hbb Hcc.
  assert (Hcmd : cmd ≠ "") by (intros ->; discriminate Hl).
  assert (E : handleCommand Number_ input w
              = async (try_catch
                         (r ← (goto (Some x) (Some y) (Some z) ;; mret Fulfilled);
                          await (fun w => (r, w)))
                         (fun e => log LError ("Command failed: " +:+ e);;
                                   mret Fulfilled)) w).
  { unfold handleCommand. rewrite Hs, (eqb_empty_false _ Hcmd), Hl.
    change (commands_get "goto") with (Own Cgoto).
    unfold call, coord. simpl. rewrite Ha, Hbb, Hcc. reflexivity. }
  rewrite E. unfold goto. run_m. rewrite Hc, Hb. unfold agent_call. simpl.
  split.
  - intros Hq.
    destruct (faults w) as [|[e|] [|[e'|] [|[e''|] rest]]]; simpl in *;
      try discriminate; rewrite <- ?app_assoc; repeat split.
  - intros e rest Hf. rewrite Hf. simpl. repeat split.
Qed.

(** X18. [query], [lookAt] and [goto] on a controller that is not
    connected (flag off, or no handle) log one warning and do nothing
    else; and on a connected controller [lookAt] and [goto] with a
    coordinate that is not a finite number log one usage warning and do
    nothing else.  In none of these cases is the agent client called. *)
Theorem guarded_actions_only_warn (w : World) (type : jsval string)
  (x y z : option string) :
  (connected (ctl w) = false \/ bot (ctl w) = None ->
   query type w = (Normal tt, add_out (Logged LWarn "Not connected.") w)
   /\ lookAt x y z w = (Fulfilled, add_out (Logged LWarn "Not connected.") w)
   /\ goto x y z w = (Normal tt, add_out (Logged LWarn "Not connected.") w))
  /\ (forall h, connected (ctl w) = true -> bot (ctl w) = Some h ->
        x = None \/ y = None \/ z = None ->
        lookAt x y z w
        = (Fulfilled, add_out (Logged LWarn "Usage: lookat <x> <y> <z>") w)
        /\ goto x y z w
           = (Normal tt, add_out (Logged LWarn "Usage: goto <x> <y> <z>") w)).
Proof.
  split.
  - intros H. unfold query, lookAt, goto. run_m.
    destruct (connected (ctl w)) eqn:Hc.
    + destruct H as [H|H]; [discriminate|]. rewrite H. repeat split.
    + destruct (bot (ctl w)); repeat split.
  - intros h Hc Hb H. unfold lookAt, goto. run_m. rewrite Hc, Hb.
    destruct x, y, z; destruct H as [H|[H|H]]; try discriminate; repeat split.
Qed.

End MovementFacts.

Lemma goto_sets_goal_or_fails_cleanly_witness :
  calls (handleCommand (fun t => Some t) "goto 1 64 -3" spawned_world).2
  = (calls spawned_world
     ++ [MinecraftData 0; SetMovements 0; SetGoal 0 "1" "64" "-3"])%list.
Proof.
  destruct (goto_sets_goal_or_fails_cleanly (fun t => Some t) spawned_world 0
              "goto 1 64 -3" "goto" "1" "64" "-3" "1" "64" "-3"
              eq_refl eq_refl eq_refl eq_refl eq_refl eq_refl eq_refl)
    as (H & _).
  apply H. reflexivity.
Defined.

Lemma guarded_actions_only_warn_witness :
  goto (Some "1") None (Some "3") spawned_world
  = (Normal tt, add_out (Logged LWarn "Usage: goto <x> <y> <z>") spawned_world)
  /\ query Undefined world0
     = (Normal tt, add_out (Logged LWarn "Not connected.") world0).
Proof.
  destruct (guarded_actions_only_warn spawned_world Undefined (Some "1") None (Some "3"))
    as (_ & H2).
  destruct (guarded_actions_only_warn world0 Undefined None None None) as (H1 & _).
  split.
  - apply (H2 0 eq_refl eq_refl). right. left. reflexivity.
  - apply H1. left. reflexivity.
Defined.

(** ** A missing host *)

(** Without a host nothing is attempted.  [connect] on a controller
    that is not connected, given a host that is undefined, null or empty,
    resolves with one usage warning and changes nothing else (the last
    target is not overwritten); [join] with no first token, or an empty
    one, warns the same way without calling [connect]. *)
Theorem missing_host_only_warns (w : World) (host : jsval string)
  (port : jsval Num) (version : jsval string) (rest : list string) :
  (connected (ctl w) = false -> truthy host = false ->
   connect host port version w
   = (Fulfilled,
      add_out (Logged LWarn "Usage: join <ip> [port|version] [version]") w))
  /\ cmd_join [] w
     = (Fulfilled,
        add_out (Logged LWarn "Usage: join <ip> [port|version] [version]") w)
  /\ cmd_join ("" :: rest) w
     = (Fulfilled,
        add_out (Logged LWarn "Usage: join <ip> [port|version] [version]") w).
Proof.
  split; [|split; reflexivity].
  intros Hc Hh. unfold connect. run_m. rewrite Hc. simpl. rewrite Hh. reflexivity.
Qed.

Lemma missing_host_only_warns_witness :
  connect Null Undefined Undefined connecting_world
  = (Fulfilled,
     add_out (Logged LWarn "Usage: join <ip> [port|version] [version]")
       connecting_world).
Proof.
  apply (proj1 (missing_host_only_warns connecting_world Null Undefined Undefined []));
    reflexivity.
Defined.

(** ** say and faults of the transmission *)

(** X19. [say] never throws and never touches the controller or the
    timers, whatever the client does with the message.  When the
    transmission faults, a fault whose message mentions "signature" is
    logged as a warning and any other as an error carrying the message;
    the controller stays connected either way. *)
Theorem say_contains_transmission_faults (w : World) (message : string) :
  (say message w).1 = Normal tt
  /\ ctl (say message w).2 = ctl w
  /\ timers (say message w).2 = timers w
  /\ (forall h e rest,
        connected (ctl w) = true -> bot (ctl w) = Some h -> message ≠ "" ->
        faults w = Some e :: rest ->
        out (say message w).2
        = (out w ++ [if includes_str "signature" e
                     then Logged LWarn "Chat failed due to signature, ignored."
                     else Logged LError (trim ("Chat failed: " +:+ e))])%list).
Proof.
  assert (H : (say message w).1 = Normal tt
              /\ ctl (say message w).2 = ctl w
              /\ timers (say message w).2 = timers w).
  { unfold say. run_m.
    destruct (connected (ctl w)); [|destruct (bot (ctl w)); repeat split].
    destruct (bot (ctl w)) as [h|]; [|repeat split].
    destruct (String.eqb message ""); [repeat split|].
    unfold agent_call. simpl.
    destruct (faults w) as [|[e|] rest]; simpl; repeat split.
    all: destruct (includes_str "signature" e); repeat split. }
  destruct H as (H1 & H2 & H3).
  split; [exact H1|]. split; [exact H2|]. split; [exact H3|].
  intros h e rest Hc Hb Hm Hf. unfold say. run_m.
  rewrite Hc, Hb, (eqb_empty_false _ Hm). unfold agent_call. simpl.
  rewrite Hf. simpl. destruct (includes_str "signature" e); reflexivity.
Qed.

Lemma say_contains_transmission_faults_witness :
  out (say "hi" (set_faults [Some "invalid signature for chat"] spawned_world)).2
  = (out spawned_world
     ++ [Logged LWarn "Chat failed due to signature, ignored."])%list.
Proof.
  destruct (say_contains_transmission_faults
              (set_faults [Some "invalid signature for chat"] spawned_world) "hi")
    as (_ & _ & _ & H).
  apply (H 0 "invalid signature for chat" [] eq_refl eq_refl ltac:(discriminate) eq_refl).
Defined.

(** ** Invariants of the event loop *)

Section Invariants.

(** A property of the world, and the values of the auto-reconnect flag
    under which it survives the setting of the flag. *)
Variable I : World -> Prop.
Variable flag_ok : bool -> Prop.

Hypothesis I_out : forall o w, I w -> I (add_out o w).
Hypothesis I_call : forall c w, I w -> I (add_call c w).
Hypothesis I_faults : forall f w, I w -> I (set_faults f w).
Hypothesis I_subs : forall f w, I w -> I (set_subs f w).
Hypothesis I_bot : forall b w, I w -> I (set_ctl (set_bot b) w).
Hypothesis I_connected : forall b w, I w -> I (set_ctl (set_connected b) w).
Hypothesis I_last : forall h p v w, I w -> I (set_ctl (set_last h p v) w).
Hypothesis I_exit : forall c w, I w -> I (set_exit_code c w).
Hypothesis I_resolve : forall q w, I w -> I (resolve q w).2.
Hypothesis I_alloc : forall w,
  I w -> I (set_next_id (S (next_id w)) (set_promises (insert (next_id w) Pending) w)).
Hypothesis I_fail : forall q e w,
  I w ->
  I (set_promises (fun m => match m !! q with
                            | Some Pending => <[q := Failed e]> m
                            | _ => m
                            end) w).
Hypothesis I_tryReconnect : forall w, I w -> I (tryReconnect w).2.
Hypothesis I_delete : forall n w, I w -> I (set_timers (delete n) w).
Hypothesis I_auto : forall flag w,
  flag_ok flag -> I w -> I (set_ctl (set_autoReconnect flag) w).

Local Abbreviation keepsI := (preserves I).

Lemma pres_mret {A : Type} (a : A) : keepsI (mret a : M A).
Proof. intros w H. exact H. Qed.

Lemma pres_throw {A : Type} (e : string) : keepsI (throw e : M A).
Proof. intros w H. exact H. Qed.

Lemma pres_gets {A : Type} (f : World -> A) : keepsI (gets f).
Proof. intros w H. exact H. Qed.

Lemma pres_modify (f : World -> World) :
  (forall w, I w -> I (f w)) -> keepsI (modify f).
Proof. intros Hf w H. apply Hf. exact H. Qed.

Lemma pres_bind {A B : Type} (m : M A) (f : A -> M B) :
  keepsI m -> (forall a, keepsI (f a)) -> keepsI (m ≫= f).
Proof.
  intros Hm Hf w H. rewrite bind_run. specialize (Hm w H).
  destruct (m w) as [[a|e] w']; simpl in *; [apply Hf; exact Hm | exact Hm].
Qed.

Lemma pres_try_catch {A : Type} (body : M A) (handler : string -> M A) :
  keepsI body -> (forall e, keepsI (handler e)) -> keepsI (try_catch body handler).
Proof.
  intros Hb Hh w H. unfold try_catch. specialize (Hb w H).
  destruct (body w) as [[a|e] w']; simpl in *; [exact Hb | apply Hh; exact Hb].
Qed.

Lemma pres_async (body : M settle) : keepsI body -> keepsI (async body).
Proof.
  intros Hb w H. unfold async. specialize (Hb w H).
  destruct (body w) as [[a|e] w']; exact Hb.
Qed.

Lemma pres_await (a : Async) : keepsI a -> keepsI (await a).
Proof.
  intros Ha w H. unfold await. specialize (Ha w H).
  destruct (a w) as [[|e|q] w']; exact Ha.
Qed.

Lemma pres_lift (a : Async) : keepsI a -> keepsI (lift a).
Proof.
  intros Ha w H. unfold lift. specialize (Ha w H).
  destruct (a w) as [r w']; exact Ha.
Qed.

Lemma pres_log (l : Level) (msg : string) : keepsI (log l msg).
Proof. apply pres_modify. intros w. apply I_out. Qed.

Lemma pres_agent_call (c : AgentCall) : keepsI (agent_call c).
Proof.
  intros w H. unfold agent_call.
  destruct (faults (add_call c w)) as [|[e|] rest]; simpl;
    apply I_faults, I_call; exact H.
Qed.

Lemma pres_resolve (q : nat) : keepsI (resolve q).
Proof. intros w H. apply I_resolve. exact H. Qed.

Lemma pres_new_promise (executor : nat -> M unit) :
  (forall q, keepsI (executor q)) -> keepsI (new_promise executor).
Proof.
  intros He w H. unfold new_promise.
  specialize (He (next_id w) _ (I_alloc w H)).
  destruct (executor (next_id w) _) as [[a|e] w']; simpl in *; [exact He|].
  apply I_fail. exact He.
Qed.

Lemma pres_foldl_out {A : Type} (f : A -> Output) (l : list A) :
  keepsI (modify (fun w => foldl (fun w x => add_out (f x) w) w l)).
Proof.
  apply pres_modify. induction l as [|x l IH]; intros w H; simpl; [exact H|].
  apply IH, I_out. exact H.
Qed.

Ltac pres_tac :=
  repeat first
    [ apply pres_mret | apply pres_throw | apply pres_gets
    | apply pres_log | apply pres_agent_call | apply pres_resolve
    | apply pres_bind; [|intros ?]
    | apply pres_try_catch; [|intros ?]
    | apply pres_async | apply pres_await | apply pres_lift
    | apply pres_new_promise; intros ?
    | apply pres_foldl_out
    | apply pres_modify; intros ?;
      first [ apply I_out | apply I_subs | apply I_bot | apply I_connected
            | apply I_last | apply I_exit ]
    | match goal with
      | |- preserves I (match ?x with _ => _ end) => destruct x
      | |- preserves I (if ?x then _ else _) => destruct x
      end ].

Lemma pres_cleanup : keepsI cleanup.
Proof. unfold cleanup, this_bot. pres_tac. Qed.

Lemma pres_tryReconnect : keepsI tryReconnect.
Proof. intros w H. apply I_tryReconnect. exact H. Qed.

Lemma pres_disconnect : keepsI disconnect.
Proof.
  unfold disconnect.
  apply pres_bind; [apply pres_gets | intros c].
  destruct (connected c); [|apply pres_log].
  destruct (bot c); [|apply pres_log].
  apply pres_bind; [apply pres_agent_call | intros _].
  apply pres_bind; [apply pres_cleanup | intros _; apply pres_log].
Qed.

Lemma pres_say (message : string) : keepsI (say message).
Proof. unfold say. pres_tac. Qed.

Lemma pres_exit : keepsI exit.
Proof. unfold exit. pres_tac. Qed.

Lemma pres_query (type : jsval string) : keepsI (query type).
Proof.
  unfold query, read_position. pres_tac.
  all: try (apply (pres_foldl_out (fun p0 => Printed ("   - " +:+ p0)))).
Qed.

Lemma pres_lookAt (x y z : option string) : keepsI (lookAt x y z).
Proof. unfold lookAt. pres_tac. Qed.

Lemma pres_goto (x y z : option string) : keepsI (goto x y z).
Proof. unfold goto. pres_tac. Qed.

Lemma pres_connect (host : jsval string) (port : jsval Num)
  (version : jsval string) : keepsI (connect host port version).
Proof. unfold connect, this_connected. pres_tac. Qed.

Lemma pres_on_spawn (h : nat) : keepsI (on_spawn h).
Proof. unfold on_spawn, read_position. pres_tac. Qed.

Lemma pres_on_kicked (reason : string) : keepsI (on_kicked reason).
Proof.
  unfold on_kicked.
  apply pres_bind; [apply pres_log | intros _].
  apply pres_bind; [apply pres_cleanup | intros _; apply pres_tryReconnect].
Qed.

Lemma pres_handleError (h : nat) (message : string) : keepsI (handleError h message).
Proof.
  unfold handleError, this_connected.
  apply pres_bind; [apply pres_gets | intros c].
  apply pres_bind; [destruct c; [apply pres_mret | apply pres_log] | intros _].
  apply pres_bind; [apply pres_cleanup | intros _; apply pres_resolve].
Qed.

Lemma pres_on_end : keepsI on_end.
Proof.
  unfold on_end, this_connected.
  apply pres_bind; [apply pres_gets | intros c].
  apply pres_bind; [destruct c; [apply pres_log | apply pres_mret] | intros _].
  apply pres_bind; [apply pres_cleanup | intros _; apply pres_tryReconnect].
Qed.

Lemma pres_emit (h : nat) (ev : Event) : keepsI (emit h ev).
Proof.
  unfold emit.
  apply pres_bind; [apply pres_gets | intros ls].
  destruct (bool_decide (event_name ev ∈ ls)).
  - destruct ev.
    + apply pres_bind; [|intros _; apply pres_on_spawn].
      apply pres_modify. intros w. apply I_subs.
    + unfold on_chat. pres_tac.
    + unfold on_message. pres_tac.
    + apply pres_on_kicked.
    + apply pres_handleError.
    + apply pres_on_end.
  - destruct ev; pres_tac.
Qed.

Lemma pres_cmd_join (args : list string) : keepsI (cmd_join args).
Proof.
  unfold cmd_join. apply pres_async.
  destruct (negb (truthy (arg args 0))).
  - apply pres_bind; [apply pres_log | intros _; apply pres_mret].
  - apply pres_await, pres_connect.
Qed.

Lemma pres_cmd_autoreconnect (args : list string) :
  (truthy (arg args 0) = true ->
   flag_ok (String.eqb (toLowerCase (text_of (arg args 0))) "true")) ->
  keepsI (cmd_autoreconnect args).
Proof.
  intros Hf. unfold cmd_autoreconnect.
  destruct (truthy (arg args 0)); simpl; [|apply pres_log].
  unfold setAutoReconnect.
  apply pres_bind; [|intros _; apply pres_log].
  apply pres_modify. intros w. apply I_auto, Hf. reflexivity.
Qed.

Variable Number_ : string -> option string.

Lemma pres_call (c : Command) (args : list string) :
  (c = Cautoreconnect -> truthy (arg args 0) = true ->
   flag_ok (String.eqb (toLowerCase (text_of (arg args 0))) "true")) ->
  keepsI (call Number_ (Own c) args).
Proof.
  intros Hf. destruct c; simpl;
    first
      [ apply pres_lift; first [apply pres_cmd_join | apply pres_lookAt]
      | apply pres_bind;
        [ first [ apply pres_disconnect | apply pres_exit | apply pres_say
                | apply pres_query | apply pres_goto
                | apply pres_cmd_autoreconnect; apply Hf; reflexivity
                | unfold cmd_help; apply (pres_foldl_out Printed)
                | apply pres_modify; intros w; apply I_out ]
        | intros ?; apply pres_mret ] ].
Qed.

Lemma pres_handleCommand (input : string) :
  (forall flag, sets_flag (Line input) = Some flag -> flag_ok flag) ->
  keepsI (handleCommand Number_ input).
Proof.
  intros Hf. unfold handleCommand. apply pres_async.
  unfold sets_flag in Hf.
  destruct (split " " (trim input)) as [|cmd args]; [apply pres_mret|].
  destruct (String.eqb cmd ""); [apply pres_mret|].
  destruct (commands_get (toLowerCase cmd)) as [c| | |].
  - apply pres_try_catch.
    + apply pres_bind; [|intros r; apply pres_await; intros w H; exact H].
      apply pres_call. intros -> Ht. apply Hf. rewrite Ht. reflexivity.
    + intros e. apply pres_bind; [apply pres_log | intros _; apply pres_mret].
  - apply pres_try_catch.
    + apply pres_bind; [apply pres_mret|].
      intros r; apply pres_await; intros w H; exact H.
    + intros e. apply pres_bind; [apply pres_log | intros _; apply pres_mret].
  - apply pres_try_catch.
    + apply pres_bind; [apply pres_throw|].
      intros r; apply pres_await; intros w H; exact H.
    + intros e. apply pres_bind; [apply pres_log | intros _; apply pres_mret].
  - apply pres_bind; [apply pres_log | intros _; apply pres_mret].
Qed.

Lemma pres_step (i : Input) :
  (forall flag, sets_flag i = Some flag -> flag_ok flag) ->
  step_preserves I (step Number_ i).
Proof.
  intros Hf w H. unfold step. destruct (exit_code w); [exact H|].
  destruct i as [line|h ev|k|].
  - pose proof (pres_handleCommand line Hf w H) as Hh.
    unfold detached. destruct (handleCommand Number_ line w) as [[|e|q] w']; simpl in *;
      try exact Hh.
    apply I_out; exact Hh.
  - pose proof (pres_emit h ev w H) as Hh.
    unfold run_callback. destruct (emit h ev w) as [[a|e] w']; simpl in *;
      try exact Hh.
    apply I_out; exact Hh.
  - destruct (timers w !! k) as [[d []]|]; [|exact H].
    pose proof (pres_connect (lastHost (ctl (set_timers (delete k) w)))
                  (lastPort (ctl (set_timers (delete k) w)))
                  (lastVersion (ctl (set_timers (delete k) w))) _
                  (I_delete k w H)) as Hh.
    unfold detached, reconnect_task.
    destruct (connect _ _ _ (set_timers (delete k) w)) as [[|e|q] w']; simpl in *;
      try exact Hh.
    apply I_out; exact Hh.
  - assert (Hd : preserves I (disconnect ;; exit)).
    { apply pres_bind; [apply pres_disconnect | intros _; apply pres_exit]. }
    pose proof (Hd w H) as Hh.
    unfold run_callback. destruct ((disconnect ;; exit) w) as [[a|e] w']; simpl in *;
      try exact Hh.
    apply I_out; exact Hh.
Qed.

Lemma pres_run (inputs : list Input) :
  Forall (fun i => forall flag, sets_flag i = Some flag -> flag_ok flag) inputs ->
  step_preserves I (run Number_ inputs).
Proof.
  unfold run. induction inputs as [|i inputs IH]; intros Hall w H; [exact H|].
  simpl. inversion Hall as [|? ? Hi Hrest]; subst.
  apply IH; [exact Hrest|]. apply pres_step; [exact Hi | exact H].
Qed.

End Invariants.

(** X20. Reconnection is opt-in.  From a world with auto-reconnect off and
    no timer pending, no run of inputs (lines, agent events, timers,
    interrupts) that holds no [autoreconnect] command lower-casing its
    argument to "true" ever sets a timer or switches the flag on:
    whatever faults, kicks or ends, nothing will reconnect. *)
Theorem no_reconnect_without_opt_in (Number_ : string -> option string)
  (inputs : list Input) (w : World) :
  no_reconnect_pending w ->
  Forall (fun i => sets_flag i ≠ Some true) inputs ->
  no_reconnect_pending (run Number_ inputs w).
Proof.
  intros Hw Hall.
  assert (Hframe : forall f : World -> World,
            (forall w0, autoReconnect (ctl (f w0)) = autoReconnect (ctl w0)
                        /\ timers (f w0) = timers w0) ->
            forall w0, no_reconnect_pending w0 -> no_reconnect_pending (f w0)).
  { intros f Hf w0 [H1 H2]. destruct (Hf w0) as [E1 E2].
    split; [rewrite E1; exact H1 | rewrite E2; exact H2]. }
  refine (pres_run no_reconnect_pending (fun flag => flag = false)
            _ _ _ _ _ _ _ _ _ _ _ _ _ _ Number_ inputs _ w Hw).
  - intros o. apply Hframe. intros; split; reflexivity.
  - intros c. apply Hframe. intros; split; reflexivity.
  - intros f. apply Hframe. intros; split; reflexivity.
  - intros f. apply Hframe. intros; split; reflexivity.
  - intros b. apply Hframe. intros; split; reflexivity.
  - intros b. apply Hframe. intros; split; reflexivity.
  - intros h p v. apply Hframe. intros; split; reflexivity.
  - intros c. apply Hframe. intros; split; reflexivity.
  - intros q. apply (Hframe (fun w0 => (resolve q w0).2)). intros; split; reflexivity.
  - apply Hframe. intros; split; reflexivity.
  - intros q e. apply Hframe. intros; split; reflexivity.
  - intros w0 [H1 H2]. unfold tryReconnect. run_m. rewrite H1. simpl.
    split; assumption.
  - intros n w0 [H1 H2]. split; simpl; [exact H1 | rewrite H2; reflexivity].
  - intros flag w0 -> [H1 H2]. split; simpl; [reflexivity | exact H2].
  - eapply Forall_impl; [exact Hall|]. simpl. intros i Hi [|] Hf; congruence.
Qed.

Lemma no_reconnect_without_opt_in_witness :
  no_reconnect_pending
    (run Number_none
       [Line "autoreconnect off"; Line "join host"; Agent 0 Spawn;
        Agent 0 (Kicked "bye"); Agent 0 End; TimerFires 0; Line "join host";
        Agent 1 (ErrorEv "refused")]
       world0).
Proof.
  apply (no_reconnect_without_opt_in Number_none).
  - split; reflexivity.
  - repeat constructor; discriminate.
Defined.

(** X21. A connect promise settles once.  When the promise of an attempt
    has been resolved or rejected, no run of inputs changes it again: a
    late spawn or error of the same handle, further attempts and their
    events all leave it as it is. *)
Theorem promise_settles_once (Number_ : string -> option string)
  (inputs : list Input) (w : World) (p : nat) (st : PState) :
  settled p st w -> settled p st (run Number_ inputs w).
Proof.
  intros Hw.
  assert (Hframe : forall f : World -> World,
            (forall w0, promises (f w0) = promises w0
                        /\ next_id (f w0) = next_id w0) ->
            forall w0, settled p st w0 -> settled p st (f w0)).
  { intros f Hf w0 (H1 & H2 & H3). destruct (Hf w0) as [E1 E2].
    split; [rewrite E2; exact H1 | split; [rewrite E1; exact H2 | exact H3]]. }
  assert (Hupd : forall (q : nat) (v : PState) (w0 : World),
            settled p st w0 ->
            settled p st
              (set_promises (fun m => match m !! q with
                                      | Some Pending => <[q := v]> m
                                      | _ => m
                                      end) w0)).
  { intros q v w0 (H1 & H2 & H3). split; [exact H1|]. split; [|exact H3]. simpl.
    destruct (promises w0 !! q) as [[| |e']|] eqn:Hq; try exact H2.
    destruct (decide (q = p)) as [->|Hne]; [congruence|].
    rewrite lookup_insert_ne by exact Hne. exact H2. }
  refine (pres_run (settled p st) (fun _ => True)
            _ _ _ _ _ _ _ _ _ _ _ _ _ _ Number_ inputs _ w Hw).
  - intros o. apply Hframe. intros; split; reflexivity.
  - intros c. apply Hframe. intros; split; reflexivity.
  - intros f. apply Hframe. intros; split; reflexivity.
  - intros f. apply Hframe. intros; split; reflexivity.
  - intros b. apply Hframe. intros; split; reflexivity.
  - intros b. apply Hframe. intros; split; reflexivity.
  - intros h q v. apply Hframe. intros; split; reflexivity.
  - intros c. apply Hframe. intros; split; reflexivity.
  - intros q w0 H. apply (Hupd q Resolved w0 H).
  - intros w0 (H1 & H2 & H3). split; [simpl; lia|]. split; [|exact H3]. simpl.
    rewrite lookup_insert_ne by lia. exact H2.
  - intros q e w0 H. apply (Hupd q (Failed e) w0 H).
  - intros w0 H. unfold tryReconnect. run_m.
    destruct (autoReconnect (ctl w0) && truthy (lastHost (ctl w0))); [|exact H].
    revert H. apply (Hframe (fun w1 => set_timers _ (add_out _ w1))).
    intros; split; reflexivity.
  - intros n. apply Hframe. intros; split; reflexivity.
  - intros flag w0 _. apply Hframe. intros; split; reflexivity.
  - apply Forall_forall. intros; exact Logic.I.
Qed.

Lemma promise_settles_once_witness :
  settled 0 Resolved
    (run Number_none
       [Agent 0 (ErrorEv "late"); Agent 0 Spawn; Line "leave"; Line "join host";
        Agent 1 (ErrorEv "refused")]
       spawned_world).
Proof.
  apply (promise_settles_once Number_none).
  split; [vm_compute; lia | split; [reflexivity | discriminate]].
Defined.

(** ** lookAt *)

(** X22. [lookAt] with three finite coordinates on a connected controller
    builds the vector and then calls the client's [lookAt], and it never
    rejects: a fault of [vec3] is caught before the client's [lookAt] is
    called, a fault of the client's [lookAt] is caught after it, and
    either is logged as a failed look with its message.  The controller
    and the timers are untouched. *)
Theorem lookAt_contains_faults (w : World) (h : nat) (x y z : string) :
  connected (ctl w) = true -> bot (ctl w) = Some h ->
  let r := lookAt (Some x) (Some y) (Some z) w in
  (forall e, r.1 ≠ Rejected e)
  /\ ctl r.2 = ctl w
  /\ timers r.2 = timers w
  /\ (forall e rest, faults w = Some e :: rest ->
        calls r.2 = (calls w ++ [Vec3Call h x y z])%list
        /\ out r.2 = (out w ++ [Logged LError (trim ("Look failed: " +:+ e))])%list)
  /\ (quiet 1 (faults w) = true ->
      calls r.2 = (calls w ++ [Vec3Call h x y z; LookAtCall h x y z])%list)
  /\ (forall e rest, faults w = None :: Some e :: rest ->
        out r.2 = (out w ++ [Logged LError (trim ("Look failed: " +:+ e))])%list).
Proof.
  intros Hc Hb. unfold lookAt. run_m. rewrite Hc, Hb. unfold agent_call. simpl.
  destruct (faults w) as [|[e|] [|[e'|] rest]]; simpl;
    rewrite <- ?app_assoc; repeat split; try discriminate;
    try (intros ? ? [=]; subst; reflexivity).
  all: try (intros ? ? [=]; subst; split; reflexivity).
  all: match goal with
       | H : _ = _ :: _ |- _ => injection H as He Hr; subst; reflexivity
       end.
Qed.

Lemma lookAt_contains_faults_witness :
  calls (lookAt (Some "1") (Some "2") (Some "3")
           (set_faults [Some "vec3 is not a function"] spawned_world)).2
  = (calls spawned_world ++ [Vec3Call 0 "1" "2" "3"])%list
  /\ calls (lookAt (Some "1") (Some "2") (Some "3") spawned_world).2
     = (calls spawned_world ++ [Vec3Call 0 "1" "2" "3"; LookAtCall 0 "1" "2" "3"])%list.
Proof.
  destruct (lookAt_contains_faults
              (set_faults [Some "vec3 is not a function"] spawned_world) 0
              "1" "2" "3" eq_refl eq_refl) as (_ & _ & _ & H4 & _).
  destruct (lookAt_contains_faults spawned_world 0 "1" "2" "3" eq_refl eq_refl)
    as (_ & _ & _ & _ & H5 & _).
  split; [apply (H4 "vec3 is not a function" []); reflexivity | apply H5; reflexivity].
Defined.

(** ** Chat and server messages *)

(** The events ['chat'] and ['message'] only ever print: they never
    throw and leave the whole world but the console as it was.  A chat
    line is logged exactly when the handle is listened to, the user is
    given and is not the bot itself; a server message is always logged
    when listened to. *)
Theorem content_events_only_log (w : World) (h : nat) (user : jsval string)
  (msg username text : string) :
  let chatty := bool_decide (EvChat ∈ default [] (subs w !! h))
                && truthy user && negb (String.eqb (text_of user) username) in
  emit h (ChatEv user msg username) w
  = (Normal tt,
     if chatty
     then add_out (Logged LChat (trim (text_of user +:+ ": " +:+ msg))) w
     else w)
  /\ emit h (Message text) w
     = (Normal tt,
        if bool_decide (EvMessage ∈ default [] (subs w !! h))
        then add_out (Logged LEvent
                        (trim ("[srv msg] " +:+ collapse_ws (trim text)))) w
        else w).
Proof.
  unfold emit, on_chat, on_message. run_m. simpl. split.
  - destruct (bool_decide (EvChat ∈ default [] (subs w !! h))); simpl; [|reflexivity].
    destruct (truthy user && negb (String.eqb (text_of user) username)); reflexivity.
  - destruct (bool_decide (EvMessage ∈ default [] (subs w !! h))); reflexivity.
Qed.

(** ** Two attempts in flight *)

(** A quiet attempt, with the oracle tape and the calls it leaves. *)
Lemma connect_ok_tape (w : World) (host : string) (port : jsval Num)
  (version : jsval string) :
  connected (ctl w) = false -> host ≠ "" -> quiet 2 (faults w) = true ->
  let w' := (connect (Val host) port version w).2 in
  faults w' = tail (tail (faults w))
  /\ calls w' = (calls w ++ [CreateBot host (port_or_default port) version;
                             LoadPlugin (next_id w)])%list.
Proof.
  intros Hc Hh Hq. unfold connect. run_m. rewrite Hc. simpl.
  rewrite (eqb_empty_false _ Hh). simpl.
  unfold new_promise, agent_call. simpl.
  destruct (faults w) as [|[e|] [|[e'|] tape]]; simpl in *; try discriminate;
    rewrite <- ?app_assoc; split; reflexivity.
Qed.

Lemma quiet_tail (n : nat) (tape : list (option string)) :
  quiet (S n) tape = true -> quiet n (tail tape) = true.
Proof.
  destruct tape as [|[e|] rest]; simpl; try discriminate; [|auto].
  intros _. destruct n; reflexivity.
Qed.

Lemma quiet_le (n : nat) (tape : list (option string)) :
  quiet (S n) tape = true -> quiet n tape = true.
Proof.
  revert tape. induction n as [|n IH]; intros tape; [reflexivity|].
  destruct tape as [|[e|] rest]; simpl; try discriminate; [reflexivity|].
  intros H. apply IH. exact H.
Qed.

(** X23. [connect] does not turn a second attempt away while a first is
    still in flight, and it neither quits nor detaches the first handle.
    When that first handle then reports an error, its listener cleans up
    whatever the controller holds, which is the second handle: the
    controller ends with no handle, the second handle has no listener
    left, so its spawn can no longer be heard, and its promise is left
    pending. *)
Theorem superseded_attempt_tears_down_current (w : World) (a b message : string)
  (ev : Event) :
  connected (ctl w) = false -> a ≠ "" -> b ≠ "" ->
  quiet 5 (faults w) = true ->
  event_name ev ≠ EvError ->
  let p := next_id w in
  let w1 := (connect (Val a) Undefined Undefined w).2 in
  let w2 := (connect (Val b) Undefined Undefined w1).2 in
  let w3 := (emit p (ErrorEv message) w2).2 in
  (connect (Val b) Undefined Undefined w1).1 = Waiting (S p)
  /\ bot (ctl w2) = Some (S p)
  /\ subs w2 !! p = Some listeners
  /\ calls w2 = (calls w ++ [CreateBot a (Val (Int 25565)) Undefined; LoadPlugin p;
                             CreateBot b (Val (Int 25565)) Undefined;
                             LoadPlugin (S p)])%list
  /\ bot (ctl w3) = None
  /\ subs w3 !! S p = Some []
  /\ promises w3 !! p = Some Resolved
  /\ promises w3 !! S p = Some Pending
  /\ emit (S p) ev w3 = (Normal tt, w3).
Proof.
  intros Hc Ha Hb Hq Hev p w1 w2 w3.
  assert (Hq2 : quiet 2 (faults w) = true) by (do 3 apply quiet_le; exact Hq).
  destruct (connect_ok w a Undefined Undefined Hc Ha Hq2)
    as (_ & Hc1 & Hs1 & Hp1 & Hn1 & _).
  destruct (connect_ok_tape w a Undefined Undefined Hc Ha Hq2) as (Hf1 & Hcs1).
  fold p in Hc1, Hs1, Hp1, Hn1, Hcs1. fold w1 in Hc1, Hs1, Hp1, Hn1, Hf1, Hcs1.
  assert (Hcn1 : connected (ctl w1) = false) by (rewrite Hc1; reflexivity).
  assert (Hq1 : quiet 3 (faults w1) = true).
  { rewrite Hf1. apply (quiet_tail 3), (quiet_tail 4). exact Hq. }
  destruct (connect_ok w1 b Undefined Undefined Hcn1 Hb (quiet_le _ _ Hq1))
    as (Hr2 & Hc2 & Hs2 & Hp2 & _).
  destruct (connect_ok_tape w1 b Undefined Undefined Hcn1 Hb (quiet_le _ _ Hq1))
    as (Hf2 & Hcs2).
  rewrite Hn1 in Hr2, Hc2, Hs2, Hp2, Hcs2.
  fold w2 in Hc2, Hs2, Hp2, Hf2, Hcs2. clearbody w1. clearbody w2.
  assert (Hl2 : subs w2 !! p = Some listeners).
  { rewrite Hs2, !lookup_insert_ne by lia. rewrite Hs1. apply lookup_insert_eq. }
  assert (Hb2 : bot (ctl w2) = Some (S p)) by (rewrite Hc2; reflexivity).
  assert (Hcn2 : connected (ctl w2) = false) by (rewrite Hc2; reflexivity).
  set (w0 := add_out (Logged LError (trim message)) w2).
  assert (Hq0 : quiet 1 (faults w0) = true).
  { unfold w0. change (faults (add_out (Logged LError (trim message)) w2))
      with (faults w2).
    rewrite Hf2. apply (quiet_tail 1), (quiet_tail 2). exact Hq1. }
  destruct (cleanup_detaches w0 (S p) Hb2 Hq0)
    as (wc & Hcl & Hcc & Hsc & _ & _ & _ & _ & Hpc & _).
  assert (E : emit p (ErrorEv message) w2 = resolve p wc).
  { rewrite (emit_listened p (ErrorEv message) w2 listeners Hl2)
      by (unfold listeners; simpl; do 4 right; left).
    unfold handleError.
    rewrite (bind_normal _ _ w2 w2 false)
      by (unfold this_connected, gets; rewrite Hcn2; reflexivity).
    rewrite (bind_normal _ _ w2 w0 tt) by reflexivity.
    rewrite (bind_normal _ _ w0 wc tt) by exact Hcl.
    reflexivity. }
  assert (Hpp : promises wc !! p = Some Pending).
  { rewrite Hpc. unfold w0. simpl. rewrite Hp2, lookup_insert_ne by lia.
    rewrite Hp1. apply lookup_insert_eq. }
  assert (H3 : ctl w3 = ctl wc /\ subs w3 = subs wc
               /\ promises w3 = <[p := Resolved]> (promises wc)).
  { unfold w3. rewrite E. unfold resolve, modify. simpl. rewrite Hpp. repeat split. }
  destruct H3 as (Hc3 & Hs3 & Hp3). clearbody w3.
  assert (Hl3 : subs w3 !! S p = Some [])
    by (rewrite Hs3, Hsc; apply lookup_insert_eq).
  split; [exact Hr2|]. split; [exact Hb2|]. split; [exact Hl2|].
  split; [rewrite Hcs2, Hcs1, <- app_assoc; reflexivity|].
  split; [rewrite Hc3, Hcc; reflexivity|]. split; [exact Hl3|].
  split; [rewrite Hp3; apply lookup_insert_eq|].
  split.
  - rewrite Hp3, lookup_insert_ne by lia. rewrite Hpc. unfold w0. simpl.
    rewrite Hp2. apply lookup_insert_eq.
  - rewrite (emit_unlistened (S p) ev w3).
    + destruct ev; try reflexivity. exfalso. apply Hev. reflexivity.
    + rewrite Hl3. simpl. apply not_elem_of_nil.
Qed.

Lemma superseded_attempt_tears_down_current_witness :
  let w2 := (connect (Val "good") Undefined Undefined
               (connect (Val "bad") Undefined Undefined world0).2).2 in
  let w3 := (emit 0 (ErrorEv "ETIMEDOUT") w2).2 in
  bot (ctl w3) = None /\ emit 1 Spawn w3 = (Normal tt, w3).
Proof.
  intros w2 w3.
  destruct (superseded_attempt_tears_down_current world0 "bad" "good" "ETIMEDOUT"
              Spawn eq_refl ltac:(discriminate) ltac:(discriminate) eq_refl
              ltac:(discriminate))
    as (_ & _ & _ & _ & H5 & _ & _ & _ & H9).
  split; [exact H5 | exact H9].
Defined.

(** ** The promise of a connect attempt *)

(** Once the process has exited nothing runs. *)
Lemma run_exited (Number_ : string -> option string) (inputs : list Input)
  (w : World) (c : Z) :
  exit_code w = Some c -> run Number_ inputs w = w.
Proof.
  intros He. unfold run. induction inputs as [|i inputs IH]; [reflexivity|].
  simpl. unfold step at 2. rewrite He. exact IH.
Qed.

(** ['end'] on a controller that owns a handle, the detaching not
    faulting: the handle is left without listeners and no promise is
    touched. *)
Lemma on_end_detaches (w : World) (h : nat) :
  bot (ctl w) = Some h -> quiet 1 (faults w) = true ->
  let w' := (on_end w).2 in
  (on_end w).1 = Normal tt
  /\ subs w' = <[h := []]> (subs w)
  /\ promises w' = promises w
  /\ next_id w' = next_id w.
Proof.
  intros Hb Hq.
  set (w0 := if connected (ctl w) then add_out (Logged LWarn (trim "Disconnected.")) w
             else w).
  assert (Hb0 : bot (ctl w0) = Some h)
    by (unfold w0; destruct (connected (ctl w)); exact Hb).
  assert (Hq0 : quiet 1 (faults w0) = true)
    by (unfold w0; destruct (connected (ctl w)); exact Hq).
  destruct (cleanup_detaches w0 h Hb0 Hq0)
    as (w1 & Hcl & _ & Hs1 & _ & _ & _ & _ & Hp1 & Hn1 & _).
  assert (E : on_end w = tryReconnect w1).
  { unfold on_end.
    rewrite (bind_normal _ _ w w (connected (ctl w))) by reflexivity.
    rewrite (bind_normal _ _ w w0 tt)
      by (unfold w0; destruct (connected (ctl w)); reflexivity).
    rewrite (bind_normal _ _ w0 w1 tt) by exact Hcl. reflexivity. }
  assert (H0 : subs w0 = subs w /\ promises w0 = promises w /\ next_id w0 = next_id w)
    by (unfold w0; destruct (connected (ctl w)); repeat split).
  destruct H0 as (Hs0 & Hp0 & Hn0).
  simpl. rewrite E. unfold tryReconnect. run_m.
  destruct (autoReconnect (ctl w1) && truthy (lastHost (ctl w1))); simpl;
    rewrite Hs1, Hp1, Hn1, Hs0, Hp0, Hn0; repeat split.
Qed.

Section Unheard.

(** The attempt under watch. *)
Variable p : nat.

Local Abbreviation keepsU := (preserves (unheard p)).

Lemma unheard_frame (w w' : World) :
  promises w' = promises w -> next_id w' = next_id w -> subs w' = subs w ->
  unheard p w -> unheard p w'.
Proof. unfold unheard, pending. intros -> -> ->. auto. Qed.

Lemma unheard_subs (h : nat) (ls : list EventName) (w : World) :
  (h = p -> (EvSpawn ∉ ls) /\ (EvError ∉ ls)) ->
  unheard p w -> unheard p (set_subs (insert h ls) w).
Proof.
  intros Hl (Hp & Hs & He). unfold unheard. split; [exact Hp|]. simpl.
  destruct (decide (h = p)) as [->|Hne].
  - rewrite lookup_insert_eq. simpl. apply Hl. reflexivity.
  - rewrite lookup_insert_ne by exact Hne. split; assumption.
Qed.

Lemma unh_frame (f : World -> World) :
  (forall w, promises (f w) = promises w /\ next_id (f w) = next_id w
             /\ subs (f w) = subs w) ->
  keepsU (modify f).
Proof.
  intros Hf w H. simpl. destruct (Hf w) as (H1 & H2 & H3).
  exact (unheard_frame w (f w) H1 H2 H3 H).
Qed.

Lemma unh_subs (h : nat) (ls : list EventName) :
  (h = p -> (EvSpawn ∉ ls) /\ (EvError ∉ ls)) ->
  keepsU (modify (set_subs (insert h ls))).
Proof. intros Hl w H. apply unheard_subs; assumption. Qed.

Lemma unh_log (l : Level) (msg : string) : keepsU (log l msg).
Proof. apply unh_frame. intros w. repeat split. Qed.

Lemma unh_agent_call (c : AgentCall) : keepsU (agent_call c).
Proof.
  intros w H. unfold agent_call.
  destruct (faults (add_call c w)) as [|[e|] rest]; exact H.
Qed.

Lemma unh_resolve (q : nat) : q ≠ p -> keepsU (resolve q).
Proof.
  intros Hq w ((H1 & H2) & Hs). unfold resolve, modify, unheard, pending. simpl.
  split; [|exact Hs]. split; [exact H1|].
  destruct (promises w !! q) as [[| |e]|]; try exact H2.
  rewrite lookup_insert_ne by exact Hq. exact H2.
Qed.

Lemma unh_new_promise (executor : nat -> M unit) :
  (forall q, q ≠ p -> keepsU (executor q)) -> keepsU (new_promise executor).
Proof.
  intros He w ((H1 & H2) & Hs). unfold new_promise.
  assert (Hne : next_id w ≠ p) by lia.
  assert (H0 : unheard p (set_next_id (S (next_id w))
                            (set_promises (insert (next_id w) Pending) w))).
  { split; [|exact Hs]. split; simpl; [lia|].
    rewrite lookup_insert_ne by exact Hne. exact H2. }
  specialize (He (next_id w) Hne _ H0).
  destruct (executor (next_id w) _) as [[a|e] w']; simpl in *; [exact He|].
  destruct He as ((He1 & He2) & He3). split; [|exact He3]. split; simpl; [exact He1|].
  destruct (promises w' !! next_id w) as [[| |e']|]; try exact He2.
  rewrite lookup_insert_ne by exact Hne. exact He2.
Qed.

Lemma unh_foldl_out {A : Type} (f : A -> Output) (l : list A) :
  keepsU (modify (fun w => foldl (fun w x => add_out (f x) w) w l)).
Proof.
  apply pres_foldl_out. intros o w. apply unheard_frame; reflexivity.
Qed.

(** The routine part: follow the structure of the code. *)
Ltac unh_tac :=
  repeat first
    [ apply pres_mret | apply pres_throw | apply pres_gets
    | apply unh_log | apply unh_agent_call
    | apply pres_bind; [|intros ?]
    | apply pres_try_catch; [|intros ?]
    | apply pres_async | apply pres_await | apply pres_lift
    | apply unh_foldl_out
    | apply unh_frame; intros ?; repeat split; reflexivity
    | match goal with
      | |- preserves _ (match ?x with _ => _ end) => destruct x
      | |- preserves _ (if ?x then _ else _) => destruct x
      end ].

Lemma unh_cleanup : keepsU cleanup.
Proof.
  unfold cleanup, this_bot. unh_tac.
  apply unh_subs. intros _. split; apply not_elem_of_nil.
Qed.

Lemma unh_tryReconnect : keepsU tryReconnect.
Proof. unfold tryReconnect. unh_tac. Qed.

Lemma unh_disconnect : keepsU disconnect.
Proof.
  unfold disconnect.
  apply pres_bind; [apply pres_gets | intros c].
  destruct (connected c); [|apply unh_log].
  destruct (bot c); [|apply unh_log].
  apply pres_bind; [apply unh_agent_call | intros _].
  apply pres_bind; [apply unh_cleanup | intros _; apply unh_log].
Qed.

Lemma unh_setAutoReconnect (flag : bool) : keepsU (setAutoReconnect flag).
Proof. unfold setAutoReconnect. unh_tac. Qed.

Lemma unh_say (message : string) : keepsU (say message).
Proof. unfold say. unh_tac. Qed.

Lemma unh_exit : keepsU exit.
Proof. unfold exit. unh_tac. Qed.

Lemma unh_query (type : jsval string) : keepsU (query type).
Proof.
  unfold query, read_position. unh_tac.
  all: try (apply (unh_foldl_out (fun p0 => Printed ("   - " +:+ p0)))).
Qed.

Lemma unh_lookAt (x y z : option string) : keepsU (lookAt x y z).
Proof. unfold lookAt. unh_tac. Qed.

Lemma unh_goto (x y z : option string) : keepsU (goto x y z).
Proof. unfold goto. unh_tac. Qed.

(** A new attempt takes a fresh handle, so it attaches nothing to the
    watched one. *)
Lemma unh_connect (host : jsval string) (port : jsval Num)
  (version : jsval string) : keepsU (connect host port version).
Proof.
  unfold connect, this_connected. unh_tac.
  apply unh_new_promise. intros q Hq. unh_tac.
  all: apply unh_subs; intros ->; contradiction.
Qed.

Lemma unh_on_spawn (h : nat) : h ≠ p -> keepsU (on_spawn h).
Proof.
  intros Hh. unfold on_spawn, read_position. unh_tac.
  all: try (apply unh_resolve; exact Hh).
Qed.

Lemma unh_on_chat (user : jsval string) (msg username : string) :
  keepsU (on_chat user msg username).
Proof. unfold on_chat. unh_tac. Qed.

Lemma unh_on_message (text : string) : keepsU (on_message text).
Proof. unfold on_message. unh_tac. Qed.

Lemma unh_on_kicked (reason : string) : keepsU (on_kicked reason).
Proof.
  unfold on_kicked.
  apply pres_bind; [apply unh_log | intros _].
  apply pres_bind; [apply unh_cleanup | intros _; apply unh_tryReconnect].
Qed.

Lemma unh_handleError (h : nat) (message : string) :
  h ≠ p -> keepsU (handleError h message).
Proof.
  intros Hh. unfold handleError, this_connected.
  apply pres_bind; [apply pres_gets | intros c].
  apply pres_bind; [destruct c; [apply pres_mret | apply unh_log] | intros _].
  apply pres_bind; [apply unh_cleanup | intros _; apply unh_resolve; exact Hh].
Qed.

Lemma unh_on_end : keepsU on_end.
Proof.
  unfold on_end, this_connected.
  apply pres_bind; [apply pres_gets | intros c].
  apply pres_bind; [destruct c; [apply unh_log | apply pres_mret] | intros _].
  apply pres_bind; [apply unh_cleanup | intros _; apply unh_tryReconnect].
Qed.

(** No event at all, on the watched handle or on another, reaches the
    promise: the two listeners that would resolve it are gone, and the
    others never do. *)
Lemma unh_emit (h : nat) (ev : Event) : keepsU (emit h ev).
Proof.
  intros w H. unfold emit.
  rewrite (bind_normal _ _ w w (default [] (subs w !! h))) by reflexivity.
  destruct (bool_decide_reflect (event_name ev ∈ default [] (subs w !! h)))
    as [Hin|Hnin].
  - destruct ev.
    + assert (Hh : h ≠ p) by (intros ->; destruct H as (_ & Hs & _); exact (Hs Hin)).
      revert w H Hin. 
      change (forall w, unheard p w -> EvSpawn ∈ default [] (subs w !! h) ->
                unheard p ((modify (set_subs (insert h (filter (fun n => n ≠ EvSpawn)
                              (default [] (subs w !! h)))));; on_spawn h) w).2).
      intros w H _.
      refine (pres_bind (unheard p) _ _ _ _ w H); [|intros _; apply unh_on_spawn; exact Hh].
      apply unh_subs. intros ->. contradiction.
    + apply unh_on_chat. exact H.
    + apply unh_on_message. exact H.
    + apply unh_on_kicked. exact H.
    + assert (Hh : h ≠ p) by (intros ->; destruct H as (_ & _ & He); exact (He Hin)).
      apply unh_handleError; assumption.
    + apply unh_on_end. exact H.
  - destruct ev; exact H.
Qed.

Lemma unh_cmd_join (args : list string) : keepsU (cmd_join args).
Proof.
  unfold cmd_join. apply pres_async.
  destruct (negb (truthy (arg args 0))).
  - apply pres_bind; [apply unh_log | intros _; apply pres_mret].
  - apply pres_await, unh_connect.
Qed.

Lemma unh_cmd_autoreconnect (args : list string) : keepsU (cmd_autoreconnect args).
Proof.
  unfold cmd_autoreconnect.
  destruct (truthy (arg args 0)); simpl; [|apply unh_log].
  unfold setAutoReconnect. unh_tac.
Qed.

Variable Number_ : string -> option string.

Lemma unh_call (fn : Property) (args : list string) :
  keepsU (call Number_ fn args).
Proof.
  destruct fn as [[] | | |]; simpl;
    first
      [ apply pres_lift; first [apply unh_cmd_join | apply unh_lookAt]
      | apply pres_bind;
        [ first [ apply unh_disconnect | apply unh_exit | apply unh_say
                | apply unh_query | apply unh_goto
                | apply unh_cmd_autoreconnect
                | unfold cmd_help; apply (unh_foldl_out Printed)
                | apply unh_frame; intros ?; repeat split; reflexivity ]
        | intros ?; apply pres_mret ]
      | apply pres_mret
      | apply pres_throw ].
Qed.

Lemma unh_handleCommand (input : string) : keepsU (handleCommand Number_ input).
Proof.
  unfold handleCommand. apply pres_async.
  destruct (split " " (trim input)) as [|cmd args]; [apply pres_mret|].
  destruct (String.eqb cmd ""); [apply pres_mret|].
  destruct (commands_get (toLowerCase cmd)) as [c| | |].
  1-3: apply pres_try_catch;
    [ apply pres_bind; [apply unh_call | intros r; apply pres_await; intros w H; exact H]
    | intros e; apply pres_bind; [apply unh_log | intros _; apply pres_mret] ].
  apply pres_bind; [apply unh_log | intros _; apply pres_mret].
Qed.

Lemma unh_step (i : Input) : step_preserves (unheard p) (step Number_ i).
Proof.
  intros w H. unfold step. destruct (exit_code w); [exact H|].
  destruct i as [line|h ev|k|].
  - pose proof (unh_handleCommand line w H) as Hh.
    unfold detached. destruct (handleCommand Number_ line w) as [[|e|q] w']; simpl in *;
      exact Hh.
  - pose proof (unh_emit h ev w H) as Hh.
    unfold run_callback. destruct (emit h ev w) as [[a|e] w']; simpl in *;
      exact Hh.
  - destruct (timers w !! k) as [[d []]|]; [|exact H].
    assert (H0 : unheard p (set_timers (delete k) w))
      by (revert H; apply unheard_frame; reflexivity).
    pose proof (unh_connect (lastHost (ctl (set_timers (delete k) w)))
                  (lastPort (ctl (set_timers (delete k) w)))
                  (lastVersion (ctl (set_timers (delete k) w))) _ H0) as Hh.
    unfold detached, reconnect_task.
    destruct (connect _ _ _ (set_timers (delete k) w)) as [[|e|q] w']; simpl in *;
      exact Hh.
  - assert (Hd : keepsU (disconnect ;; exit)).
    { apply pres_bind; [apply unh_disconnect | intros _; apply unh_exit]. }
    pose proof (Hd w H) as Hh.
    unfold run_callback. destruct ((disconnect ;; exit) w) as [[a|e] w']; simpl in *;
      exact Hh.
Qed.

(** Once unheard, always unheard: whatever the console and the agent
    clients send, the promise is never settled. *)
Lemma unh_run (inputs : list Input) : step_preserves (unheard p) (run Number_ inputs).
Proof.
  unfold run. induction inputs as [|i inputs IH]; intros w H; [exact H|].
  simpl. apply IH, unh_step. exact H.
Qed.

End Unheard.

(** C2 (amended). A connect attempt on a controller that is not connected
    sets no timer.  If [createBot] throws, the call is rejected with what
    was thrown.  If neither [createBot] nor [loadPlugin] faults, the call
    is left waiting on a fresh promise whose handle carries the six
    listeners, so that the error event, or the spawn event (the agent's
    entity being there for its position to be read), arriving next
    resolves it.  Through every run of inputs that holds neither the
    spawn nor the error event of the handle the promise stays pending;
    after such a run the error event resolves it if the error listener
    is still attached, the spawn event resolves it if the spawn listener
    is still attached and the entity is there, and if neither listener
    is attached any more it stays pending through every further run of
    inputs whatever.  That is what an ['end'] or a ['kicked'] of the
    handle brings about (the detaching not faulting): the handle is left
    without listeners and the promise pending for good. *)
Theorem connect_pending_until_spawn_or_error (Number_ : string -> option string)
  (w : World) (host : string) (port : jsval Num) (version : jsval string) :
  connected (ctl w) = false -> host ≠ "" ->
  let p := next_id w in
  let w1 := (connect (Val host) port version w).2 in
  timers w1 = timers w
  /\ (forall e rest, faults w = Some e :: rest ->
        (connect (Val host) port version w).1 = Rejected e)
  /\ (quiet 2 (faults w) = true ->
      (connect (Val host) port version w).1 = Waiting p
      /\ subs w1 !! p = Some listeners
      /\ (forall message : string,
            promises (emit p (ErrorEv message) w1).2 !! p = Some Resolved)
      /\ (position w ≠ None ->
          promises (emit p Spawn w1).2 !! p = Some Resolved)
      /\ (forall inputs : list Input,
            forallb (fun i => negb (settles p i)) inputs = true ->
            let w2 := run Number_ inputs w1 in
            promises w2 !! p = Some Pending
            /\ (forall message : string,
                  EvError ∈ default [] (subs w2 !! p) ->
                  promises (emit p (ErrorEv message) w2).2 !! p = Some Resolved)
            /\ (EvSpawn ∈ default [] (subs w2 !! p) -> position w2 ≠ None ->
                promises (emit p Spawn w2).2 !! p = Some Resolved)
            /\ ((EvSpawn ∉ default [] (subs w2 !! p)) ->
                (EvError ∉ default [] (subs w2 !! p)) ->
                forall more : list Input,
                  promises (run Number_ more w2) !! p = Some Pending))
      /\ (quiet 3 (faults w) = true ->
          forall ev : Event,
            event_name ev = EvEnd \/ event_name ev = EvKicked ->
            subs (emit p ev w1).2 !! p = Some []
            /\ forall more : list Input,
                 promises (run Number_ (Agent p ev :: more) w1) !! p
                 = Some Pending)).
Proof.
  intros Hc Hh p w1.
  split; [apply (connect_records_target w host port version Hc Hh)|].
  split.
  - intros e rest Hf. unfold connect. run_m. rewrite Hc. simpl.
    rewrite (eqb_empty_false _ Hh). simpl.
    unfold new_promise, agent_call. simpl. rewrite Hf. simpl.
    unfold promise_result. simpl. rewrite lookup_insert_eq. simpl.
    rewrite lookup_insert_eq. reflexivity.
  - intros Hq.
    destruct (connect_ok w host port version Hc Hh Hq)
      as (Hr & Hctl & Hs & Hp & Hn & _ & Hpos & _).
    destruct (connect_ok_tape w host port version Hc Hh Hq) as (Hf1 & _).
    fold p in Hr, Hctl, Hs, Hp, Hn.
    fold w1 in Hctl, Hs, Hp, Hn, Hpos, Hf1.
    assert (Hpend : promises w1 !! p = Some Pending)
      by (rewrite Hp; apply lookup_insert_eq).
    assert (Hl : subs w1 !! p = Some listeners)
      by (rewrite Hs; apply lookup_insert_eq).
    assert (Hpd : pending p w1) by (split; [rewrite Hn; lia | exact Hpend]).
    assert (Herr : forall (w2 : World) (message : string),
              promises w2 !! p = Some Pending ->
              EvError ∈ default [] (subs w2 !! p) ->
              promises (emit p (ErrorEv message) w2).2 !! p = Some Resolved).
    { intros w2 message Hp2 Hin.
      destruct (subs w2 !! p) as [ls|] eqn:Els; [|exfalso; revert Hin; apply not_elem_of_nil].
      rewrite (emit_listened p (ErrorEv message) w2 ls Els Hin).
      apply handleError_result. exact Hp2. }
    assert (Hspawn : forall w2 : World,
              promises w2 !! p = Some Pending ->
              EvSpawn ∈ default [] (subs w2 !! p) -> position w2 ≠ None ->
              promises (emit p Spawn w2).2 !! p = Some Resolved).
    { intros w2 Hp2 Hin Hpos2.
      destruct (subs w2 !! p) as [ls|] eqn:Els; [|exfalso; revert Hin; apply not_elem_of_nil].
      rewrite (emit_listened p Spawn w2 ls Els Hin).
      rewrite (bind_normal _ _ w2 _ tt) by reflexivity.
      match goal with
      | |- promises (on_spawn p ?w0).2 !! p = _ =>
          destruct (on_spawn_result p w0) as (_ & _ & _ & _ & Hres)
      end.
      destruct (Hres Hpos2) as [_ Hpr]. rewrite Hpr. simpl.
      rewrite Hp2. apply lookup_insert_eq. }
    split; [exact Hr|]. split; [exact Hl|]. split; [|split; [|split]].
    + intros message. apply Herr; [exact Hpend|].
      rewrite Hl. unfold listeners. simpl. do 4 right. left.
    + intros Hposw. apply Hspawn; [exact Hpend| |rewrite Hpos; exact Hposw].
      rewrite Hl. unfold listeners. simpl. left.
    + intros inputs Hall w2.
      assert (Hpd2 : pending p w2) by (apply (keepsW_run p Number_ inputs Hall w1 Hpd)).
      split; [exact (proj2 Hpd2)|]. split; [|split].
      * intros message. apply Herr. exact (proj2 Hpd2).
      * apply Hspawn. exact (proj2 Hpd2).
      * intros Hns Hne more.
        apply (unh_run p Number_ more w2). split; [exact Hpd2|]. split; assumption.
    + intros Hq3 ev Hev.
      assert (Hb1 : bot (ctl w1) = Some p) by (rewrite Hctl; reflexivity).
      assert (Hq1 : quiet 1 (faults w1) = true).
      { rewrite Hf1. apply (quiet_tail 1), (quiet_tail 2). exact Hq3. }
      assert (Hin : event_name ev ∈ listeners).
      { destruct Hev as [-> | ->]; unfold listeners.
        - do 5 right. left.
        - do 3 right. left. }
      assert (Hns : settles p (Agent p ev) = false)
        by (destruct ev; simpl in Hev; destruct Hev; try discriminate; reflexivity).
      assert (Hem : (emit p ev w1).1 = Normal tt
                    /\ subs (emit p ev w1).2 !! p = Some []).
      { rewrite (emit_listened p ev w1 listeners Hl Hin).
        destruct ev; simpl in Hev; destruct Hev; try discriminate.
        - destruct (on_kicked_result w1 p reason Hb1 Hq1) as (H1 & _ & H3 & _).
          split; [exact H1|]. rewrite H3. apply lookup_insert_eq.
        - destruct (on_end_detaches w1 p Hb1 Hq1) as (H1 & H3 & _).
          split; [exact H1|]. rewrite H3. apply lookup_insert_eq. }
      destruct Hem as (Hn1 & Hs1).
      split; [exact Hs1|].
      intros more.
      change (run Number_ (Agent p ev :: more) w1)
        with (run Number_ more (step Number_ (Agent p ev) w1)).
      destruct (exit_code w1) as [c|] eqn:Ex.
      * assert (E : step Number_ (Agent p ev) w1 = w1)
          by (unfold step; rewrite Ex; reflexivity).
        rewrite E, (run_exited Number_ more w1 c Ex). exact Hpend.
      * assert (E : step Number_ (Agent p ev) w1 = run_callback (emit p ev) w1)
          by (unfold step; rewrite Ex; reflexivity).
        rewrite E. apply (unh_run p Number_ more).
        pose proof (keeps_emit p p ev Hns w1 Hpd) as Hk.
        unfold run_callback.
        destruct (emit p ev w1) as [[[]|e] w2]; simpl in *; [|discriminate].
        split; [exact Hk|]. rewrite Hs1. simpl. split; apply not_elem_of_nil.
Qed.

Lemma connect_pending_until_spawn_or_error_witness :
  (connect (Val "host") Undefined Undefined world0).1 = Waiting 0
  /\ promises (run Number_none [Line "help"; Agent 0 (Message "hello"); TimerFires 0]
                 connecting_world) !! 0 = Some Pending
  /\ promises (emit 0 Spawn connecting_world).2 !! 0 = Some Resolved
  /\ promises (run Number_none [Agent 0 End; Agent 0 Spawn; Agent 0 (ErrorEv "late")]
                 connecting_world) !! 0 = Some Pending.
Proof.
  destruct (connect_pending_until_spawn_or_error Number_none world0 "host"
              Undefined Undefined eq_refl ltac:(discriminate))
    as (_ & _ & H).
  destruct (H eq_refl) as (H1 & _ & _ & H4 & H5 & H6).
  split; [exact H1|].
  split; [exact (proj1 (H5 [Line "help"; Agent 0 (Message "hello"); TimerFires 0]
                          eq_refl))|].
  split; [apply H4; discriminate|].
  exact (proj2 (H6 eq_refl End (or_introl eq_refl))
           [Agent 0 Spawn; Agent 0 (ErrorEv "late")]).
Defined.

(** C2 (as stated, refuted). An attempt whose handle stays silent is not
    failed by any timer: none is set, and the promise is still pending
    after the timers that might exist have fired and other inputs have
    been served.  An attempt whose handle ends before it spawns is left
    pending for good, whatever the handle sends afterwards.  And an
    attempt whose [createBot] throws is rejected to its caller. *)
Lemma connect_has_no_timeout :
  (connect (Val "host") Undefined Undefined world0).1 = Waiting 0
  /\ timers connecting_world = []
  /\ promises (run Number_none
                 [TimerFires 0; Line "help"; Agent 0 (Message "hello");
                  TimerFires 0; TimerFires 1]
                 connecting_world) !! 0 = Some Pending
  /\ promises (run Number_none
                 [Agent 0 End; Agent 0 Spawn; Agent 0 (ErrorEv "late")]
                 connecting_world) !! 0 = Some Pending
  /\ (connect (Val "host") Undefined Undefined
        (set_faults [Some "boom"] world0)).1 = Rejected "boom".
Proof.
  vm_compute. repeat split.
Qed.
